(** * State migration (zkTrie to MPT): a shallow embedding

    The development follows the two command-line programs of the
    repository:

    - [Follower]: the [migrator] of [cmd/migration/state]
      (initial account migration, hash-collision guard, block follower,
      checkpoint under the key ["migration-root"]);
    - [Sealer]: the [stateMigrator] of [cmd/migration]
      (account migration and the Bedrock transition block).

    Library code that the programs call (package [common], [rlp], [trie],
    [rawdb], [zk]) is either modelled after its documented behaviour, and
    marked as such, or kept abstract in the record [Lib]. *)

From Stdlib Require Import List ZArith NArith Lia Bool String Ascii.
From Stdlib Require Import Strings.Byte.
Import ListNotations.
Open Scope string_scope.
Open Scope list_scope.

(** ** Bytes, hashes and addresses *)

Definition bytes := list byte.

Definition byte_eqb (a b : byte) : bool := N.eqb (Byte.to_N a) (Byte.to_N b).

Fixpoint bytes_eqb (a b : bytes) : bool :=
  match a, b with
  | [], [] => true
  | x :: a', y :: b' => byte_eqb x y && bytes_eqb a' b'
  | _, _ => false
  end.

(** A byte from a number below 256 (the callers stay below 256). *)
Definition byte_of_N (n : N) : byte :=
  match Byte.of_N n with Some b => b | None => x00 end.

Definition HashLength : nat := 32.
Definition AddressLength : nat := 20.

(** [common.Hash] is [[32]byte], [common.Address] is [[20]byte]; both are
    carried as byte lists, built by [BytesToHash] and [BytesToAddress]. *)
Definition Hash := bytes.
Definition Address := bytes.

(** Modelled from the spec: [common.BytesToHash] and [Hash.SetBytes], whose
    package [common] is not among the sources read here.  "If b is larger
    than len(h), b will be cropped from the left"; otherwise it is copied
    right-aligned into a zero word. *)
Definition SetBytes (width : nat) (b : bytes) : bytes :=
  let b' := if Nat.ltb width (List.length b) then skipn (List.length b - width) b else b in
  repeat x00 (width - List.length b') ++ b'.

Definition BytesToHash (b : bytes) : Hash := SetBytes HashLength b.
Definition BytesToAddress (b : bytes) : Address := SetBytes AddressLength b.

(** Modelled from the spec: [common.TrimLeftZeroes], "returns a subslice of s
    without leading zeroes". *)
Fixpoint TrimLeftZeroes (s : bytes) : bytes :=
  match s with
  | [] => []
  | b :: t => if byte_eqb b x00 then TrimLeftZeroes t else s
  end.

(** ** RLP of a byte string *)

(** Big-endian digits of [n] in base 256, at most [fuel] of them
    ([rlp]'s [putint] writes at most eight). *)
Fixpoint putint_aux (fuel : nat) (n : N) (acc : bytes) : bytes :=
  match fuel with
  | O => acc
  | S f =>
      if N.eqb n 0%N then acc
      else putint_aux f (N.div n 256%N) (byte_of_N (N.modulo n 256%N) :: acc)
  end.

Definition putint (n : N) : bytes := putint_aux 8 n [].

(** Modelled from the spec: [rlp.EncodeToBytes] on a [[]byte], whose package
    [rlp] is not among the sources read here: a single byte below 0x80 is
    its own encoding, a string of fewer than 56 bytes is prefixed with
    0x80+length, a longer one with 0xB7+(length of the length) and the
    big-endian length. *)
Definition EncodeToBytes (b : bytes) : bytes :=
  match b with
  | [c] => if N.leb (Byte.to_N c) 127%N then [c] else byte_of_N 129%N :: b
  | _ =>
      let n := N.of_nat (List.length b) in
      if N.ltb n 56%N then byte_of_N (128 + n)%N :: b
      else let l := putint n in
           byte_of_N (183 + N.of_nat (List.length l))%N :: l ++ b
  end.

(** [encodeToRlp] of [cmd/migration/state]: the error of [EncodeToBytes] is
    dropped in the source; it cannot occur on a byte string. *)
Definition encodeToRlp (b : bytes) : bytes :=
  let trimmed := TrimLeftZeroes (BytesToHash b) in
  EncodeToBytes trimmed.

(** The last 32 bytes of a byte string (the whole string when shorter). *)
Definition last32 (b : bytes) : bytes := skipn (List.length b - HashLength) b.

(** ** Strings as bytes, hexadecimal *)

(** Go's conversion [[]byte(s)]: the characters of the string, one byte
    each. *)
Fixpoint bytes_of_string (s : string) : bytes :=
  match s with
  | EmptyString => []
  | String c t => byte_of_ascii c :: bytes_of_string t
  end.

Definition hex_digit (c : ascii) : option N :=
  let n := N_of_ascii c in
  if (N.leb 48%N n && N.leb n 57%N)%bool then Some (n - 48)%N
  else if (N.leb 97%N n && N.leb n 102%N)%bool then Some (n - 87)%N
  else if (N.leb 65%N n && N.leb n 70%N)%bool then Some (n - 55)%N
  else None.

(** [strings.TrimPrefix(s, "0x")]. *)
Definition trim0x (s : string) : string :=
  match s with
  | String "0" (String "x" t) => t
  | _ => s
  end.

(** Pairs of hex digits to bytes; stops at the first character that is not
    a hex digit ([hex.DecodeString] returns the bytes decoded so far, and
    [common.Hex2Bytes] drops the error). *)
Fixpoint hex_pairs (s : string) : bytes :=
  match s with
  | String a (String b t) =>
      match hex_digit a, hex_digit b with
      | Some x, Some y => byte_of_N (16 * x + y)%N :: hex_pairs t
      | _, _ => []
      end
  | _ => []
  end.

(** Modelled from the spec: [common.FromHex]: an optional "0x" or "0X"
    prefix, a "0" put in front of an odd number of digits, then
    [Hex2Bytes]. *)
Definition FromHex (s : string) : bytes :=
  let s1 := match s with
            | String "0" (String "x" t) => t
            | String "0" (String "X" t) => t
            | _ => s
            end in
  let s2 := if Nat.odd (String.length s1) then String "0" s1 else s1 in
  hex_pairs s2.

Definition HexToHash (s : string) : Hash := BytesToHash (FromHex s).
Definition HexToAddress (s : string) : Address := BytesToAddress (FromHex s).

(** The number written by a string of hex digits ([big.Int.SetString(s, 16)]
    on unsigned input); [None] when the string is empty or has another
    character. *)
Fixpoint hex_number_aux (s : string) (acc : N) : option N :=
  match s with
  | EmptyString => Some acc
  | String c t =>
      match hex_digit c with
      | Some d => hex_number_aux t (16 * acc + d)%N
      | None => None
      end
  end.

Definition hex_number (s : string) : option N :=
  match s with
  | EmptyString => None
  | _ => hex_number_aux s 0%N
  end.

(** ** Chain data and the backing store *)

(** [types.Header]; [Difficulty] and [Number] are non-negative [*big.Int]. *)
Record Header := mkHeader {
  ParentHash : Hash;
  UncleHash : Hash;
  Coinbase : Address;
  Root : Hash;
  TxHash : Hash;
  ReceiptHash : Hash;
  Bloom : bytes;
  Difficulty : N;
  Number : N;
  GasLimit : N;
  GasUsed : N;
  Time : N;
  Extra : bytes;
  MixDigest : Hash;
  Nonce : bytes;
  BaseFee : N
}.

(** The three scalars shared by [params.KromaConfig] and
    [params.OptimismConfig]. *)
Record ForkParams := mkForkParams {
  EIP1559Denominator : N;
  EIP1559Elasticity : N;
  EIP1559DenominatorCanyon : N
}.

(** The fields of [params.ChainConfig] that the sealing step reads or
    writes; [None] is a nil pointer. *)
Record ChainConfig := mkChainConfig {
  LondonBlock : option N;
  ArrowGlacierBlock : option N;
  GrayGlacierBlock : option N;
  MergeNetsplitBlock : option N;
  TerminalTotalDifficulty : option N;
  TerminalTotalDifficultyPassed : bool;
  BedrockBlock : option N;
  RegolithTime : option N;
  Optimism : option ForkParams;
  Kroma : option ForkParams
}.

(** Keys of the backing store: the raw keys that the programs pass to
    [db.Get] and [db.Put] themselves, and the entries that package [rawdb]
    keeps under its own key schema. *)
Inductive Key :=
| KRaw (k : bytes)
| KHeadHeaderHash
| KHeadBlockHash
| KHeadFastBlockHash
| KFinalizedBlockHash
| KHeaderNumber (h : Hash)
| KHeader (n : N) (h : Hash)
| KTd (n : N) (h : Hash)
| KBody (n : N) (h : Hash)
| KReceipts (n : N) (h : Hash)
| KCanonicalHash (n : N)
| KChainConfig (h : Hash).

Inductive Value :=
| VBytes (b : bytes)
| VHash (h : Hash)
| VNumber (n : N)
| VHeader (hd : Header)
| VTd (td : N)
| VEmptyBody
| VEmptyReceipts
| VConfig (cfg : ChainConfig).

Definition key_eqb (a b : Key) : bool :=
  match a, b with
  | KRaw x, KRaw y => bytes_eqb x y
  | KHeadHeaderHash, KHeadHeaderHash => true
  | KHeadBlockHash, KHeadBlockHash => true
  | KHeadFastBlockHash, KHeadFastBlockHash => true
  | KFinalizedBlockHash, KFinalizedBlockHash => true
  | KHeaderNumber x, KHeaderNumber y => bytes_eqb x y
  | KHeader n x, KHeader m y => N.eqb n m && bytes_eqb x y
  | KTd n x, KTd m y => N.eqb n m && bytes_eqb x y
  | KBody n x, KBody m y => N.eqb n m && bytes_eqb x y
  | KReceipts n x, KReceipts m y => N.eqb n m && bytes_eqb x y
  | KCanonicalHash n, KCanonicalHash m => N.eqb n m
  | KChainConfig x, KChainConfig y => bytes_eqb x y
  | _, _ => false
  end.

Definition Store := Key -> option Value.

Definition store_put (k : Key) (v : Value) (s : Store) : Store :=
  fun k' => if key_eqb k k' then Some v else s k'.

Definition uint64 (n : N) : N := N.modulo n (2 ^ 64)%N.

(** ** Tries, as the programs see them *)

(** [types.StateAccount]. *)
Record StateAccount := mkStateAccount {
  accNonce : N;
  accBalance : N;
  accRoot : Hash;
  accCodeHash : bytes
}.

(** [trie.ID]. *)
Record ID := mkID {
  idStateRoot : Hash;
  idOwner : Hash;
  idRoot : Hash
}.

Definition zeroHash : Hash := repeat x00 HashLength.

Definition TrieID (root : Hash) : ID := mkID root zeroHash root.
Definition StateTrieID (root : Hash) : ID := mkID root zeroHash root.
Definition StorageTrieID (stateRoot owner root : Hash) : ID :=
  mkID stateRoot owner root.

(** What has been written into an open [trie.StateTrie]. *)
Inductive MptWrite :=
| WAccount (addr : Address) (acc : StateAccount)
| WStorage (key value : bytes).

(** An open MPT: the id it was opened with and the writes made since,
    most recent first. *)
Record StateTrie := mkStateTrie {
  mptId : ID;
  mptWrites : list MptWrite
}.

(** One position of a zkTrie node iterator. *)
Record ZkNode := mkZkNode {
  zkLeaf : bool;
  zkLeafKey : bytes;
  zkLeafBlob : bytes
}.

(** One position of an MPT node iterator. *)
Record MptNode := mkMptNode {
  nodeLeaf : bool;
  nodeHash : Hash
}.

Definition NodeSet := list (Hash * bytes).

(** The checkpoint record of the follower. *)
Record migrationRoot := mkMigrationRoot {
  rootHash : Hash;
  rootNumber : N
}.

(** Decoded JSON, as [encoding/json] gives it for [any]; an object is kept
    as its list of members.  Of the numbers only the non-negative integers
    are modelled. *)
#[local] Unset Elimination Schemes.
Inductive Json :=
| JNull
| JBool (b : bool)
| JNumber (n : N)
| JString (s : string)
| JArray (l : list Json)
| JObject (members : list (string * Json)).
#[local] Set Elimination Schemes.

(** The outcome of one [http.Post] and of reading its body. *)
Inductive Exchange :=
| PostError
| ReadError
| Body (b : bytes).

(** An exchange that failed in the transport, before any answer of the
    node could be decoded. *)
Definition transportFailure (x : Exchange) : Prop :=
  x = PostError \/ x = ReadError.

(** The JSON-RPC envelope [response[hexutil.Big]] after decoding. *)
Record BigResponse := mkBigResponse {
  respResult : option N;
  respError : option string
}.

(** ** The library interface

    What the programs need from packages that are not part of the
    migration code.  Functions that read the database take the store. *)
Record Lib := mkLib {
  Keccak256Hash : bytes -> Hash;
  EmptyRootHash : Hash;
  EmptyZkRootHash : Hash;
  EmptyUncleHash : Hash;
  KromaProtocolVault : Address;
  (* trie.IteratorKeyToHash(key, true) *)
  IteratorKeyToHash : bytes -> Hash;
  (* zkdb.Preimage(hash) *)
  zkdbPreimage : Store -> Hash -> bytes;
  (* zk.MustNewSecureHash(b).Bytes(); None when it panics *)
  MustNewSecureHash : bytes -> option bytes;
  (* trie.NewZkMerkleStateTrie, NodeIterator(nil) and the positions that
     Next(false) visits; None when the trie cannot be opened *)
  zkNodeIterator : Store -> Hash -> option (list ZkNode);
  (* types.NewStateAccount(blob, true) *)
  NewStateAccount : bytes -> option StateAccount;
  (* types.NewEmptyStateAccount(false) *)
  NewEmptyStateAccount : StateAccount;
  (* trie.NewStateTrie(id, db) succeeds *)
  NewStateTrie : Store -> ID -> bool;
  (* the account stored in the trie that was opened; the outer None is an
     error, the inner one an absent account *)
  GetStoredAccount : Store -> ID -> Address -> option (option StateAccount);
  (* MustNodeIterator(nil) and the positions that Next(true) visits *)
  MustNodeIterator : Store -> StateTrie -> list MptNode;
  (* mpt.Commit(true) *)
  Commit : Store -> StateTrie -> option (Hash * NodeSet);
  (* mptdb.Update(root, parent, 0, nodes, nil) succeeds *)
  dbUpdate : Hash -> NodeSet -> bool;
  (* mptdb.Commit(root, report): the store afterwards, given the node sets
     merged so far *)
  dbCommit : Store -> list (Hash * NodeSet) -> Hash -> option Store;
  (* zk.NewTreeNodeFromBlob(data) returns no error *)
  NewTreeNodeFromBlob : bytes -> bool;
  (* header.Hash() *)
  HeaderHash : Header -> Hash;
  (* json.Marshal and json.Unmarshal on *migrationRoot: the pointer after
     the call, and whether an error was returned *)
  marshalRoot : migrationRoot -> bytes;
  unmarshalRoot : bytes -> option migrationRoot * bool;
  (* json.Unmarshal into response[hexutil.Big] and into map[string]any *)
  unmarshalBigResponse : bytes -> option BigResponse;
  unmarshalObject : bytes -> option (list (string * Json));
  (* state.New(root, db, nil) followed by Commit(0, true) *)
  stateNew : Store -> Hash -> bool;
  stateCommit : Store -> Hash -> option (Hash * NodeSet)
}.

(** ** Effects

    A computation runs on a world: the backing store, the node sets merged
    into the trie database and not yet flushed, the outcomes of the HTTP
    exchanges still to come, and the log of what has been done.  The log
    has the reads that the programs make through [db.Get], every write to
    the store, the calls on tries and on the trie database, the requests
    sent to the node, the sleeps and the messages that matter below; the
    progress reports of [status.go] change nothing and are left out. *)
Inductive Event :=
| EvDbGet (k : Key)
| EvDbPut (k : Key) (v : Value)
| EvOpenZkIterator (root : Hash)
| EvNewMPT (id : ID)
| EvUpdateAccount (id : ID) (addr : Address) (acc : StateAccount)
| EvUpdateStorage (id : ID) (key value : bytes)
| EvTrieCommit (root : Hash)
| EvNodeSetMerge (root : Hash)
| EvDbCommit (root : Hash)
| EvPost (method : string) (blockNumber : option N)
| EvSleep (seconds : N)
| EvPrintln (msg : string).

Record World := mkWorld {
  store : Store;
  merged : list (Hash * NodeSet);
  net : list Exchange;
  log : list Event
}.

(** [Err] is a returned Go error, [Panic] a panic (or [log.Crit]): the
    process ends. *)
Inductive Res (A : Type) : Type :=
| Ok (a : A)
| Err (msg : string)
| Panic (msg : string).
Arguments Ok {A} a.
Arguments Err {A} msg.
Arguments Panic {A} msg.

Definition M (A : Type) : Type := World -> Res A * World.

Definition ret {A} (a : A) : M A := fun w => (Ok a, w).

Definition bind {A B} (m : M A) (f : A -> M B) : M B :=
  fun w =>
    match m w with
    | (Ok a, w') => f a w'
    | (Err e, w') => (Err e, w')
    | (Panic p, w') => (Panic p, w')
    end.

Notation "x <- m ;; k" := (bind m (fun x => k))
  (at level 61, m at next level, right associativity).
Notation "m ;;; k" := (bind m (fun _ => k))
  (at level 61, right associativity).

Definition panic {A} (msg : string) : M A := fun w => (Panic msg, w).
Definition fail {A} (msg : string) : M A := fun w => (Err msg, w).

(** [must], [must1] and [must2] of [must.go]: a returned error becomes a
    panic. *)
Definition must1 {A} (m : M A) : M A :=
  fun w =>
    match m w with
    | (Err e, w') => (Panic e, w')
    | r => r
    end.
Definition must : M unit -> M unit := must1.
Definition must2 {A B} : M (A * B) -> M (A * B) := must1.

Definition emit (e : Event) : M unit :=
  fun w => (Ok tt, mkWorld (store w) (merged w) (net w) (log w ++ [e])).

Definition getStore : M Store := fun w => (Ok (store w), w).

(** [db.Get(key)] with the error dropped: the bytes, empty when the key is
    absent. *)
Definition dbGet (key : bytes) : M bytes :=
  emit (EvDbGet (KRaw key)) ;;;
  s <- getStore ;;
  ret match s (KRaw key) with Some (VBytes b) => b | _ => [] end.

(** A write to the store, by [db.Put] or by one of the [rawdb.Write]
    functions. *)
Definition dbPut (k : Key) (v : Value) : M unit :=
  emit (EvDbPut k v) ;;;
  fun w => (Ok tt, mkWorld (store_put k v (store w)) (merged w) (net w) (log w)).

Definition liftOption {A} (msg : string) (o : option A) : M A :=
  match o with Some a => ret a | None => fail msg end.

(** Events that write to the store through [dbPut]. *)
Definition isPut (e : Event) : bool :=
  match e with
  | EvDbPut _ _ => true
  | _ => false
  end.

(** A computation whose runs make no such write. *)
Definition quiet {A} (m : M A) : Prop :=
  forall w r w', m w = (r, w') ->
    exists evs, log w' = log w ++ evs /\ Forall (fun e => isPut e = false) evs.

(** A read of the raw key [k] through [db.Get]. *)
Definition probed (k : bytes) (e : Event) : bool :=
  match e with
  | EvDbGet (KRaw k') => bytes_eqb k k'
  | _ => false
  end.

(** ** Operations shared by the two programs *)

Section Tries.
Context (L : Lib).

(** [trie.NewStateTrie(id, db)]: an MPT with no writes yet. *)
Definition NewMPT (id : ID) : M StateTrie :=
  emit (EvNewMPT id) ;;;
  s <- getStore ;;
  if NewStateTrie L s id then ret (mkStateTrie id []) else fail "NewStateTrie".

(** [trie.NewZkMerkleStateTrie(root, zkdb)] and [tr.NodeIterator(nil)]; the
    result stands for the positions that the loop [it.Next(false)] goes
    through. *)
Definition OpenZkIterator (root : Hash) : M (list ZkNode) :=
  emit (EvOpenZkIterator root) ;;;
  s <- getStore ;;
  liftOption "NewZkMerkleStateTrie" (zkNodeIterator L s root).

(** [mpt.UpdateStorage(common.Address{}, key, value)]. *)
Definition UpdateStorage (t : StateTrie) (key value : bytes) : M StateTrie :=
  emit (EvUpdateStorage (mptId t) key value) ;;;
  ret (mkStateTrie (mptId t) (WStorage key value :: mptWrites t)).

(** [mpt.UpdateAccount(address, acc)]. *)
Definition UpdateAccount (t : StateTrie) (addr : Address) (acc : StateAccount)
  : M StateTrie :=
  emit (EvUpdateAccount (mptId t) addr acc) ;;;
  ret (mkStateTrie (mptId t) (WAccount addr acc :: mptWrites t)).

Fixpoint lookupAccount (addr : Address) (ws : list MptWrite)
  : option StateAccount :=
  match ws with
  | [] => None
  | WAccount a acc :: rest =>
      if bytes_eqb a addr then Some acc else lookupAccount addr rest
  | WStorage _ _ :: rest => lookupAccount addr rest
  end.

(** [mpt.GetAccount(address)]: the last account written in this trie, else
    the one stored under the root it was opened at. *)
Definition GetAccount (t : StateTrie) (addr : Address)
  : M (option StateAccount) :=
  match lookupAccount addr (mptWrites t) with
  | Some acc => ret (Some acc)
  | None =>
      s <- getStore ;;
      liftOption "GetAccount" (GetStoredAccount L s (mptId t) addr)
  end.

(** [mpt.Commit(true)]. *)
Definition TrieCommit (t : StateTrie) : M (Hash * NodeSet) :=
  s <- getStore ;;
  rs <- liftOption "Commit" (Commit L s t) ;;
  emit (EvTrieCommit (fst rs)) ;;;
  ret rs.

(** [mptdb.Update(root, types.EmptyRootHash, 0, nodes, nil)]: the node set is
    merged into the trie database. *)
Definition DbUpdate (root : Hash) (set : NodeSet) : M unit :=
  if dbUpdate L root set then
    emit (EvNodeSetMerge root) ;;;
    fun w => (Ok tt, mkWorld (store w) (merged w ++ [(root, set)]) (net w) (log w))
  else fail "Update".

(** [mptdb.Commit(root, false)]: the merged nodes are flushed to the
    store. *)
Definition DbCommit (root : Hash) : M unit :=
  fun w =>
    match dbCommit L (store w) (merged w) root with
    | Some s' => (Ok tt, mkWorld s' [] (net w) (log w ++ [EvDbCommit root]))
    | None => (Err "Commit", w)
    end.

(** The test of [readPreimage] on a candidate [p] from the preimage index:
    [common.BytesToHash(zk.MustNewSecureHash(p).Bytes())] is the key hash
    (the source compares the two in hexadecimal). *)
Definition verified (keyHash : Hash) (p : bytes) : Prop :=
  exists h, MustNewSecureHash L p = Some h /\ BytesToHash h = keyHash.

(** [rawdb.ReadHeadHeaderHash]: the zero hash when the entry is absent. *)
Definition ReadHeadHeaderHash (s : Store) : Hash :=
  match s KHeadHeaderHash with Some (VHash h) => h | _ => zeroHash end.

(** [rawdb.ReadHeaderNumber]. *)
Definition ReadHeaderNumber (s : Store) (h : Hash) : option N :=
  match s (KHeaderNumber h) with Some (VNumber n) => Some n | _ => None end.

(** [rawdb.ReadHeader]. *)
Definition ReadHeader (s : Store) (h : Hash) (n : N) : option Header :=
  match s (KHeader n h) with Some (VHeader hd) => Some hd | _ => None end.

(** [rawdb.ReadHeadHeader]. *)
Definition ReadHeadHeader (s : Store) : option Header :=
  let h := ReadHeadHeaderHash s in
  if bytes_eqb h zeroHash then None
  else match ReadHeaderNumber s h with
       | None => None
       | Some n => ReadHeader s h n
       end.

End Tries.

(** * The follower program: [cmd/migration/state] *)

Module Follower.

(** The Go maps of the [migrator], as partial functions. *)
Record migrator := mkMigrator {
  genesisAccount : Hash -> option Address;
  genesisStorage : Hash -> option bytes
}.

Definition checkpointKey : bytes := bytes_of_string "migration-root".

Definition devnetContract : Address :=
  FromHex "0x4200000000000000000000000000000000000070".

Section Program.
Context (L : Lib) (m : migrator).

(** [readPreimage]: [Err] is the returned error. *)
Definition readPreimage (key : bytes) : M bytes :=
  let keyHash := IteratorKeyToHash L key in
  match genesisAccount m keyHash with
  | Some addr => ret addr
  | None =>
      match genesisStorage m keyHash with
      | Some slot => ret slot
      | None =>
          s <- getStore ;;
          let preimage := zkdbPreimage L s keyHash in
          match MustNewSecureHash L preimage with
          | None => panic "MustNewSecureHash"
          | Some h =>
              if bytes_eqb (BytesToHash h) keyHash then ret preimage
              else fail "preimage does not exist"
          end
      end
  end.

(** The body of the loop of [checkHashCollision]. *)
Fixpoint checkNodes (nodes : list MptNode) : M unit :=
  match nodes with
  | [] => ret tt
  | n :: rest =>
      if negb (nodeLeaf n) then checkNodes rest
      else
        data <- dbGet (nodeHash n) ;;
        match data with
        | [] => checkNodes rest
        | _ =>
            if NewTreeNodeFromBlob L data
            then panic "Hash collision detected"
            else checkNodes rest
        end
  end.

Definition checkHashCollision (t : StateTrie) : M unit :=
  s <- getStore ;;
  checkNodes (MustNodeIterator L s t).

Definition commit (mpt : StateTrie) : M Hash :=
  rs <- must2 (TrieCommit L mpt) ;;
  must (DbUpdate L (fst rs) (snd rs)) ;;;
  must (DbCommit L (fst rs)) ;;;
  ret (fst rs).

Definition newMPT (id : ID) : M StateTrie := must1 (NewMPT L id).

Definition openZkIterator (root : Hash) : M (list ZkNode) :=
  must1 (OpenZkIterator L root).

(** The loop of [migrateStorage] over the positions of the iterator. *)
Fixpoint migrateStorageLoop (address : Address) (nodes : list ZkNode)
  (mpt : StateTrie) : M StateTrie :=
  match nodes with
  | [] => ret mpt
  | it :: rest =>
      if negb (zkLeaf it) then migrateStorageLoop address rest mpt
      else
        fun w =>
          match readPreimage (zkLeafKey it) w with
          | (Ok slot, w1) =>
              (mpt' <- UpdateStorage mpt slot (encodeToRlp (zkLeafBlob it)) ;;
               migrateStorageLoop address rest mpt') w1
          | (Err e, w1) =>
              if bytes_eqb address devnetContract
              then (emit (EvPrintln "slot migration failed. ignore") ;;;
                    migrateStorageLoop address rest mpt) w1
              else (Panic e, w1)
          | (Panic p, w1) => (Panic p, w1)
          end
  end.

Definition migrateStorage (address : Address) (zkStorageRoot : Hash) : M Hash :=
  if bytes_eqb zkStorageRoot (EmptyZkRootHash L) then ret (EmptyRootHash L)
  else
    mpt <- newMPT (StorageTrieID (EmptyRootHash L)
                     (Keccak256Hash L address) (EmptyRootHash L)) ;;
    nodes <- openZkIterator zkStorageRoot ;;
    mpt' <- migrateStorageLoop address nodes mpt ;;
    checkHashCollision mpt' ;;;
    commit mpt'.

Definition setRoot (acc : StateAccount) (r : Hash) : StateAccount :=
  mkStateAccount (accNonce acc) (accBalance acc) r (accCodeHash acc).

(** The loop of [migrateAccount]. *)
Fixpoint migrateAccountLoop (nodes : list ZkNode) (mpt : StateTrie)
  : M StateTrie :=
  match nodes with
  | [] => ret mpt
  | it :: rest =>
      if negb (zkLeaf it) then migrateAccountLoop rest mpt
      else
        pre <- must1 (readPreimage (zkLeafKey it)) ;;
        let address := BytesToAddress pre in
        acc <- must1 (liftOption "NewStateAccount"
                        (NewStateAccount L (zkLeafBlob it))) ;;
        r <- migrateStorage address (accRoot acc) ;;
        mpt' <- must1 (UpdateAccount mpt address (setRoot acc r)) ;;
        migrateAccountLoop rest mpt'
  end.

Definition migrateAccount : M migrationRoot :=
  s <- getStore ;;
  match ReadHeadHeader s with
  | None => panic "nil pointer dereference"
  | Some header =>
      mpt <- newMPT (TrieID (EmptyRootHash L)) ;;
      nodes <- openZkIterator (Root header) ;;
      mpt' <- migrateAccountLoop nodes mpt ;;
      checkHashCollision mpt' ;;;
      root <- commit mpt' ;;
      ret (mkMigrationRoot root (uint64 (Number header)))
  end.

(** *** The chain client: [httpClient] of [chain.go]

    [newMigrator] gives the migrator an [httpClient]; the other
    implementation of [BlockChain], [node], is not used by it. *)

(** [must1(http.Post(...))] followed by [must1(io.ReadAll(res.Body))]: the
    next exchange is consumed; no exchange left means that the node does
    not answer. *)
Definition post (method : string) (blockNumber : option N) : M bytes :=
  emit (EvPost method blockNumber) ;;;
  fun w =>
    match net w with
    | [] => (Panic "http.Post", w)
    | x :: rest =>
        let w' := mkWorld (store w) (merged w) rest (log w) in
        match x with
        | PostError => (Panic "http.Post", w')
        | ReadError => (Panic "io.ReadAll", w')
        | Body b => (Ok b, w')
        end
    end.

(** [send[hexutil.Big]]. *)
Definition send (method : string) : M (option N) :=
  b <- post method None ;;
  match unmarshalBigResponse L b with
  | None => panic "json.Unmarshal"
  | Some r =>
      match respError r with
      | Some e => fail e
      | None => ret (respResult r)
      end
  end.

Definition eth_blockNumber : M N :=
  r <- must1 (send "eth_blockNumber") ;;
  match r with
  | None => panic "nil pointer dereference"
  | Some n => ret (uint64 n)
  end.

Fixpoint jsonField (k : string) (ms : list (string * Json)) : option Json :=
  match ms with
  | [] => None
  | (k', v) :: rest => if String.eqb k' k then Some v else jsonField k rest
  end.

(** The type assertions [x.(map[string]any)] and [x.([]any)]. *)
Definition asObject (j : option Json) : M (list (string * Json)) :=
  match j with
  | Some (JObject ms) => ret ms
  | _ => panic "interface conversion"
  end.

Definition asArray (j : option Json) : M (list Json) :=
  match j with
  | Some (JArray l) => ret l
  | _ => panic "interface conversion"
  end.

Section Trace.
Context {A : Type} (callback : Address -> list (string * Json) -> A -> M A).

Fixpoint forEachAccount (txPostState : list (string * Json)) (a : A) : M A :=
  match txPostState with
  | [] => ret a
  | (address, state) :: rest =>
      st <- asObject (Some state) ;;
      a' <- callback (HexToAddress address) st a ;;
      forEachAccount rest a'
  end.

Fixpoint forEachTx (txs : list Json) (a : A) : M A :=
  match txs with
  | [] => ret a
  | tx :: rest =>
      t <- asObject (Some tx) ;;
      r <- asObject (jsonField "result" t) ;;
      txPostState <- asObject (jsonField "post" r) ;;
      a' <- forEachAccount txPostState a ;;
      forEachTx rest a'
  end.

(** The callback of the source updates the MPT that its closure holds; here
    the value [a] is passed along. *)
Definition debug_traceBlockByNumber (blockNumber : N) (a : A) : M A :=
  b <- post "debug_traceBlockByNumber" (Some blockNumber) ;;
  match unmarshalObject L b with
  | None => panic "json.Unmarshal"
  | Some result =>
      txs <- asArray (jsonField "result" result) ;;
      forEachTx txs a
  end.

End Trace.

(** *** Applying a block *)

(** [delete(nextState, k)]. *)
Definition deleteKey (k : string) (ms : list (string * Json))
  : list (string * Json) :=
  filter (fun p => negb (String.eqb (fst p) k)) ms.

Definition setBalance (acc : StateAccount) (b : N) : StateAccount :=
  mkStateAccount (accNonce acc) b (accRoot acc) (accCodeHash acc).

Definition setNonce (acc : StateAccount) (n : N) : StateAccount :=
  mkStateAccount n (accBalance acc) (accRoot acc) (accCodeHash acc).

(** The loop over the storage entries of a delta. *)
Fixpoint updateStorageLoop (entries : list (string * Json)) (mpt : StateTrie)
  : M StateTrie :=
  match entries with
  | [] => ret mpt
  | (key, value) :: rest =>
      match value with
      | JString v =>
          mpt' <- must1 (UpdateStorage mpt (HexToHash key)
                           (encodeToRlp (bytes_of_string v))) ;;
          updateStorageLoop rest mpt'
      | _ => panic "interface conversion"
      end
  end.

Definition updateAccount (address : Address) (account : option StateAccount)
  (nextState : list (string * Json)) (stateRoot : Hash) : M StateAccount :=
  let account :=
    match account with
    | None => NewEmptyStateAccount L
    | Some a => a
    end in
  an1 <- match jsonField "balance" nextState with
         | Some (JString s) =>
             match hex_number (trim0x s) with
             | Some b =>
                 ret (setBalance account b, deleteKey "balance" nextState)
             | None => panic ""
             end
         | Some _ => panic "interface conversion"
         | None => ret (account, nextState)
         end ;;
  an2 <- match jsonField "nonce" (snd an1) with
         | Some (JNumber f) =>
             ret (setNonce (fst an1) (uint64 f), deleteKey "nonce" (snd an1))
         | Some _ => panic "account"
         | None => ret an1
         end ;;
  an3 <- match jsonField "storage" (snd an2) with
         | Some storage =>
             mpt <- newMPT (StorageTrieID stateRoot (Keccak256Hash L address)
                              (accRoot (fst an2))) ;;
             entries <- asObject (Some storage) ;;
             mpt' <- updateStorageLoop entries mpt ;;
             r <- commit mpt' ;;
             ret (setRoot (fst an2) r, deleteKey "storage" (snd an2))
         | None => ret an2
         end ;;
  match snd an3 with
  | [] => ret (fst an3)
  | _ => panic "account"
  end.

(** [applyNewStateTransition]: [None] is the nil result. *)
Definition applyNewStateTransition (root : migrationRoot)
  : M (option migrationRoot) :=
  headBlockNumber <- eth_blockNumber ;;
  if N.leb (rootNumber root) headBlockNumber then
    mpt <- newMPT (StateTrieID (rootHash root)) ;;
    mpt' <- debug_traceBlockByNumber
              (fun address state mpt =>
                 prior <- must1 (GetAccount L mpt address) ;;
                 next <- updateAccount address prior state (rootHash root) ;;
                 must1 (UpdateAccount mpt address next))
              (rootNumber root) mpt ;;
    h <- commit mpt' ;;
    ret (Some (mkMigrationRoot h (uint64 (rootNumber root + 1))))
  else ret None.

(** *** The driver [start] *)

Definition putCheckpoint (root : migrationRoot) : M unit :=
  must (dbPut (KRaw checkpointKey) (VBytes (marshalRoot L root))).

(** [start] up to its loop: the checkpoint is read, and the accounts are
    migrated when no record came out of it. *)
Definition startup : M migrationRoot :=
  jsonBytes <- dbGet checkpointKey ;;
  root <- match jsonBytes with
          | [] => ret None
          | _ =>
              let r := unmarshalRoot L jsonBytes in
              if snd r
              then emit (EvPrintln "invalid migration-root format") ;;;
                   ret (fst r)
              else ret (fst r)
          end ;;
  match root with
  | Some r => ret r
  | None =>
      r <- migrateAccount ;;
      putCheckpoint r ;;;
      ret r
  end.

(** One turn of the loop of [start]; the result is the value of [root] for
    the next turn. *)
Definition iteration (root : migrationRoot) : M migrationRoot :=
  nextRoot <- applyNewStateTransition root ;;
  match nextRoot with
  | None => emit (EvSleep 2) ;;; ret root
  | Some r => putCheckpoint r ;;; ret r
  end.

(** [n] turns of the loop, which has no exit of its own. *)
Fixpoint loop (n : nat) (root : migrationRoot) : M migrationRoot :=
  match n with
  | O => ret root
  | S k => r <- iteration root ;; loop k r
  end.

Definition start (n : nat) : M migrationRoot :=
  root <- startup ;;
  loop n root.

End Program.
End Follower.

(** * The sealing program: [cmd/migration] *)

Module Sealer.

Record stateMigrator := mkStateMigrator {
  genesisAccount : Hash -> option Address;
  genesisStorage : Hash -> option bytes
}.

(** [BedrockTransitionBlockExtraData]. *)
Definition BedrockTransitionBlockExtraData : bytes := bytes_of_string "BEDROCK".
Definition L2GenesisBlockGasLimit : N := 0.
Definition L2OutputOracleStartingTimestamp : N := 0.
Definition InitialBaseFee : N := 0.

Record MigrationResult := mkMigrationResult {
  TransitionHeight : N;
  TransitionTimestamp : N;
  TransitionBlockHash : Hash
}.

Section Program.
Context (L : Lib) (m : stateMigrator).

(** [readPreimage]: it panics where the follower's returns an error. *)
Definition readPreimage (key : bytes) : M bytes :=
  let keyHash := IteratorKeyToHash L key in
  match genesisAccount m keyHash with
  | Some addr => ret addr
  | None =>
      match genesisStorage m keyHash with
      | Some slot => ret slot
      | None =>
          s <- getStore ;;
          let preimage := zkdbPreimage L s keyHash in
          match MustNewSecureHash L preimage with
          | None => panic "MustNewSecureHash"
          | Some h =>
              if bytes_eqb (BytesToHash h) keyHash then ret preimage
              else panic "preimage does not exist."
          end
      end
  end.

(** The commit sequence that ends [migrateAccount] and [migrateStorage]:
    [mpt.Commit], [mergedNodeSet.Merge], [mptdb.Update], [mptdb.Commit]. *)
Definition commitAll (mpt : StateTrie) : M Hash :=
  rs <- TrieCommit L mpt ;;
  DbUpdate L (fst rs) (snd rs) ;;;
  DbCommit L (fst rs) ;;;
  ret (fst rs).

Fixpoint migrateStorageLoop (nodes : list ZkNode) (mpt : StateTrie)
  : M StateTrie :=
  match nodes with
  | [] => ret mpt
  | it :: rest =>
      if negb (zkLeaf it) then migrateStorageLoop rest mpt
      else
        slot <- readPreimage (zkLeafKey it) ;;
        mpt' <- UpdateStorage mpt slot (zkLeafBlob it) ;;
        migrateStorageLoop rest mpt'
  end.

Definition migrateStorage (address : Address) (zkStorageRoot : Hash) : M Hash :=
  if bytes_eqb zkStorageRoot (EmptyZkRootHash L) then ret (EmptyRootHash L)
  else
    mpt <- NewMPT L (StorageTrieID (EmptyRootHash L)
                       (Keccak256Hash L address) (EmptyRootHash L)) ;;
    nodes <- OpenZkIterator L zkStorageRoot ;;
    mpt' <- migrateStorageLoop nodes mpt ;;
    commitAll mpt'.

Definition setRoot (acc : StateAccount) (r : Hash) : StateAccount :=
  mkStateAccount (accNonce acc) (accBalance acc) r (accCodeHash acc).

Fixpoint migrateAccountLoop (nodes : list ZkNode) (mpt : StateTrie)
  : M StateTrie :=
  match nodes with
  | [] => ret mpt
  | it :: rest =>
      if negb (zkLeaf it) then migrateAccountLoop rest mpt
      else
        pre <- readPreimage (zkLeafKey it) ;;
        let address := BytesToAddress pre in
        acc <- liftOption "NewStateAccount"
                 (NewStateAccount L (zkLeafBlob it)) ;;
        r <- migrateStorage address (accRoot acc) ;;
        mpt' <- UpdateAccount mpt address (setRoot acc r) ;;
        migrateAccountLoop rest mpt'
  end.

Definition migrateAccount : M Hash :=
  s <- getStore ;;
  match ReadHeadHeader s with
  | None => panic "nil pointer dereference"
  | Some header =>
      mpt <- NewMPT L (TrieID (EmptyRootHash L)) ;;
      nodes <- OpenZkIterator L (Root header) ;;
      mpt' <- migrateAccountLoop nodes mpt ;;
      commitAll mpt'
  end.

(** *** The transition block *)

(** The header of the Bedrock transition block. *)
Definition bedrockHeaderOf (header : Header) (newRoot : Hash) : Header :=
  {| ParentHash := HeaderHash L header;
     UncleHash := EmptyUncleHash L;
     Coinbase := KromaProtocolVault L;
     Root := newRoot;
     TxHash := EmptyRootHash L;
     ReceiptHash := EmptyRootHash L;
     Bloom := repeat x00 256;
     Difficulty := 0;
     Number := Number header + 1;
     GasLimit := uint64 L2GenesisBlockGasLimit;
     GasUsed := 0;
     Time := uint64 L2OutputOracleStartingTimestamp;
     Extra := BedrockTransitionBlockExtraData;
     MixDigest := zeroHash;
     Nonce := repeat x00 8;
     BaseFee := InitialBaseFee |}.

(** [types.NewBlock(header, nil, nil, nil, hasher)]: the header is copied,
    and with no transactions, receipts and uncles the three hashes are the
    empty ones.  The block is its header; the body is empty. *)
Definition NewBlock (h : Header) : Header :=
  {| ParentHash := ParentHash h;
     UncleHash := EmptyUncleHash L;
     Coinbase := Coinbase h;
     Root := Root h;
     TxHash := EmptyRootHash L;
     ReceiptHash := EmptyRootHash L;
     Bloom := Bloom h;
     Difficulty := Difficulty h;
     Number := Number h;
     GasLimit := GasLimit h;
     GasUsed := GasUsed h;
     Time := Time h;
     Extra := Extra h;
     MixDigest := MixDigest h;
     Nonce := Nonce h;
     BaseFee := BaseFee h |}.

Definition NumberU64 (b : Header) : N := uint64 (Number b).

(** [rawdb.WriteBlock]: the body, then [WriteHeader] (the number of the hash
    and the header itself). *)
Definition WriteBlock (b : Header) : M unit :=
  dbPut (KBody (NumberU64 b) (HeaderHash L b)) VEmptyBody ;;;
  dbPut (KHeaderNumber (HeaderHash L b)) (VNumber (NumberU64 b)) ;;;
  dbPut (KHeader (NumberU64 b) (HeaderHash L b)) (VHeader b).

(** [rawdb.ReadCanonicalHash]. *)
Definition ReadCanonicalHash (s : Store) (n : N) : Hash :=
  match s (KCanonicalHash n) with Some (VHash h) => h | _ => zeroHash end.

(** [rawdb.ReadChainConfig]. *)
Definition ReadChainConfig (s : Store) (h : Hash) : option ChainConfig :=
  match s (KChainConfig h) with Some (VConfig c) => Some c | _ => None end.

(** The rewrite of the chain configuration. *)
Definition rewriteConfig (cfg : ChainConfig) (kroma : ForkParams) (number : N)
  : ChainConfig :=
  {| LondonBlock := Some number;
     ArrowGlacierBlock := Some number;
     GrayGlacierBlock := Some number;
     MergeNetsplitBlock := Some number;
     TerminalTotalDifficulty := Some 0%N;
     TerminalTotalDifficultyPassed := true;
     BedrockBlock := Some number;
     RegolithTime := Some 0%N;
     Optimism := Some (mkForkParams (EIP1559Denominator kroma)
                         (EIP1559Elasticity kroma)
                         (EIP1559DenominatorCanyon kroma));
     Kroma := Kroma cfg |}.

(** [migrateHeadAndGenesis].  The state commit of the source is
    [state.New], then [Commit(0, true)], which merges its node set into the
    trie database, then [TrieDB().Commit]; the [rawdb.Write] functions are
    writes to the store. *)
Definition migrateHeadAndGenesis (stateRoot : Hash) : M MigrationResult :=
  s <- getStore ;;
  let hash := ReadHeadHeaderHash s in
  match ReadHeaderNumber s hash with
  | None => fail "cannot find header number"
  | Some num =>
      let header := ReadHeader s hash num in
      if Nat.ltb 32 (List.length BedrockTransitionBlockExtraData)
      then fail "transition block extradata too long"
      else
        match header with
        | None => panic "nil pointer dereference"
        | Some header =>
            if bytes_eqb (Extra header) BedrockTransitionBlockExtraData
            then ret (mkMigrationResult num (Time header) hash)
            else
              (if stateNew L s stateRoot then ret tt
               else fail "cannot open StateDB") ;;;
              rs <- liftOption "Commit" (stateCommit L s stateRoot) ;;
              let newRoot := fst rs in
              DbUpdate L newRoot (snd rs) ;;;
              let bedrockHeader := bedrockHeaderOf header newRoot in
              let bedrockBlock := NewBlock bedrockHeader in
              let bhash := HeaderHash L bedrockBlock in
              let bnum := NumberU64 bedrockBlock in
              let res := mkMigrationResult bnum (Time bedrockBlock) bhash in
              DbCommit L newRoot ;;;
              dbPut (KTd bnum bhash) (VTd (Difficulty bedrockBlock)) ;;;
              WriteBlock bedrockBlock ;;;
              dbPut (KReceipts bnum bhash) VEmptyReceipts ;;;
              dbPut (KCanonicalHash bnum) (VHash bhash) ;;;
              dbPut KHeadBlockHash (VHash bhash) ;;;
              dbPut KHeadFastBlockHash (VHash bhash) ;;;
              dbPut KHeadHeaderHash (VHash bhash) ;;;
              dbPut KFinalizedBlockHash (VHash bhash) ;;;
              s' <- getStore ;;
              let genesisHash := ReadCanonicalHash s' 0 in
              match ReadChainConfig s' genesisHash with
              | None => panic "chain config not found"
              | Some cfg =>
                  match Kroma cfg with
                  | None => panic "nil pointer dereference"
                  | Some kroma =>
                      dbPut (KChainConfig genesisHash)
                        (VConfig (rewriteConfig cfg kroma
                                    (Number bedrockBlock))) ;;;
                      ret res
                  end
              end
        end
  end.

(** The store after the writes of the transition block [b] and of the
    configuration [cfg] under the genesis hash [g], on top of [s]; used to
    state what [migrateHeadAndGenesis] leaves behind. *)
Definition sealedStore (b : Header) (g : Hash) (cfg : ChainConfig) (s : Store)
  : Store :=
  let h := HeaderHash L b in
  let n := NumberU64 b in
  store_put (KChainConfig g) (VConfig cfg)
    (store_put KFinalizedBlockHash (VHash h)
       (store_put KHeadHeaderHash (VHash h)
          (store_put KHeadFastBlockHash (VHash h)
             (store_put KHeadBlockHash (VHash h)
                (store_put (KCanonicalHash n) (VHash h)
                   (store_put (KReceipts n h) VEmptyReceipts
                      (store_put (KHeader n h) (VHeader b)
                         (store_put (KHeaderNumber h) (VNumber n)
                            (store_put (KBody n h) VEmptyBody
                               (store_put (KTd n h) (VTd (Difficulty b))
                                  s)))))))))).

End Program.
End Sealer.

(** * A small instance of the library

    A stand-in for the packages behind [Lib], small enough to run the
    programs on: hashing is [BytesToHash] of the input, an MPT has one inner
    node above its leaves, and a checkpoint is written as the byte 0x7b,
    the 32 bytes of the hash and eight bytes of the number. *)

Module Toy.

Definition be8 (n : N) : bytes :=
  let d := putint (uint64 n) in repeat x00 (8 - List.length d) ++ d.

Fixpoint number_of_bytes (b : bytes) (acc : N) : N :=
  match b with
  | [] => acc
  | x :: t => number_of_bytes t (256 * acc + Byte.to_N x)
  end.

Definition marshal (r : migrationRoot) : bytes :=
  x7b :: BytesToHash (rootHash r) ++ be8 (rootNumber r).

Definition unmarshal (b : bytes) : option migrationRoot * bool :=
  match b with
  | x7b :: rest =>
      if Nat.eqb (List.length rest) 40
      then (Some (mkMigrationRoot (firstn 32 rest)
                    (number_of_bytes (skipn 32 rest) 0)), false)
      else (None, true)
  | _ => (None, true)
  end.

(** The root of a toy MPT: a hash made of the number of writes. *)
Definition rootOf (t : StateTrie) : Hash :=
  BytesToHash [xaa; byte_of_N (N.of_nat (List.length (mptWrites t)))].

Definition nodeBlob : bytes := [xc0].

Fixpoint flush (sets : list (Hash * NodeSet)) (s : Store) : Store :=
  match sets with
  | [] => s
  | (_, set) :: rest =>
      flush rest
        (fold_left (fun st hb => store_put (KRaw (fst hb)) (VBytes (snd hb)) st)
           set s)
  end.

(** The accounts root of the source chain, its one account and the storage
    root of that account. *)
Definition zkAccountRoot : Hash := BytesToHash [x11].
Definition zkStorageRoot : Hash := BytesToHash [x22].
Definition accountKey : bytes := BytesToHash [xbb].
Definition slotKey : bytes := BytesToHash [x02].
Definition slotValue : bytes := BytesToHash [xbe; xef].

(** The key of the preimage index for a hash. *)
Definition preimageKey (h : Hash) : bytes :=
  bytes_of_string "secure-key-" ++ h.

Definition lib : Lib :=
  {| Keccak256Hash := BytesToHash;
     EmptyRootHash := BytesToHash [x56];
     EmptyZkRootHash := zeroHash;
     EmptyUncleHash := BytesToHash [x1d];
     KromaProtocolVault := BytesToAddress [x42; x06];
     IteratorKeyToHash := BytesToHash;
     zkdbPreimage := fun s h =>
       match s (KRaw (preimageKey h)) with
       | Some (VBytes p) => p
       | _ => []
       end;
     MustNewSecureHash := fun b => Some b;
     zkNodeIterator := fun _ root =>
       if bytes_eqb root zkAccountRoot
       then Some [mkZkNode false [] []; mkZkNode true accountKey [x01]]
       else if bytes_eqb root zkStorageRoot
       then Some [mkZkNode false [] []; mkZkNode true slotKey slotValue]
       else Some [];
     NewStateAccount := fun blob =>
       match blob with
       | [] => None
       | _ => Some (mkStateAccount 0 1000 zkStorageRoot (BytesToHash [xcc]))
       end;
     NewEmptyStateAccount :=
       mkStateAccount 0 0 (BytesToHash [x56]) (BytesToHash [xc5]);
     NewStateTrie := fun _ _ => true;
     GetStoredAccount := fun _ _ _ => Some None;
     (* one inner node, the root, above a leaf position; a leaf position
        carries the zero hash, a value node having no hash of its own *)
     MustNodeIterator := fun _ t =>
       match mptWrites t with
       | [] => []
       | _ => [mkMptNode false (rootOf t); mkMptNode true zeroHash]
       end;
     Commit := fun _ t => Some (rootOf t, [(rootOf t, nodeBlob)]);
     dbUpdate := fun _ _ => true;
     dbCommit := fun s sets _ => Some (flush sets s);
     NewTreeNodeFromBlob := fun b =>
       match b with
       | x04 :: _ => true
       | _ => false
       end;
     HeaderHash := fun hd => BytesToHash (x0a :: be8 (Number hd) ++ Extra hd);
     marshalRoot := marshal;
     unmarshalRoot := unmarshal;
     unmarshalBigResponse := fun b =>
       match b with
       | [] => None
       | x00 :: _ => Some (mkBigResponse None (Some "rpc error"))
       | _ => Some (mkBigResponse (Some (number_of_bytes b 0)) None)
       end;
     unmarshalObject := fun b =>
       match b with
       | [] => None
       | _ =>
           Some [("result",
                  JArray [JObject [("result",
                    JObject [("post",
                      JObject [("0xbbbbbbbbbbbbbbbbbbbbbbbbbbbbbbbbbbbbbbbb",
                        JObject [("nonce", JNumber 5);
                                 ("storage",
                                  JObject [("0x01", JString "0xfeed")])])])])]])]
       end;
     stateNew := fun _ _ => true;
     stateCommit := fun _ root => Some (root, []) |}.

(** The genesis allocation knows the account; the slot is in the preimage
    index of the store. *)
Definition genesisAddresses (h : Hash) : option Address :=
  if bytes_eqb h accountKey then Some (BytesToAddress [xbb]) else None.

Definition genesisSlots (h : Hash) : option bytes :=
  if bytes_eqb h slotKey then Some slotKey else None.

Definition follower : Follower.migrator :=
  Follower.mkMigrator genesisAddresses (fun _ => None).

Definition sealer : Sealer.stateMigrator :=
  Sealer.mkStateMigrator genesisAddresses (fun _ => None).

Definition followerWithSlots : Follower.migrator :=
  Follower.mkMigrator (fun _ => None) genesisSlots.

Definition sealerWithSlots : Sealer.stateMigrator :=
  Sealer.mkStateMigrator (fun _ => None) genesisSlots.

Definition emptyStore : Store := fun _ => None.

(** The head of the source chain: block 7, difficulty 1. *)
Definition headHeader : Header :=
  {| ParentHash := zeroHash;
     UncleHash := BytesToHash [x1d];
     Coinbase := BytesToAddress [];
     Root := zkAccountRoot;
     TxHash := BytesToHash [x56];
     ReceiptHash := BytesToHash [x56];
     Bloom := repeat x00 256;
     Difficulty := 1;
     Number := 7;
     GasLimit := 30000000;
     GasUsed := 0;
     Time := 1700000000;
     Extra := [];
     MixDigest := zeroHash;
     Nonce := repeat x00 8;
     BaseFee := 1 |}.

Definition headHash : Hash := HeaderHash lib headHeader.

Definition genesisHash : Hash := BytesToHash [x99].

Definition kromaConfig : ChainConfig :=
  {| LondonBlock := Some 0%N;
     ArrowGlacierBlock := None;
     GrayGlacierBlock := None;
     MergeNetsplitBlock := None;
     TerminalTotalDifficulty := None;
     TerminalTotalDifficultyPassed := false;
     BedrockBlock := None;
     RegolithTime := None;
     Optimism := None;
     Kroma := Some (mkForkParams 50 6 250) |}.

Definition chainStore : Store :=
  store_put KHeadHeaderHash (VHash headHash)
    (store_put (KHeaderNumber headHash) (VNumber 7)
       (store_put (KHeader 7 headHash) (VHeader headHeader)
          (store_put (KCanonicalHash 0) (VHash genesisHash)
             (store_put (KChainConfig genesisHash) (VConfig kromaConfig)
                (store_put (KRaw (preimageKey slotKey)) (VBytes slotKey)
                   emptyStore))))).

Definition world (s : Store) (exchanges : list Exchange) : World :=
  mkWorld s [] exchanges [].

(** A checkpoint at block 7, and the store of a follower that restarts. *)
Definition checkpoint7 : migrationRoot :=
  mkMigrationRoot (BytesToHash [xaa; x01]) 7.

Definition resumeStore : Store :=
  store_put (KRaw Follower.checkpointKey) (VBytes (marshal checkpoint7))
    chainStore.

(** The same store with a checkpoint value that does not parse. *)
Definition damagedStore : Store :=
  store_put (KRaw Follower.checkpointKey) (VBytes [x01]) chainStore.

(** The largest 64-bit number, as the eight bytes of a block-number
    answer and as a checkpoint. *)
Definition maxUint64 : N := 18446744073709551615.

Definition checkpointMax : migrationRoot :=
  mkMigrationRoot (BytesToHash [xaa; x01]) maxUint64.

(** A store in which the hash of the root node of the one-entry MPT is
    already taken by a zkTrie node. *)
Definition zkNodeBlob : bytes := [x04; x01; x02; x03].

Definition collidingStore : Store :=
  store_put (KRaw (BytesToHash [xaa; x01])) (VBytes zkNodeBlob) chainStore.


(** The account MPT of the small chain before its commit, and a store in
    which the zero hash, the hash of a leaf position, holds a zkTrie
    node. *)
Definition accountTrie : StateTrie :=
  mkStateTrie (TrieID (BytesToHash [x56]))
    [WAccount (BytesToAddress [xbb])
       (mkStateAccount 0 1000 (BytesToHash [xaa; x01]) (BytesToHash [xcc]))].

Definition leafCollidingStore : Store :=
  store_put (KRaw zeroHash) (VBytes zkNodeBlob) chainStore.

(** The walks of the small chain: the positions of its storage zkTrie and
    of its account zkTrie, and the two MPTs before any write. *)
Definition storageNodes : list ZkNode :=
  [mkZkNode false [] []; mkZkNode true slotKey slotValue].

Definition accountNodes : list ZkNode :=
  [mkZkNode false [] []; mkZkNode true accountKey [x01]].

Definition emptyStorageTrie : StateTrie :=
  mkStateTrie (StorageTrieID (BytesToHash [x56])
                 (BytesToHash (BytesToAddress [xbb])) (BytesToHash [x56])) [].

Definition emptyAccountTrie : StateTrie :=
  mkStateTrie (TrieID (BytesToHash [x56])) [].

(** A callback that only records the addresses it is called with, and the
    post-state of the one transaction of the small trace. *)
Definition recordAddress (address : Address) (state : list (string * Json))
  (seen : list Address) : M (list Address) :=
  ret (seen ++ [address]).

Definition tracePost : list (string * Json) :=
  [("0xbbbbbbbbbbbbbbbbbbbbbbbbbbbbbbbbbbbbbbbb",
    JObject [("nonce", JNumber 5);
             ("storage", JObject [("0x01", JString "0xfeed")])])].

(** The small chain without its chain configuration. *)
Definition noConfigStore : Store :=
  fun k =>
    match k with
    | KChainConfig _ => None
    | _ => chainStore k
    end.

End Toy.


(** * Definitions for the further properties *)

(** The test of [checkHashCollision] at one position of a walk, on the store
    [s]: the position is a leaf, the bytes under its hash are not empty and
    [zk.NewTreeNodeFromBlob] decodes them. *)
Definition collides (L : Lib) (s : Store) (n : MptNode) : bool :=
  nodeLeaf n &&
  match s (KRaw (nodeHash n)) with
  | Some (VBytes (b :: data)) => NewTreeNodeFromBlob L (b :: data)
  | _ => false
  end.

(** The write that the follower makes for a leaf of a storage zkTrie whose
    key resolved to [slot], and the one that the sealing program makes. *)
Definition followerStorageWrite (p : bytes * ZkNode) : MptWrite :=
  WStorage (fst p) (encodeToRlp (zkLeafBlob (snd p))).

Definition sealerStorageWrite (p : bytes * ZkNode) : MptWrite :=
  WStorage (fst p) (zkLeafBlob (snd p)).

Definition isAccountWrite (x : MptWrite) : bool :=
  match x with
  | WAccount _ _ => true
  | WStorage _ _ => false
  end.

(** The post-state of one transaction of a block trace, as
    [debug_traceBlockByNumber] reaches it:
    [tx.(map)["result"].(map)["post"].(map)]; [None] when one of the three
    type assertions would panic. *)
Definition txPostState (tx : Json) : option (list (string * Json)) :=
  match tx with
  | JObject t =>
      match Follower.jsonField "result" t with
      | Some (JObject r) =>
          match Follower.jsonField "post" r with
          | Some (JObject p) => Some p
          | _ => None
          end
      | _ => None
      end
  | _ => None
  end.

(** An answer to [eth_blockNumber] that puts the head of the chain below
    the number of the checkpoint [root]. *)
Definition behind (L : Lib) (root : migrationRoot) (x : Exchange) : Prop :=
  exists b head,
    x = Body b
    /\ unmarshalBigResponse L b = Some (mkBigResponse (Some head) None)
    /\ (uint64 head < rootNumber root)%N.

(** The store after the writes of the transition block [b] on top of [s],
    before the chain configuration is looked at. *)
Definition transitionStore (L : Lib) (b : Header) (s : Store) : Store :=
  let h := HeaderHash L b in
  let n := Sealer.NumberU64 b in
  store_put KFinalizedBlockHash (VHash h)
    (store_put KHeadHeaderHash (VHash h)
       (store_put KHeadFastBlockHash (VHash h)
          (store_put KHeadBlockHash (VHash h)
             (store_put (KCanonicalHash n) (VHash h)
                (store_put (KReceipts n h) VEmptyReceipts
                   (store_put (KHeader n h) (VHeader b)
                      (store_put (KHeaderNumber h) (VNumber n)
                         (store_put (KBody n h) VEmptyBody
                            (store_put (KTd n h) (VTd (Difficulty b))
                               s))))))))).

(** ** Progress reports: [status.go]

    Both programs carry the same [status].  The two instants of the struct
    are only passed to [time.Since]; a call of [emitLog] is modelled with
    the duration that [time.Since(s.startAt)] gave it, in nanoseconds.
    [time.Duration] and [int] are 64-bit signed integers. *)
Module Status.

Definition int64 (z : Z) : Z := ((z + 2 ^ 63) mod 2 ^ 64 - 2 ^ 63)%Z.

Definition Second : Z := 1000000000%Z.

Record status := mkStatus {
  lastLogTime : Z;
  count : Z
}.

Definition newStatus : status := mkStatus (30 * Second)%Z 0%Z.

(** [emitLog]: the status afterwards, and whether a line was printed. *)
Definition emitLog (force : bool) (runtime : Z) (s : status) : status * bool :=
  let c := int64 (count s + 1) in
  if (lastLogTime s <? runtime)%Z || force
  then (mkStatus (int64 (lastLogTime s + 30 * Second)) c, true)
  else (mkStatus (lastLogTime s) c, false).

(** The calls [emitLog(false, ...)] of a loop, one for each duration of the
    list; the number of lines printed is counted. *)
Fixpoint emitLogs (runtimes : list Z) (s : status) : status * nat :=
  match runtimes with
  | [] => (s, O)
  | runtime :: rest =>
      let (s1, printed) := emitLog false runtime s in
      let (s2, n) := emitLogs rest s1 in
      (s2, if printed then S n else n)
  end.

End Status.


(** * Properties *)

(** ** Bytes and keys *)

Lemma byte_eqb_refl (a : byte) : byte_eqb a a = true.
Proof. unfold byte_eqb. apply N.eqb_refl. Qed.

Lemma byte_eqb_eq (a b : byte) : byte_eqb a b = true <-> a = b.
Proof.
  unfold byte_eqb. rewrite N.eqb_eq. split.
  - intros H.
    assert (E : Byte.of_N (Byte.to_N a) = Byte.of_N (Byte.to_N b))
      by (now rewrite H).
    rewrite !Byte.of_to_N in E. now inversion E.
  - now intros ->.
Qed.

Lemma bytes_eqb_refl (a : bytes) : bytes_eqb a a = true.
Proof.
  induction a as [|x a IH]; simpl; [reflexivity|].
  now rewrite byte_eqb_refl, IH.
Qed.

Lemma bytes_eqb_eq (a b : bytes) : bytes_eqb a b = true <-> a = b.
Proof.
  split.
  - revert b. induction a as [|x a IH]; intros [|y b]; simpl; try discriminate.
    + reflexivity.
    + intros H. apply andb_true_iff in H as [H1 H2].
      apply byte_eqb_eq in H1. apply IH in H2. now subst.
  - intros ->. apply bytes_eqb_refl.
Qed.

Lemma key_eqb_refl (k : Key) : key_eqb k k = true.
Proof.
  destruct k; simpl; rewrite ?N.eqb_refl, ?bytes_eqb_refl; reflexivity.
Qed.

Lemma store_put_same (k : Key) (v : Value) (s : Store) :
  store_put k v s k = Some v.
Proof. unfold store_put. now rewrite key_eqb_refl. Qed.

(** ** [encodeToRlp] *)

Lemma SetBytes_length (width : nat) (b : bytes) :
  List.length (SetBytes width b) = width.
Proof.
  unfold SetBytes. destruct (Nat.ltb width (List.length b)) eqn:E.
  - apply Nat.ltb_lt in E.
    rewrite length_app, repeat_length, length_skipn. lia.
  - apply Nat.ltb_ge in E. rewrite length_app, repeat_length. lia.
Qed.

Lemma BytesToHash_last32 (b : bytes) :
  BytesToHash b = repeat x00 (32 - List.length b) ++ last32 b.
Proof.
  unfold BytesToHash, SetBytes, last32, HashLength.
  destruct (Nat.ltb 32 (List.length b)) eqn:E.
  - apply Nat.ltb_lt in E. rewrite length_skipn.
    replace (32 - (List.length b - (List.length b - 32))) with 0 by lia.
    replace (32 - List.length b) with 0 by lia. reflexivity.
  - apply Nat.ltb_ge in E.
    replace (List.length b - 32) with 0 by lia. reflexivity.
Qed.

Lemma last32_length (b : bytes) : List.length (last32 b) <= 32.
Proof. unfold last32, HashLength. rewrite length_skipn. lia. Qed.

Lemma last32_short (b : bytes) : List.length b <= 32 -> last32 b = b.
Proof.
  intros H. unfold last32, HashLength.
  replace (List.length b - 32) with 0 by lia. reflexivity.
Qed.

Lemma last32_idem (b : bytes) : last32 (last32 b) = last32 b.
Proof. apply last32_short, last32_length. Qed.

Lemma TrimLeftZeroes_zeroes (n : nat) (b : bytes) :
  TrimLeftZeroes (repeat x00 n ++ b) = TrimLeftZeroes b.
Proof. induction n as [|n IH]; simpl; [reflexivity | exact IH]. Qed.

Lemma encodeToRlp_trim (b : bytes) :
  encodeToRlp b = EncodeToBytes (TrimLeftZeroes (last32 b)).
Proof.
  unfold encodeToRlp. now rewrite BytesToHash_last32, TrimLeftZeroes_zeroes.
Qed.

(** On a value of at most 32 bytes, such as the leaf of a storage zkTrie,
    [encodeToRlp] is the RLP encoding of the value without its leading
    zero bytes. *)
Lemma encodeToRlp_word (b : bytes) :
  List.length b <= 32 -> encodeToRlp b = EncodeToBytes (TrimLeftZeroes b).
Proof. intros H. now rewrite encodeToRlp_trim, last32_short. Qed.

(** C10. [encodeToRlp b] first makes [b] a 32-byte word: zero bytes are put
    in front of a shorter input and only the last 32 bytes of a longer one
    are kept; the word is then stripped of its leading zeros and
    RLP-encoded.  Hence two inputs with the same last 32 bytes have the
    same encoding. *)
Theorem encodeToRlp_normalizes (b b' : bytes) :
  List.length (BytesToHash b) = 32
  /\ BytesToHash b = repeat x00 (32 - List.length b) ++ last32 b
  /\ encodeToRlp b = EncodeToBytes (TrimLeftZeroes (BytesToHash b))
  /\ (last32 b = last32 b' -> encodeToRlp b = encodeToRlp b').
Proof.
  split; [apply SetBytes_length|].
  split; [apply BytesToHash_last32|].
  split; [reflexivity|].
  intros H. now rewrite !encodeToRlp_trim, H.
Qed.

Lemma encodeToRlp_normalizes_witness :
  last32 (x07 :: repeat x00 30 ++ [xbe; xef])
  = last32 (x09 :: x08 :: repeat x00 30 ++ [xbe; xef])
  /\ encodeToRlp (x07 :: repeat x00 30 ++ [xbe; xef])
     = encodeToRlp (x09 :: x08 :: repeat x00 30 ++ [xbe; xef]).
Proof.
  split; [reflexivity|].
  apply (encodeToRlp_normalizes (x07 :: repeat x00 30 ++ [xbe; xef])
           (x09 :: x08 :: repeat x00 30 ++ [xbe; xef])).
  reflexivity.
Defined.

(** ** The effect monad *)

Lemma bind_ok {A B} (m : M A) (f : A -> M B) (w w1 : World) (a : A) :
  m w = (Ok a, w1) -> bind m f w = f a w1.
Proof. intros H. unfold bind. now rewrite H. Qed.

Lemma bind_panic {A B} (m : M A) (f : A -> M B) (w w1 : World) (p : string) :
  m w = (Panic p, w1) -> bind m f w = (Panic p, w1).
Proof. intros H. unfold bind. now rewrite H. Qed.

Lemma bind_inv {A B} (m : M A) (f : A -> M B) (w w' : World) (b : B) :
  bind m f w = (Ok b, w') ->
  exists a w1, m w = (Ok a, w1) /\ f a w1 = (Ok b, w').
Proof.
  unfold bind. destruct (m w) as [[a|e|p] w1]; intros H; try discriminate.
  now exists a, w1.
Qed.

Lemma must1_inv {A} (m : M A) (w w' : World) (a : A) :
  must1 m w = (Ok a, w') -> m w = (Ok a, w').
Proof.
  unfold must1. destruct (m w) as [[x|e|p] w1]; intros H;
    try discriminate; exact H.
Qed.

Lemma must1_ok {A} (m : M A) (w w' : World) (a : A) :
  m w = (Ok a, w') -> must1 m w = (Ok a, w').
Proof. intros H. unfold must1. now rewrite H. Qed.

(** A run is its result and the world it leaves. *)
Lemma run_eq {A} (r : Res A * World) (a : Res A) :
  fst r = a -> r = (a, snd r).
Proof. intros <-. now destruct r. Qed.

(** ** The empty storage root *)

(** C9. For every address, [migrateStorage] on the empty zkTrie root returns
    the empty MPT root at once, in both programs: the world is left as it
    was, so no iterator is opened and nothing is committed. *)
Theorem migrateStorage_empty_root (L : Lib) (fm : Follower.migrator)
  (sm : Sealer.stateMigrator) (addr : Address) (w : World) :
  Follower.migrateStorage L fm addr (EmptyZkRootHash L) w
  = (Ok (EmptyRootHash L), w)
  /\ Sealer.migrateStorage L sm addr (EmptyZkRootHash L) w
     = (Ok (EmptyRootHash L), w).
Proof.
  unfold Follower.migrateStorage, Sealer.migrateStorage.
  rewrite bytes_eqb_refl. split; reflexivity.
Qed.

(** ** The preimage oracle *)

Section Preimage.
Context (L : Lib).

Lemma follower_readPreimage_index (m : Follower.migrator) (key : bytes)
  (w : World) :
  Follower.genesisAccount m (IteratorKeyToHash L key) = None ->
  Follower.genesisStorage m (IteratorKeyToHash L key) = None ->
  let p := zkdbPreimage L (store w) (IteratorKeyToHash L key) in
  (verified L (IteratorKeyToHash L key) p /\
   Follower.readPreimage L m key w = (Ok p, w))
  \/ (~ verified L (IteratorKeyToHash L key) p /\
      exists r, Follower.readPreimage L m key w = (r, w) /\
                forall b, r <> Ok b).
Proof.
  intros Ha Hs p. unfold Follower.readPreimage. rewrite Ha, Hs.
  unfold bind, getStore. fold p.
  destruct (MustNewSecureHash L p) as [h|] eqn:Eh.
  - destruct (bytes_eqb (BytesToHash h) (IteratorKeyToHash L key)) eqn:E.
    + left. split; [|reflexivity]. exists h. split; [exact Eh|].
      now apply bytes_eqb_eq.
    + right. split.
      * intros [h' [H1 H2]]. rewrite Eh in H1. inversion H1; subst h'.
        apply bytes_eqb_eq in H2. congruence.
      * eexists. split; [reflexivity|]. intros b; discriminate.
  - right. split.
    + intros [h' [H1 _]]. congruence.
    + eexists. split; [reflexivity|]. intros b; discriminate.
Qed.

Lemma sealer_readPreimage_index (m : Sealer.stateMigrator) (key : bytes)
  (w : World) :
  Sealer.genesisAccount m (IteratorKeyToHash L key) = None ->
  Sealer.genesisStorage m (IteratorKeyToHash L key) = None ->
  let p := zkdbPreimage L (store w) (IteratorKeyToHash L key) in
  (verified L (IteratorKeyToHash L key) p /\
   Sealer.readPreimage L m key w = (Ok p, w))
  \/ (~ verified L (IteratorKeyToHash L key) p /\
      exists msg, Sealer.readPreimage L m key w = (Panic msg, w)).
Proof.
  intros Ha Hs p. unfold Sealer.readPreimage. rewrite Ha, Hs.
  unfold bind, getStore. fold p.
  destruct (MustNewSecureHash L p) as [h|] eqn:Eh.
  - destruct (bytes_eqb (BytesToHash h) (IteratorKeyToHash L key)) eqn:E.
    + left. split; [|reflexivity]. exists h. split; [exact Eh|].
      now apply bytes_eqb_eq.
    + right. split.
      * intros [h' [H1 H2]]. rewrite Eh in H1. inversion H1; subst h'.
        apply bytes_eqb_eq in H2. congruence.
      * eexists. reflexivity.
  - right. split.
    + intros [h' [H1 _]]. congruence.
    + eexists. reflexivity.
Qed.

End Preimage.

(** C2. [readPreimage] looks in the genesis address map, then in the genesis
    storage map, then in the preimage index of the trie database.  Bytes
    from the index are returned exactly when their zkTrie secure hash is the
    key hash; when it is another hash the follower returns the error for a
    missing preimage and the sealing program panics with that message, and
    no run returns bytes that were not verified. *)
Theorem readPreimage_sources (L : Lib) (fm : Follower.migrator)
  (sm : Sealer.stateMigrator) (key : bytes) (w : World) :
  let keyHash := IteratorKeyToHash L key in
  let p := zkdbPreimage L (store w) keyHash in
  ((forall a, Follower.genesisAccount fm keyHash = Some a ->
      Follower.readPreimage L fm key w = (Ok a, w))
   /\ (forall s, Follower.genesisAccount fm keyHash = None ->
         Follower.genesisStorage fm keyHash = Some s ->
         Follower.readPreimage L fm key w = (Ok s, w))
   /\ (Follower.genesisAccount fm keyHash = None ->
       Follower.genesisStorage fm keyHash = None ->
       verified L keyHash p ->
       Follower.readPreimage L fm key w = (Ok p, w))
   /\ (Follower.genesisAccount fm keyHash = None ->
       Follower.genesisStorage fm keyHash = None ->
       ~ verified L keyHash p ->
       exists r, Follower.readPreimage L fm key w = (r, w) /\
                 forall b, r <> Ok b)
   /\ (forall h, Follower.genesisAccount fm keyHash = None ->
         Follower.genesisStorage fm keyHash = None ->
         MustNewSecureHash L p = Some h -> BytesToHash h <> keyHash ->
         Follower.readPreimage L fm key w
         = (Err "preimage does not exist", w)))
  /\
  ((forall a, Sealer.genesisAccount sm keyHash = Some a ->
      Sealer.readPreimage L sm key w = (Ok a, w))
   /\ (forall s, Sealer.genesisAccount sm keyHash = None ->
         Sealer.genesisStorage sm keyHash = Some s ->
         Sealer.readPreimage L sm key w = (Ok s, w))
   /\ (Sealer.genesisAccount sm keyHash = None ->
       Sealer.genesisStorage sm keyHash = None ->
       verified L keyHash p ->
       Sealer.readPreimage L sm key w = (Ok p, w))
   /\ (Sealer.genesisAccount sm keyHash = None ->
       Sealer.genesisStorage sm keyHash = None ->
       ~ verified L keyHash p ->
       exists msg, Sealer.readPreimage L sm key w = (Panic msg, w))
   /\ (forall h, Sealer.genesisAccount sm keyHash = None ->
         Sealer.genesisStorage sm keyHash = None ->
         MustNewSecureHash L p = Some h -> BytesToHash h <> keyHash ->
         Sealer.readPreimage L sm key w
         = (Panic "preimage does not exist.", w))).
Proof.
  intros keyHash p. split.
  - split; [|split; [|split; [|split]]].
    + intros a Ha. unfold Follower.readPreimage. fold keyHash. now rewrite Ha.
    + intros s Ha Hs. unfold Follower.readPreimage. fold keyHash.
      now rewrite Ha, Hs.
    + intros Ha Hs Hv.
      destruct (follower_readPreimage_index L fm key w Ha Hs)
        as [[_ H] | [Hn _]]; [exact H | contradiction].
    + intros Ha Hs Hv.
      destruct (follower_readPreimage_index L fm key w Ha Hs)
        as [[H _] | [_ H]]; [contradiction | exact H].
    + intros h Ha Hs Hh Hne. unfold Follower.readPreimage. fold keyHash.
      rewrite Ha, Hs. unfold bind, getStore. fold p. rewrite Hh.
      destruct (bytes_eqb (BytesToHash h) keyHash) eqn:E; [|reflexivity].
      apply bytes_eqb_eq in E. contradiction.
  - split; [|split; [|split; [|split]]].
    + intros a Ha. unfold Sealer.readPreimage. fold keyHash. now rewrite Ha.
    + intros s Ha Hs. unfold Sealer.readPreimage. fold keyHash.
      now rewrite Ha, Hs.
    + intros Ha Hs Hv.
      destruct (sealer_readPreimage_index L sm key w Ha Hs)
        as [[_ H] | [Hn _]]; [exact H | contradiction].
    + intros Ha Hs Hv.
      destruct (sealer_readPreimage_index L sm key w Ha Hs)
        as [[H _] | [_ H]]; [contradiction | exact H].
    + intros h Ha Hs Hh Hne. unfold Sealer.readPreimage. fold keyHash.
      rewrite Ha, Hs. unfold bind, getStore. fold p. rewrite Hh.
      destruct (bytes_eqb (BytesToHash h) keyHash) eqn:E; [|reflexivity].
      apply bytes_eqb_eq in E. contradiction.
Qed.

(** The three sources at work on the small instance: the account key is
    answered by the address map, the slot key by the storage map or, for a
    migrator without that map, by the index of the store, whose entry
    passes the verification; a key that only the index could answer, and
    does not, is missing. *)
Lemma readPreimage_sources_witness :
  let w := Toy.world Toy.chainStore [] in
  Follower.readPreimage Toy.lib Toy.follower Toy.accountKey w
  = (Ok (BytesToAddress [xbb]), w)
  /\ Follower.readPreimage Toy.lib Toy.followerWithSlots Toy.slotKey w
     = (Ok Toy.slotKey, w)
  /\ Follower.readPreimage Toy.lib Toy.follower Toy.slotKey w
     = (Ok Toy.slotKey, w)
  /\ Follower.readPreimage Toy.lib Toy.follower (BytesToHash [x03]) w
     = (Err "preimage does not exist", w)
  /\ Sealer.readPreimage Toy.lib Toy.sealerWithSlots Toy.slotKey w
     = (Ok Toy.slotKey, w)
  /\ Sealer.readPreimage Toy.lib Toy.sealer (BytesToHash [x03]) w
     = (Panic "preimage does not exist.", w).
Proof.
  intros w.
  pose proof (readPreimage_sources Toy.lib Toy.follower Toy.sealer
                Toy.accountKey w) as Haccount.
  pose proof (readPreimage_sources Toy.lib Toy.followerWithSlots
                Toy.sealerWithSlots Toy.slotKey w) as Hslot.
  pose proof (readPreimage_sources Toy.lib Toy.follower Toy.sealer
                Toy.slotKey w) as Hindex.
  pose proof (readPreimage_sources Toy.lib Toy.follower Toy.sealer
                (BytesToHash [x03]) w) as Hmissing.
  cbv zeta in Haccount, Hslot, Hindex, Hmissing.
  split; [|split; [|split; [|split; [|split]]]].
  - apply (proj1 (proj1 Haccount)). reflexivity.
  - apply (proj1 (proj2 (proj1 Hslot))); reflexivity.
  - apply (proj1 (proj2 (proj2 (proj1 Hindex)))).
    + reflexivity.
    + reflexivity.
    + exists Toy.slotKey. split; reflexivity.
  - apply (proj2 (proj2 (proj2 (proj2 (proj1 Hmissing))))) with (h := []).
    + reflexivity.
    + reflexivity.
    + reflexivity.
    + discriminate.
  - apply (proj1 (proj2 (proj2 Hslot))); reflexivity.
  - apply (proj2 (proj2 (proj2 (proj2 (proj2 Hmissing))))) with (h := []).
    + reflexivity.
    + reflexivity.
    + reflexivity.
    + discriminate.
Defined.

(** ** The transition block *)

Lemma dbPut_run (k : Key) (v : Value) (w : World) :
  dbPut k v w
  = (Ok tt, mkWorld (store_put k v (store w)) (merged w) (net w)
              (log w ++ [EvDbPut k v])).
Proof. reflexivity. Qed.

Lemma bind_dbPut {B} (k : Key) (v : Value) (f : unit -> M B) (w : World) :
  bind (dbPut k v) f w
  = f tt (mkWorld (store_put k v (store w)) (merged w) (net w)
            (log w ++ [EvDbPut k v])).
Proof. reflexivity. Qed.

(** One write of a sequence, with the world kept in normal form. *)
Ltac put_step := rewrite bind_dbPut; cbn [store merged net log].

Section Seal.
Context (L : Lib).

(** A run on a head that does not carry the sentinel: the result and the
    store it leaves. *)
Lemma seal_fresh (stateRoot : Hash) (w w' : World)
  (res : Sealer.MigrationResult) (num : N) (header : Header) :
  ReadHeaderNumber (store w) (ReadHeadHeaderHash (store w)) = Some num ->
  ReadHeader (store w) (ReadHeadHeaderHash (store w)) num = Some header ->
  bytes_eqb (Extra header) Sealer.BedrockTransitionBlockExtraData = false ->
  Sealer.migrateHeadAndGenesis L stateRoot w = (Ok res, w') ->
  exists newRoot g cfg s,
    let b := Sealer.NewBlock L (Sealer.bedrockHeaderOf L header newRoot) in
    res = Sealer.mkMigrationResult (Sealer.NumberU64 b) (Time b)
            (HeaderHash L b)
    /\ store w' = Sealer.sealedStore L b g cfg s.
Proof.
  intros Hn Hh Hx. unfold Sealer.migrateHeadAndGenesis.
  unfold bind at 1. unfold getStore at 1. rewrite Hn, Hh.
  change (Nat.ltb 32 (List.length Sealer.BedrockTransitionBlockExtraData))
    with false.
  cbv iota. rewrite Hx.
  unfold bind at 1.
  destruct (stateNew L (store w) stateRoot); [|discriminate].
  unfold ret at 1. unfold bind at 1.
  destruct (stateCommit L (store w) stateRoot) as [[newRoot set]|];
    [|discriminate].
  simpl liftOption. unfold ret at 1. simpl fst. simpl snd.
  unfold bind at 1. unfold DbUpdate.
  destruct (dbUpdate L newRoot set); [|discriminate].
  unfold bind at 1. unfold emit at 1.
  remember (Sealer.NewBlock L (Sealer.bedrockHeaderOf L header newRoot))
    as b eqn:Hb.
  unfold bind at 1. unfold DbCommit at 1. cbn [store merged net log].
  destruct (dbCommit L (store w) (merged w ++ [(newRoot, set)]) newRoot)
    as [s0|]; [|discriminate].
  put_step. unfold Sealer.WriteBlock.
  unfold bind at 1. unfold bind at 1. rewrite dbPut_run.
  cbn [store merged net log]. put_step.
  rewrite dbPut_run. cbn [store merged net log]. do 6 put_step.
  unfold bind at 1. unfold getStore at 1. cbn [store merged net log].
  match goal with
  | |- context [Sealer.ReadChainConfig ?s ?g] =>
      set (g0 := g); destruct (Sealer.ReadChainConfig s g0) as [cfg|];
        [|discriminate]
  end.
  destruct (Kroma cfg) as [kroma|]; [|discriminate].
  put_step. unfold ret.
  intros H. inversion H; subst res w'. subst b.
  exists newRoot, g0,
    (Sealer.rewriteConfig cfg kroma
       (Number (Sealer.NewBlock L (Sealer.bedrockHeaderOf L header newRoot)))),
    s0.
  split; reflexivity.
Qed.

(** A run on a head that carries the sentinel. *)
Lemma seal_sentinel (stateRoot : Hash) (w : World) (num : N)
  (header : Header) :
  ReadHeaderNumber (store w) (ReadHeadHeaderHash (store w)) = Some num ->
  ReadHeader (store w) (ReadHeadHeaderHash (store w)) num = Some header ->
  Extra header = Sealer.BedrockTransitionBlockExtraData ->
  Sealer.migrateHeadAndGenesis L stateRoot w
  = (Ok (Sealer.mkMigrationResult num (Time header)
           (ReadHeadHeaderHash (store w))), w).
Proof.
  intros Hn Hh Hx. unfold Sealer.migrateHeadAndGenesis.
  unfold bind, getStore. rewrite Hn, Hh, Hx. reflexivity.
Qed.

Lemma seal_no_number (stateRoot : Hash) (w : World) :
  ReadHeaderNumber (store w) (ReadHeadHeaderHash (store w)) = None ->
  Sealer.migrateHeadAndGenesis L stateRoot w
  = (Err "cannot find header number", w).
Proof.
  intros Hn. unfold Sealer.migrateHeadAndGenesis.
  unfold bind, getStore. rewrite Hn. reflexivity.
Qed.

Lemma seal_no_header (stateRoot : Hash) (w : World) (num : N) :
  ReadHeaderNumber (store w) (ReadHeadHeaderHash (store w)) = Some num ->
  ReadHeader (store w) (ReadHeadHeaderHash (store w)) num = None ->
  Sealer.migrateHeadAndGenesis L stateRoot w
  = (Panic "nil pointer dereference", w).
Proof.
  intros Hn Hh. unfold Sealer.migrateHeadAndGenesis.
  unfold bind, getStore. rewrite Hn, Hh. reflexivity.
Qed.

(** What the three reads of the head find in a sealed store. *)
Lemma sealed_head (b : Header) (g : Hash) (cfg : ChainConfig) (s : Store) :
  let s' := Sealer.sealedStore L b g cfg s in
  ReadHeadHeaderHash s' = HeaderHash L b
  /\ ReadHeaderNumber s' (HeaderHash L b) = Some (Sealer.NumberU64 b)
  /\ ReadHeader s' (HeaderHash L b) (Sealer.NumberU64 b) = Some b.
Proof.
  unfold Sealer.sealedStore, ReadHeadHeaderHash, ReadHeaderNumber, ReadHeader,
    store_put.
  cbn [key_eqb]. rewrite !N.eqb_refl, !bytes_eqb_refl. cbn [andb].
  repeat split.
Qed.

Lemma sealed_total_difficulty (b : Header) (g : Hash) (cfg : ChainConfig)
  (s : Store) :
  Sealer.sealedStore L b g cfg s (KTd (Sealer.NumberU64 b) (HeaderHash L b))
  = Some (VTd (Difficulty b)).
Proof.
  unfold Sealer.sealedStore, store_put. cbn [key_eqb].
  now rewrite N.eqb_refl, bytes_eqb_refl.
Qed.

End Seal.

(** C4. Sealing is idempotent.  On a head whose extra-data is the sentinel
    ["BEDROCK"], [migrateHeadAndGenesis] returns the number, time and hash of
    the head and leaves the world as it was; and after any run that returned
    a result, a second run on the database it left returns the same result
    and changes nothing. *)
Theorem seal_idempotent (L : Lib) (stateRoot stateRoot' : Hash) (w : World) :
  (forall num header,
     ReadHeaderNumber (store w) (ReadHeadHeaderHash (store w)) = Some num ->
     ReadHeader (store w) (ReadHeadHeaderHash (store w)) num = Some header ->
     Extra header = Sealer.BedrockTransitionBlockExtraData ->
     Sealer.migrateHeadAndGenesis L stateRoot w
     = (Ok (Sealer.mkMigrationResult num (Time header)
              (ReadHeadHeaderHash (store w))), w))
  /\ (forall res w',
        Sealer.migrateHeadAndGenesis L stateRoot w = (Ok res, w') ->
        Sealer.migrateHeadAndGenesis L stateRoot' w' = (Ok res, w')).
Proof.
  split.
  - intros num header. apply seal_sentinel.
  - intros res w' H.
    destruct (ReadHeaderNumber (store w) (ReadHeadHeaderHash (store w)))
      as [num|] eqn:Hn.
    2:{ rewrite (seal_no_number L stateRoot w Hn) in H. discriminate. }
    destruct (ReadHeader (store w) (ReadHeadHeaderHash (store w)) num)
      as [header|] eqn:Hh.
    2:{ rewrite (seal_no_header L stateRoot w num Hn Hh) in H.
        discriminate. }
    destruct (bytes_eqb (Extra header) Sealer.BedrockTransitionBlockExtraData)
      eqn:Hx.
    + apply bytes_eqb_eq in Hx.
      rewrite (seal_sentinel L stateRoot w num header Hn Hh Hx) in H.
      inversion H; subst. now apply seal_sentinel.
    + destruct (seal_fresh L stateRoot w w' res num header Hn Hh Hx H)
        as (newRoot & g & cfg & s & Hres & Hs).
      cbv zeta in Hres, Hs.
      assert (Hb : Extra (Sealer.NewBlock L
                            (Sealer.bedrockHeaderOf L header newRoot))
                   = Sealer.BedrockTransitionBlockExtraData) by reflexivity.
      revert Hres Hs Hb.
      generalize (Sealer.NewBlock L (Sealer.bedrockHeaderOf L header newRoot)).
      intros b Hres Hs Hb.
      destruct (sealed_head L b g cfg s) as (H1 & H2 & H3).
      rewrite <- Hs in H1, H2, H3.
      rewrite <- H1 in H2, H3.
      rewrite (seal_sentinel L stateRoot' w' _ b H2 H3 Hb).
      now rewrite H1, Hres.
Qed.

(** The first run on the small chain seals block 8; the second run, asked
    for another state root, finds the sentinel and returns the same. *)
Lemma seal_idempotent_witness :
  let w := Toy.world Toy.chainStore [] in
  let w' := snd (Sealer.migrateHeadAndGenesis Toy.lib zeroHash w) in
  let b := Sealer.NewBlock Toy.lib
             (Sealer.bedrockHeaderOf Toy.lib Toy.headHeader zeroHash) in
  let res := Sealer.mkMigrationResult 8 0 (HeaderHash Toy.lib b) in
  Sealer.migrateHeadAndGenesis Toy.lib zeroHash w = (Ok res, w')
  /\ Sealer.migrateHeadAndGenesis Toy.lib Toy.zkAccountRoot w' = (Ok res, w')
  /\ Sealer.migrateHeadAndGenesis Toy.lib zeroHash w'
     = (Ok (Sealer.mkMigrationResult 8 (Time b)
              (ReadHeadHeaderHash (store w'))), w').
Proof.
  intros w w' b res.
  assert (H : Sealer.migrateHeadAndGenesis Toy.lib zeroHash w = (Ok res, w')).
  { apply (run_eq (Sealer.migrateHeadAndGenesis Toy.lib zeroHash w) (Ok res)).
    vm_compute. reflexivity. }
  split; [exact H|]. split.
  - exact (proj2 (seal_idempotent Toy.lib zeroHash Toy.zkAccountRoot w)
             res w' H).
  - apply (proj1 (seal_idempotent Toy.lib zeroHash zeroHash w') 8%N b).
    + vm_compute. reflexivity.
    + vm_compute. reflexivity.
    + vm_compute. reflexivity.
Defined.

(** C6, as the code has it.  A run that seals a new block on top of the
    head [header] persists the transition block [T], whose parent is the
    head and whose difficulty is zero, and persists as total difficulty at
    the hash and number of [T] the difficulty of [T] itself: zero, whatever
    the difficulty of the head was. *)
Theorem seal_total_difficulty (L : Lib) (stateRoot : Hash) (w w' : World)
  (res : Sealer.MigrationResult) (num : N) (header : Header) :
  ReadHeaderNumber (store w) (ReadHeadHeaderHash (store w)) = Some num ->
  ReadHeader (store w) (ReadHeadHeaderHash (store w)) num = Some header ->
  Extra header <> Sealer.BedrockTransitionBlockExtraData ->
  Sealer.migrateHeadAndGenesis L stateRoot w = (Ok res, w') ->
  exists T,
    ReadHeader (store w') (Sealer.TransitionBlockHash res)
      (Sealer.TransitionHeight res) = Some T
    /\ ParentHash T = HeaderHash L header
    /\ Difficulty T = 0%N
    /\ store w' (KTd (Sealer.TransitionHeight res)
                   (Sealer.TransitionBlockHash res))
       = Some (VTd (Difficulty T)).
Proof.
  intros Hn Hh Hx H.
  assert (Hx' : bytes_eqb (Extra header) Sealer.BedrockTransitionBlockExtraData
                = false).
  { destruct (bytes_eqb (Extra header) Sealer.BedrockTransitionBlockExtraData)
      eqn:E; [|reflexivity].
    apply bytes_eqb_eq in E. contradiction. }
  destruct (seal_fresh L stateRoot w w' res num header Hn Hh Hx' H)
    as (newRoot & g & cfg & s & Hres & Hs).
  cbv zeta in Hres, Hs.
  exists (Sealer.NewBlock L (Sealer.bedrockHeaderOf L header newRoot)).
  rewrite Hs, Hres.
  cbn [Sealer.TransitionHeight Sealer.TransitionBlockHash].
  split; [apply sealed_head|].
  split; [reflexivity|]. split; [reflexivity|].
  apply sealed_total_difficulty.
Qed.

Lemma seal_total_difficulty_witness :
  let w := Toy.world Toy.chainStore [] in
  let r := Sealer.migrateHeadAndGenesis Toy.lib zeroHash w in
  let b := Sealer.NewBlock Toy.lib
             (Sealer.bedrockHeaderOf Toy.lib Toy.headHeader zeroHash) in
  exists T,
    ReadHeader (store (snd r)) (HeaderHash Toy.lib b) 8 = Some T
    /\ ParentHash T = Toy.headHash
    /\ Difficulty T = 0%N
    /\ store (snd r) (KTd 8 (HeaderHash Toy.lib b)) = Some (VTd (Difficulty T)).
Proof.
  intros w r b.
  apply (seal_total_difficulty Toy.lib zeroHash w (snd r)
           (Sealer.mkMigrationResult 8 0 (HeaderHash Toy.lib b))
           7%N Toy.headHeader).
  - vm_compute. reflexivity.
  - vm_compute. reflexivity.
  - discriminate.
  - apply (run_eq r). vm_compute. reflexivity.
Defined.

(** C6 as stated fails: the head of the small chain has difficulty 1, and
    the total difficulty persisted for the transition block is 0. *)
Lemma seal_total_difficulty_not_carried :
  let r := Sealer.migrateHeadAndGenesis Toy.lib zeroHash
             (Toy.world Toy.chainStore []) in
  let b := Sealer.NewBlock Toy.lib
             (Sealer.bedrockHeaderOf Toy.lib Toy.headHeader zeroHash) in
  fst r = Ok (Sealer.mkMigrationResult 8 0 (HeaderHash Toy.lib b))
  /\ ReadHeadHeader Toy.chainStore = Some Toy.headHeader
  /\ Difficulty Toy.headHeader = 1%N
  /\ store (snd r) (KTd 8 (HeaderHash Toy.lib b)) = Some (VTd 0)
  /\ store (snd r) (KTd 8 (HeaderHash Toy.lib b))
     <> Some (VTd (Difficulty Toy.headHeader)).
Proof.
  intros r b.
  split; [vm_compute; reflexivity|].
  split; [vm_compute; reflexivity|].
  split; [reflexivity|].
  split; [vm_compute; reflexivity|].
  vm_compute. discriminate.
Qed.

(** ** Runs without writes to the store *)

Lemma quiet_ret {A} (a : A) : quiet (ret a).
Proof.
  intros w r w' H. inversion H; subst. exists []. now rewrite app_nil_r.
Qed.

Lemma quiet_panic {A} (msg : string) : quiet (@panic A msg).
Proof.
  intros w r w' H. inversion H; subst. exists []. now rewrite app_nil_r.
Qed.

Lemma quiet_fail {A} (msg : string) : quiet (@fail A msg).
Proof.
  intros w r w' H. inversion H; subst. exists []. now rewrite app_nil_r.
Qed.

Lemma quiet_getStore : quiet getStore.
Proof.
  intros w r w' H. inversion H; subst. exists []. now rewrite app_nil_r.
Qed.

Lemma quiet_emit (e : Event) : isPut e = false -> quiet (emit e).
Proof.
  intros He w r w' H. inversion H; subst. exists [e]. split; [reflexivity|].
  now constructor.
Qed.

Lemma quiet_bind {A B} (m : M A) (f : A -> M B) :
  quiet m -> (forall a, quiet (f a)) -> quiet (bind m f).
Proof.
  intros Hm Hf w r w' H. unfold bind in H.
  destruct (m w) as [[a|e|p] w1] eqn:E.
  - destruct (Hm _ _ _ E) as (e1 & L1 & F1).
    destruct (Hf a _ _ _ H) as (e2 & L2 & F2).
    exists (e1 ++ e2). split.
    + now rewrite L2, L1, app_assoc.
    + now apply Forall_app.
  - inversion H; subst. exact (Hm _ _ _ E).
  - inversion H; subst. exact (Hm _ _ _ E).
Qed.

Lemma quiet_must1 {A} (m : M A) : quiet m -> quiet (must1 m).
Proof.
  intros Hm w r w' H. unfold must1 in H.
  destruct (m w) as [[a|e|p] w1] eqn:E; inversion H; subst;
    exact (Hm _ _ _ E).
Qed.

Lemma quiet_liftOption {A} (msg : string) (o : option A) :
  quiet (liftOption msg o).
Proof. destruct o; [apply quiet_ret | apply quiet_fail]. Qed.

(** One step through the structure of a computation. *)
Ltac quiet_step :=
  lazymatch goal with
  | |- quiet (ret _) => apply quiet_ret
  | |- quiet (panic _) => apply quiet_panic
  | |- quiet (fail _) => apply quiet_fail
  | |- quiet getStore => apply quiet_getStore
  | |- quiet (liftOption _ _) => apply quiet_liftOption
  | |- quiet (must1 _) => apply quiet_must1
  | |- quiet (must _) => apply quiet_must1
  | |- quiet (must2 _) => apply quiet_must1
  | |- quiet (emit _) => apply quiet_emit; reflexivity
  | |- quiet (bind _ _) => apply quiet_bind; [|intro]
  end.

Section Quiet.
Context (L : Lib).

Lemma quiet_NewMPT (id : ID) : quiet (NewMPT L id).
Proof.
  unfold NewMPT. repeat quiet_step.
  destruct (NewStateTrie L _ id); quiet_step.
Qed.

Lemma quiet_UpdateStorage (t : StateTrie) (k v : bytes) :
  quiet (UpdateStorage t k v).
Proof. unfold UpdateStorage. repeat quiet_step. Qed.

Lemma quiet_UpdateAccount (t : StateTrie) (a : Address) (acc : StateAccount) :
  quiet (UpdateAccount t a acc).
Proof. unfold UpdateAccount. repeat quiet_step. Qed.

Lemma quiet_GetAccount (t : StateTrie) (a : Address) : quiet (GetAccount L t a).
Proof.
  unfold GetAccount. destruct (lookupAccount a (mptWrites t));
    repeat quiet_step.
Qed.

Lemma quiet_TrieCommit (t : StateTrie) : quiet (TrieCommit L t).
Proof. unfold TrieCommit. repeat quiet_step. Qed.

Lemma quiet_DbUpdate (r : Hash) (set : NodeSet) : quiet (DbUpdate L r set).
Proof.
  unfold DbUpdate. destruct (dbUpdate L r set); repeat quiet_step.
  intros w r0 w' H. inversion H; subst. exists []. now rewrite app_nil_r.
Qed.

Lemma quiet_DbCommit (r : Hash) : quiet (DbCommit L r).
Proof.
  intros w r0 w' H. unfold DbCommit in H.
  destruct (dbCommit L (store w) (merged w) r); inversion H; subst.
  - exists [EvDbCommit r]. split; [reflexivity|]. now constructor.
  - exists []. now rewrite app_nil_r.
Qed.

Lemma quiet_commit (t : StateTrie) : quiet (Follower.commit L t).
Proof.
  unfold Follower.commit. repeat quiet_step.
  - apply quiet_TrieCommit.
  - apply quiet_DbUpdate.
  - apply quiet_DbCommit.
Qed.

Lemma quiet_newMPT (id : ID) : quiet (Follower.newMPT L id).
Proof. unfold Follower.newMPT. quiet_step. apply quiet_NewMPT. Qed.

Lemma quiet_post (method : string) (n : option N) :
  quiet (Follower.post method n).
Proof.
  unfold Follower.post. repeat quiet_step.
  intros w r w' H. exists []. rewrite app_nil_r.
  destruct (net w) as [|[| |b] rest]; inversion H; subst; split;
    (reflexivity || constructor).
Qed.

Lemma quiet_eth_blockNumber : quiet (Follower.eth_blockNumber L).
Proof.
  unfold Follower.eth_blockNumber, Follower.send. repeat quiet_step.
  - apply quiet_post.
  - destruct (unmarshalBigResponse L a) as [r|]; [|quiet_step].
    destruct (respError r); quiet_step.
  - destruct a; quiet_step.
Qed.

Lemma quiet_asObject (j : option Json) : quiet (Follower.asObject j).
Proof. destruct j as [[]|]; simpl; quiet_step. Qed.

Lemma quiet_asArray (j : option Json) : quiet (Follower.asArray j).
Proof. destruct j as [[]|]; simpl; quiet_step. Qed.

Lemma quiet_forEachAccount {A}
  (cb : Address -> list (string * Json) -> A -> M A) :
  (forall a st x, quiet (cb a st x)) ->
  forall post x, quiet (Follower.forEachAccount cb post x).
Proof.
  intros Hcb post. induction post as [|[address state] rest IH]; intros x;
    cbn [Follower.forEachAccount].
  - quiet_step.
  - repeat quiet_step; [apply quiet_asObject | apply Hcb | apply IH].
Qed.

Lemma quiet_forEachTx {A}
  (cb : Address -> list (string * Json) -> A -> M A) :
  (forall a st x, quiet (cb a st x)) ->
  forall txs x, quiet (Follower.forEachTx cb txs x).
Proof.
  intros Hcb txs. induction txs as [|tx rest IH]; intros x;
    cbn [Follower.forEachTx].
  - quiet_step.
  - repeat quiet_step; try apply quiet_asObject.
    + now apply quiet_forEachAccount.
    + apply IH.
Qed.

Lemma quiet_debug_traceBlockByNumber {A}
  (cb : Address -> list (string * Json) -> A -> M A) (n : N) (x : A) :
  (forall a st y, quiet (cb a st y)) ->
  quiet (Follower.debug_traceBlockByNumber L cb n x).
Proof.
  intros Hcb. unfold Follower.debug_traceBlockByNumber. repeat quiet_step.
  - apply quiet_post.
  - destruct (unmarshalObject L a); repeat quiet_step.
    + apply quiet_asArray.
    + now apply quiet_forEachTx.
Qed.

Lemma quiet_updateStorageLoop (entries : list (string * Json)) :
  forall t, quiet (Follower.updateStorageLoop entries t).
Proof.
  induction entries as [|[k v] rest IH]; intros t;
    cbn [Follower.updateStorageLoop].
  - quiet_step.
  - destruct v; repeat quiet_step.
    + apply quiet_UpdateStorage.
    + apply IH.
Qed.

Lemma quiet_updateAccount (a : Address) (acc : option StateAccount)
  (st : list (string * Json)) (r : Hash) :
  quiet (Follower.updateAccount L a acc st r).
Proof.
  unfold Follower.updateAccount. repeat quiet_step.
  - destruct (Follower.jsonField "balance" st) as [[]|]; repeat quiet_step.
    destruct (hex_number (trim0x s)); quiet_step.
  - destruct (Follower.jsonField "nonce" (snd a0)) as [[]|]; repeat quiet_step.
  - destruct (Follower.jsonField "storage" (snd a1)); repeat quiet_step.
    + apply quiet_newMPT.
    + apply quiet_asObject.
    + apply quiet_updateStorageLoop.
    + apply quiet_commit.
  - destruct (snd a2); quiet_step.
Qed.

End Quiet.

(** ** The follower *)

Section FollowerRuns.
Context (L : Lib).

(** What a successful [commit] adds to the log. *)
Lemma commit_log (t : StateTrie) (w w' : World) (h : Hash) :
  Follower.commit L t w = (Ok h, w') ->
  log w' = log w ++ [EvTrieCommit h; EvNodeSetMerge h; EvDbCommit h].
Proof.
  unfold Follower.commit. intros H.
  apply bind_inv in H as ([r set] & w1 & H1 & H).
  apply bind_inv in H as ([] & w2 & H2 & H).
  apply bind_inv in H as ([] & w3 & H3 & H).
  inversion H; subst; clear H. cbn [fst snd] in *.
  apply must1_inv in H1, H2, H3.
  unfold TrieCommit in H1.
  apply bind_inv in H1 as (s & w0 & Hs & H1). inversion Hs; subst; clear Hs.
  apply bind_inv in H1 as (rs & wa & Hc & H1).
  destruct (Commit L (store w0) t) as [rs'|]; [|discriminate].
  inversion Hc; subst; clear Hc.
  apply bind_inv in H1 as ([] & wb & He & H1).
  inversion He; subst; clear He. inversion H1; subst; clear H1.
  cbn [fst snd] in *.
  unfold DbUpdate in H2. destruct (dbUpdate L h set); [|discriminate].
  apply bind_inv in H2 as ([] & wc & He & H2).
  inversion He; subst; clear He. inversion H2; subst; clear H2.
  unfold DbCommit in H3. cbn [store merged net log] in H3.
  destruct (dbCommit L (store wa) (merged wa ++ [(h, set)]) h); [|discriminate].
  inversion H3; subst; clear H3. cbn [log].
  now rewrite <- !app_assoc.
Qed.

Lemma quiet_callback (root : migrationRoot) (address : Address)
  (state : list (string * Json)) (mpt : StateTrie) :
  quiet (prior <- must1 (GetAccount L mpt address) ;;
         next <- Follower.updateAccount L address prior state (rootHash root) ;;
         must1 (UpdateAccount mpt address next)).
Proof.
  repeat quiet_step.
  - apply quiet_GetAccount.
  - apply quiet_updateAccount.
  - apply quiet_UpdateAccount.
Qed.

(** A turn of the loop that advances: what [applyNewStateTransition] did. *)
Lemma applyNewStateTransition_advance (root next : migrationRoot)
  (w w1 : World) :
  Follower.applyNewStateTransition L root w = (Ok (Some next), w1) ->
  rootNumber next = uint64 (rootNumber root + 1)
  /\ exists pre,
       log w1 = log w ++ pre ++ [EvTrieCommit (rootHash next);
                                 EvNodeSetMerge (rootHash next);
                                 EvDbCommit (rootHash next)]
       /\ Forall (fun e => isPut e = false) pre.
Proof.
  unfold Follower.applyNewStateTransition. intros H.
  apply bind_inv in H as (head & wa & Hbn & H).
  destruct (N.leb (rootNumber root) head); [|discriminate].
  apply bind_inv in H as (mpt & wb & Hmpt & H).
  apply bind_inv in H as (mpt' & wc & Htr & H).
  apply bind_inv in H as (h & wd & Hc & H).
  inversion H; subst; clear H. cbn [rootNumber rootHash].
  split; [reflexivity|].
  destruct (quiet_eth_blockNumber L _ _ _ Hbn) as (e1 & L1 & F1).
  destruct (quiet_newMPT L _ _ _ _ Hmpt) as (e2 & L2 & F2).
  destruct (quiet_debug_traceBlockByNumber L _ _ _
              (quiet_callback root) _ _ _ Htr) as (e3 & L3 & F3).
  apply commit_log in Hc.
  exists (e1 ++ e2 ++ e3). split.
  - rewrite Hc, L3, L2, L1. now rewrite <- !app_assoc.
  - apply Forall_app. split; [exact F1|].
    apply Forall_app. split; [exact F2 | exact F3].
Qed.

Lemma putCheckpoint_run (r : migrationRoot) (w : World) :
  Follower.putCheckpoint L r w
  = (Ok tt,
     mkWorld (store_put (KRaw Follower.checkpointKey)
                (VBytes (marshalRoot L r)) (store w))
       (merged w) (net w)
       (log w ++ [EvDbPut (KRaw Follower.checkpointKey)
                    (VBytes (marshalRoot L r))])).
Proof. reflexivity. Qed.

End FollowerRuns.

(** C5, as the code has it.  A turn of the follower that advances commits
    the MPT (trie commit, node-set merge, database commit) and writes the
    checkpoint under the migration-root key after that and as its last
    step; nothing is written through [db.Put] before.  The number of the
    record is the previous number plus one in 64-bit arithmetic: plus one
    exactly unless the previous number is the largest 64-bit number. *)
Theorem follower_iteration_checkpoint (L : Lib)
  (root next : migrationRoot) (w w1 : World) :
  Follower.applyNewStateTransition L root w = (Ok (Some next), w1) ->
  exists w2 pre,
    Follower.iteration L root w = (Ok next, w2)
    /\ log w1 = log w ++ pre ++ [EvTrieCommit (rootHash next);
                                 EvNodeSetMerge (rootHash next);
                                 EvDbCommit (rootHash next)]
    /\ Forall (fun e => isPut e = false) pre
    /\ log w2 = log w1 ++ [EvDbPut (KRaw Follower.checkpointKey)
                             (VBytes (marshalRoot L next))]
    /\ store w2 (KRaw Follower.checkpointKey)
       = Some (VBytes (marshalRoot L next))
    /\ rootNumber next = uint64 (rootNumber root + 1)
    /\ ((rootNumber root < 2 ^ 64 - 1)%N ->
        rootNumber next = (rootNumber root + 1)%N).
Proof.
  intros H.
  destruct (applyNewStateTransition_advance L root next w w1 H)
    as (Hn & pre & Hlog & Hpre).
  eexists. exists pre. split.
  - unfold Follower.iteration. rewrite (bind_ok _ _ _ _ _ H).
    cbv beta iota. unfold bind at 1. rewrite putCheckpoint_run. reflexivity.
  - cbn [log store]. split; [exact Hlog|]. split; [exact Hpre|].
    split; [reflexivity|]. split; [apply store_put_same|].
    split; [exact Hn|].
    intros Hlt. rewrite Hn. unfold uint64. apply N.mod_small. lia.
Qed.

(** A turn on the small chain: the head is at block 9, the checkpoint at
    block 7, and the trace of block 7 changes one account. *)
Lemma follower_iteration_checkpoint_witness :
  let w := Toy.world Toy.resumeStore [Body [x09]; Body [x01]] in
  let next := mkMigrationRoot (BytesToHash [xaa; x01]) 8 in
  let w1 := snd (Follower.applyNewStateTransition Toy.lib Toy.checkpoint7 w) in
  Follower.applyNewStateTransition Toy.lib Toy.checkpoint7 w
  = (Ok (Some next), w1)
  /\ exists w2 pre,
       Follower.iteration Toy.lib Toy.checkpoint7 w = (Ok next, w2)
       /\ log w1 = log w ++ pre ++ [EvTrieCommit (rootHash next);
                                    EvNodeSetMerge (rootHash next);
                                    EvDbCommit (rootHash next)]
       /\ Forall (fun e => isPut e = false) pre
       /\ log w2 = log w1 ++ [EvDbPut (KRaw Follower.checkpointKey)
                                (VBytes (marshalRoot Toy.lib next))]
       /\ store w2 (KRaw Follower.checkpointKey)
          = Some (VBytes (marshalRoot Toy.lib next))
       /\ rootNumber next = uint64 (rootNumber Toy.checkpoint7 + 1)
       /\ ((rootNumber Toy.checkpoint7 < 2 ^ 64 - 1)%N ->
           rootNumber next = (rootNumber Toy.checkpoint7 + 1)%N).
Proof.
  intros w next w1.
  assert (H : Follower.applyNewStateTransition Toy.lib Toy.checkpoint7 w
              = (Ok (Some next), w1)).
  { apply (run_eq (Follower.applyNewStateTransition Toy.lib Toy.checkpoint7 w)
             (Ok (Some next))).
    vm_compute. reflexivity. }
  split; [exact H|].
  exact (follower_iteration_checkpoint Toy.lib Toy.checkpoint7 next w w1 H).
Defined.

(** C5 as stated fails at the largest 64-bit number: with the checkpoint and
    the head both at 2^64-1 the turn advances, and the number it persists
    is 0, not the previous number plus one. *)
Lemma follower_checkpoint_number_wraps :
  let w := Toy.world Toy.resumeStore [Body (repeat xff 8); Body [x01]] in
  let next := mkMigrationRoot (BytesToHash [xaa; x01]) 0 in
  let r := Follower.iteration Toy.lib Toy.checkpointMax w in
  fst r = Ok next
  /\ store (snd r) (KRaw Follower.checkpointKey)
     = Some (VBytes (marshalRoot Toy.lib next))
  /\ rootNumber next <> (rootNumber Toy.checkpointMax + 1)%N.
Proof.
  intros w next r.
  split; [vm_compute; reflexivity|].
  split; [vm_compute; reflexivity|].
  vm_compute. discriminate.
Qed.

(** ** Failures of the chain client *)

Section ClientFailures.
Context (L : Lib).

Lemma post_failure (method : string) (n : option N) (w : World)
  (x : Exchange) (rest : list Exchange) :
  net w = x :: rest -> transportFailure x ->
  exists msg,
    Follower.post method n w
    = (Panic msg,
       mkWorld (store w) (merged w) rest (log w ++ [EvPost method n])).
Proof.
  intros Hn Hx. unfold Follower.post, bind, emit. cbn [net store merged log].
  rewrite Hn. destruct Hx as [-> | ->]; eexists; reflexivity.
Qed.

Lemma post_body (method : string) (n : option N) (w : World)
  (b : bytes) (rest : list Exchange) :
  net w = Body b :: rest ->
  Follower.post method n w
  = (Ok b, mkWorld (store w) (merged w) rest (log w ++ [EvPost method n])).
Proof.
  intros Hn. unfold Follower.post, bind, emit. cbn [net store merged log].
  now rewrite Hn.
Qed.

Lemma eth_blockNumber_failure (w : World) (x : Exchange)
  (rest : list Exchange) :
  net w = x :: rest -> transportFailure x ->
  exists msg,
    Follower.eth_blockNumber L w
    = (Panic msg,
       mkWorld (store w) (merged w) rest
         (log w ++ [EvPost "eth_blockNumber" None])).
Proof.
  intros Hn Hx.
  destruct (post_failure "eth_blockNumber" None w x rest Hn Hx) as (msg & H).
  exists msg. unfold Follower.eth_blockNumber, Follower.send.
  unfold bind at 1. unfold must1. unfold bind at 1. now rewrite H.
Qed.

Lemma eth_blockNumber_answer (w : World) (b : bytes) (rest : list Exchange)
  (head : N) :
  net w = Body b :: rest ->
  unmarshalBigResponse L b = Some (mkBigResponse (Some head) None) ->
  Follower.eth_blockNumber L w
  = (Ok (uint64 head),
     mkWorld (store w) (merged w) rest
       (log w ++ [EvPost "eth_blockNumber" None])).
Proof.
  intros Hn Hb. unfold Follower.eth_blockNumber, Follower.send.
  unfold bind at 1. unfold must1. unfold bind at 1.
  rewrite (post_body _ _ _ _ _ Hn). rewrite Hb. reflexivity.
Qed.

End ClientFailures.

(** C7, as the code has it.  A failure of the transport ([http.Post] or
    the reading of the body) on [eth_blockNumber] or on
    [debug_traceBlockByNumber] is a panic: the turn ends the run, whatever
    the number of turns that were to follow, and the call is not made
    again.  The follower sleeps two seconds only when the head is behind
    its checkpoint. *)
Theorem follower_network_error (L : Lib) (root : migrationRoot) (w : World)
  (turns : nat) :
  (forall x rest, net w = x :: rest -> transportFailure x ->
     exists msg,
       Follower.loop L (S turns) root w
       = (Panic msg,
          mkWorld (store w) (merged w) rest
            (log w ++ [EvPost "eth_blockNumber" None])))
  /\ (forall b head x rest,
        net w = Body b :: x :: rest ->
        unmarshalBigResponse L b = Some (mkBigResponse (Some head) None) ->
        (rootNumber root <= uint64 head)%N ->
        NewStateTrie L (store w) (StateTrieID (rootHash root)) = true ->
        transportFailure x ->
        exists msg,
          Follower.loop L (S turns) root w
          = (Panic msg,
             mkWorld (store w) (merged w) rest
               (log w ++ [EvPost "eth_blockNumber" None;
                          EvNewMPT (StateTrieID (rootHash root));
                          EvPost "debug_traceBlockByNumber"
                            (Some (rootNumber root))])))
  /\ (forall b head rest,
        net w = Body b :: rest ->
        unmarshalBigResponse L b = Some (mkBigResponse (Some head) None) ->
        (uint64 head < rootNumber root)%N ->
        Follower.iteration L root w
        = (Ok root,
           mkWorld (store w) (merged w) rest
             (log w ++ [EvPost "eth_blockNumber" None; EvSleep 2]))).
Proof.
  split; [|split].
  - intros x rest Hn Hx.
    destruct (eth_blockNumber_failure L w x rest Hn Hx) as (msg & H).
    exists msg. cbn [Follower.loop].
    unfold Follower.iteration, Follower.applyNewStateTransition.
    unfold bind at 1. unfold bind at 1. unfold bind at 1. now rewrite H.
  - intros b head x rest Hn Hb Hle Hopen Hx.
    pose proof (eth_blockNumber_answer L w b (x :: rest) head Hn Hb) as H.
    set (w1 := mkWorld (store w) (merged w) (x :: rest)
                 (log w ++ [EvPost "eth_blockNumber" None])) in *.
    set (w2 := mkWorld (store w) (merged w) (x :: rest)
                 (log w1 ++ [EvNewMPT (StateTrieID (rootHash root))])).
    destruct (post_failure "debug_traceBlockByNumber"
                (Some (rootNumber root)) w2 x rest eq_refl Hx) as (msg & Hp).
    exists msg. cbn [Follower.loop].
    unfold Follower.iteration, Follower.applyNewStateTransition.
    unfold bind at 1. unfold bind at 1. unfold bind at 1. rewrite H.
    apply N.leb_le in Hle. rewrite Hle.
    unfold bind at 1.
    assert (Hm : Follower.newMPT L (StateTrieID (rootHash root)) w1
                 = (Ok (mkStateTrie (StateTrieID (rootHash root)) []), w2)).
    { unfold Follower.newMPT, must1, NewMPT, bind, emit, getStore.
      unfold w2, w1. cbn [store merged net log]. now rewrite Hopen. }
    rewrite Hm. unfold bind at 1. unfold Follower.debug_traceBlockByNumber.
    unfold bind at 1. rewrite Hp. unfold w2, w1.
    cbn [store merged net log]. now rewrite <- !app_assoc.
  - intros b head rest Hn Hb Hlt.
    pose proof (eth_blockNumber_answer L w b rest head Hn Hb) as H.
    unfold Follower.iteration, Follower.applyNewStateTransition.
    unfold bind at 1. unfold bind at 1. rewrite H.
    apply N.leb_gt in Hlt. rewrite Hlt.
    unfold ret, bind, emit. cbn [store merged net log].
    now rewrite <- !app_assoc.
Qed.

Lemma follower_network_error_witness :
  (exists msg,
     Follower.loop Toy.lib 3 Toy.checkpoint7
       (Toy.world Toy.resumeStore [PostError; Body [x09]])
     = (Panic msg,
        mkWorld Toy.resumeStore [] [Body [x09]]
          [EvPost "eth_blockNumber" None]))
  /\ (exists msg,
        Follower.loop Toy.lib 3 Toy.checkpoint7
          (Toy.world Toy.resumeStore [Body [x09]; ReadError; Body [x01]])
        = (Panic msg,
           mkWorld Toy.resumeStore [] [Body [x01]]
             [EvPost "eth_blockNumber" None;
              EvNewMPT (StateTrieID (rootHash Toy.checkpoint7));
              EvPost "debug_traceBlockByNumber" (Some 7%N)]))
  /\ Follower.iteration Toy.lib Toy.checkpoint7
       (Toy.world Toy.resumeStore [Body [x05]])
     = (Ok Toy.checkpoint7,
        mkWorld Toy.resumeStore [] []
          [EvPost "eth_blockNumber" None; EvSleep 2]).
Proof.
  split; [|split].
  - apply (proj1 (follower_network_error Toy.lib Toy.checkpoint7
                    (Toy.world Toy.resumeStore [PostError; Body [x09]]) 2)
             PostError [Body [x09]]).
    + reflexivity.
    + left. reflexivity.
  - apply (proj1 (proj2 (follower_network_error Toy.lib Toy.checkpoint7
                           (Toy.world Toy.resumeStore
                              [Body [x09]; ReadError; Body [x01]]) 2))
             [x09] 9%N ReadError [Body [x01]]).
    + reflexivity.
    + reflexivity.
    + vm_compute. discriminate.
    + reflexivity.
    + right. reflexivity.
  - apply (proj2 (proj2 (follower_network_error Toy.lib Toy.checkpoint7
                           (Toy.world Toy.resumeStore [Body [x05]]) 0))
             [x05] 5%N []).
    + reflexivity.
    + reflexivity.
    + vm_compute. reflexivity.
Defined.

(** C7 as stated fails: the follower restarts from its checkpoint, the
    first [eth_blockNumber] meets a network error, and the run ends in a
    panic.  The call was made once, the answers that the node would have
    given next are still there, and the follower has not slept. *)
Lemma follower_network_error_not_retried :
  let r := Follower.start Toy.lib Toy.follower 5
             (Toy.world Toy.resumeStore [PostError; Body [x09]; Body [x01]]) in
  fst r = Panic "http.Post"
  /\ log (snd r) = [EvDbGet (KRaw Follower.checkpointKey);
                    EvPost "eth_blockNumber" None]
  /\ net (snd r) = [Body [x09]; Body [x01]].
Proof.
  intros r. split; [|split]; vm_compute; reflexivity.
Qed.

(** ** The checkpoint at startup *)

(** C8, as the code has it.  [start] reads the value under the
    migration-root key, dropping the error of the read.  When the value is
    not empty and decoding leaves a record, the follower resumes from that
    record and no account is migrated, also when decoding reported an
    error.  Otherwise the accounts are migrated and the checkpoint is
    written: when the key is absent or its value empty, and when decoding
    leaves no record.  A decoding error is printed and is not fatal. *)
Theorem startup_checkpoint (L : Lib) (m : Follower.migrator) (w : World)
  (turns : nat) :
  let jsonBytes :=
    match store w (KRaw Follower.checkpointKey) with
    | Some (VBytes b) => b
    | _ => []
    end in
  let w0 := mkWorld (store w) (merged w) (net w)
              (log w ++ [EvDbGet (KRaw Follower.checkpointKey)]) in
  let warned := mkWorld (store w) (merged w) (net w)
                  (log w ++ [EvDbGet (KRaw Follower.checkpointKey);
                             EvPrintln "invalid migration-root format"]) in
  let migrate := (r <- Follower.migrateAccount L m ;;
                  Follower.putCheckpoint L r ;;; ret r) in
  (forall r, jsonBytes <> [] -> unmarshalRoot L jsonBytes = (Some r, false) ->
     Follower.startup L m w = (Ok r, w0)
     /\ Follower.start L m turns w = Follower.loop L turns r w0)
  /\ (forall r, jsonBytes <> [] -> unmarshalRoot L jsonBytes = (Some r, true) ->
        Follower.startup L m w = (Ok r, warned)
        /\ Follower.start L m turns w = Follower.loop L turns r warned)
  /\ (jsonBytes = [] -> Follower.startup L m w = migrate w0)
  /\ (jsonBytes <> [] -> unmarshalRoot L jsonBytes = (None, false) ->
      Follower.startup L m w = migrate w0)
  /\ (jsonBytes <> [] -> unmarshalRoot L jsonBytes = (None, true) ->
      Follower.startup L m w = migrate warned).
Proof.
  intros jsonBytes w0 warned migrate.
  assert (Hget : dbGet Follower.checkpointKey w = (Ok jsonBytes, w0))
    by reflexivity.
  assert (Hstart : forall r v, Follower.startup L m w = (Ok r, v) ->
            Follower.start L m turns w = Follower.loop L turns r v).
  { intros r v H. unfold Follower.start. now rewrite (bind_ok _ _ _ _ _ H). }
  repeat split.
  - unfold Follower.startup. rewrite (bind_ok _ _ _ _ _ Hget).
    destruct jsonBytes as [|x t]; [contradiction|].
    unfold bind. rewrite H0. reflexivity.
  - apply Hstart. unfold Follower.startup. rewrite (bind_ok _ _ _ _ _ Hget).
    destruct jsonBytes as [|x t]; [contradiction|].
    unfold bind. rewrite H0. reflexivity.
  - unfold Follower.startup. rewrite (bind_ok _ _ _ _ _ Hget).
    destruct jsonBytes as [|x t]; [contradiction|].
    unfold bind at 1. rewrite H0. cbn [fst snd].
    unfold bind at 1. unfold emit. cbn [store merged net log].
    unfold ret at 1. unfold w0, warned. cbn [store merged net log].
    now rewrite <- app_assoc.
  - apply Hstart. unfold Follower.startup. rewrite (bind_ok _ _ _ _ _ Hget).
    destruct jsonBytes as [|x t]; [contradiction|].
    unfold bind at 1. rewrite H0. cbn [fst snd].
    unfold bind at 1. unfold emit. cbn [store merged net log].
    unfold ret at 1. unfold w0, warned. cbn [store merged net log].
    now rewrite <- app_assoc.
  - intros H. unfold Follower.startup. rewrite (bind_ok _ _ _ _ _ Hget).
    rewrite H. reflexivity.
  - intros Hne H. unfold Follower.startup. rewrite (bind_ok _ _ _ _ _ Hget).
    destruct jsonBytes as [|x t]; [contradiction|].
    unfold bind at 1. rewrite H. reflexivity.
  - intros Hne H. unfold Follower.startup. rewrite (bind_ok _ _ _ _ _ Hget).
    destruct jsonBytes as [|x t]; [contradiction|].
    unfold bind at 1. rewrite H. cbn [fst snd].
    unfold bind at 1. unfold emit. cbn [store merged net log].
    unfold ret at 1. unfold w0, warned. cbn [store merged net log].
    now rewrite <- app_assoc.
Qed.

Lemma startup_checkpoint_witness :
  Follower.startup Toy.lib Toy.follower (Toy.world Toy.resumeStore [])
  = (Ok Toy.checkpoint7,
     mkWorld Toy.resumeStore [] [] [EvDbGet (KRaw Follower.checkpointKey)])
  /\ Follower.startup Toy.lib Toy.follower (Toy.world Toy.damagedStore [])
     = (r <- Follower.migrateAccount Toy.lib Toy.follower ;;
        Follower.putCheckpoint Toy.lib r ;;; ret r)
         (mkWorld Toy.damagedStore [] []
            [EvDbGet (KRaw Follower.checkpointKey);
             EvPrintln "invalid migration-root format"]).
Proof.
  split.
  - apply (proj1 (startup_checkpoint Toy.lib Toy.follower
                    (Toy.world Toy.resumeStore []) 0) Toy.checkpoint7).
    + vm_compute. discriminate.
    + vm_compute. reflexivity.
  - apply (proj2 (proj2 (proj2 (proj2
             (startup_checkpoint Toy.lib Toy.follower
                (Toy.world Toy.damagedStore []) 0))))).
    + vm_compute. discriminate.
    + vm_compute. reflexivity.
Defined.

(** C8 as stated fails: the migration-root key is present with a value that
    does not parse.  The error is printed, the accounts are migrated again
    from the head, and the checkpoint is overwritten; the run goes on. *)
Lemma startup_damaged_checkpoint_not_fatal :
  let w := Toy.world Toy.damagedStore [] in
  let r := Follower.startup Toy.lib Toy.follower w in
  let root := mkMigrationRoot (BytesToHash [xaa; x01]) 7 in
  store w (KRaw Follower.checkpointKey) = Some (VBytes [x01])
  /\ unmarshalRoot Toy.lib [x01] = (None, true)
  /\ fst r = Ok root
  /\ nth_error (log (snd r)) 1
     = Some (EvPrintln "invalid migration-root format")
  /\ nth_error (log (snd r)) 3 = Some (EvOpenZkIterator Toy.zkAccountRoot)
  /\ store (snd r) (KRaw Follower.checkpointKey)
     = Some (VBytes (marshalRoot Toy.lib root)).
Proof.
  intros w r root.
  split; [vm_compute; reflexivity|].
  split; [vm_compute; reflexivity|].
  split; [vm_compute; reflexivity|].
  split; [vm_compute; reflexivity|].
  split; [vm_compute; reflexivity|].
  vm_compute; reflexivity.
Qed.

(** ** The values written into storage tries *)

Section StorageValues.
Context (L : Lib).

(** The follower's transformation writes [encodeToRlp] of the leaf value
    under the slot. *)
Lemma follower_migrateStorage_write (m : Follower.migrator)
  (address : Address) (it : ZkNode) (rest : list ZkNode) (mpt : StateTrie)
  (slot : bytes) (w : World) :
  zkLeaf it = true ->
  Follower.readPreimage L m (zkLeafKey it) w = (Ok slot, w) ->
  Follower.migrateStorageLoop L m address (it :: rest) mpt w
  = Follower.migrateStorageLoop L m address rest
      (mkStateTrie (mptId mpt)
         (WStorage slot (encodeToRlp (zkLeafBlob it)) :: mptWrites mpt))
      (mkWorld (store w) (merged w) (net w)
         (log w ++ [EvUpdateStorage (mptId mpt) slot
                      (encodeToRlp (zkLeafBlob it))])).
Proof.
  intros Hl Hp. cbn [Follower.migrateStorageLoop]. rewrite Hl. cbn [negb].
  rewrite Hp. reflexivity.
Qed.

(** The sealing program writes the leaf value as it is. *)
Lemma sealer_migrateStorage_write (m : Sealer.stateMigrator) (it : ZkNode)
  (rest : list ZkNode) (mpt : StateTrie) (slot : bytes) (w : World) :
  zkLeaf it = true ->
  Sealer.readPreimage L m (zkLeafKey it) w = (Ok slot, w) ->
  Sealer.migrateStorageLoop L m (it :: rest) mpt w
  = Sealer.migrateStorageLoop L m rest
      (mkStateTrie (mptId mpt)
         (WStorage slot (zkLeafBlob it) :: mptWrites mpt))
      (mkWorld (store w) (merged w) (net w)
         (log w ++ [EvUpdateStorage (mptId mpt) slot (zkLeafBlob it)])).
Proof.
  intros Hl Hp. cbn [Sealer.migrateStorageLoop]. rewrite Hl. cbn [negb].
  unfold bind at 1. rewrite Hp. reflexivity.
Qed.

(** A storage entry of a block delta is written as [encodeToRlp] of the
    characters of its value string. *)
Lemma updateStorageLoop_write (key v : string)
  (rest : list (string * Json)) (mpt : StateTrie) (w : World) :
  Follower.updateStorageLoop ((key, JString v) :: rest) mpt w
  = Follower.updateStorageLoop rest
      (mkStateTrie (mptId mpt)
         (WStorage (HexToHash key) (encodeToRlp (bytes_of_string v))
            :: mptWrites mpt))
      (mkWorld (store w) (merged w) (net w)
         (log w ++ [EvUpdateStorage (mptId mpt) (HexToHash key)
                      (encodeToRlp (bytes_of_string v))])).
Proof. reflexivity. Qed.

End StorageValues.

(** C1, at the inputs where the code departs from it.  In the follower's
    transformation the leaf 0x00...00BEEF is written as RLP(0xBEEF), as the
    claim says.  The delta entry "0x01": "0xfeed" is written as the RLP
    encoding of the six characters of the string, not of the bytes 0xFEED;
    and the sealing program writes the 32 bytes of the leaf as they are. *)
Theorem storage_value_written :
  let claimed (value : bytes) := EncodeToBytes (TrimLeftZeroes value) in
  let transform := Follower.startup Toy.lib Toy.follower
                     (Toy.world Toy.chainStore []) in
  let delta := Follower.iteration Toy.lib Toy.checkpoint7
                 (Toy.world Toy.resumeStore [Body [x09]; Body [x01]]) in
  let seal := Sealer.migrateAccount Toy.lib Toy.sealer
                (Toy.world Toy.chainStore []) in
  let storageId := StorageTrieID (EmptyRootHash Toy.lib)
                     (Keccak256Hash Toy.lib (BytesToAddress [xbb]))
                     (EmptyRootHash Toy.lib) in
  (nth_error (log (snd transform)) 5
   = Some (EvUpdateStorage storageId Toy.slotKey [x82; xbe; xef])
   /\ claimed Toy.slotValue = [x82; xbe; xef])
  /\ (nth_error (log (snd delta)) 4
      = Some (EvUpdateStorage
                (StorageTrieID (rootHash Toy.checkpoint7)
                   (Keccak256Hash Toy.lib
                      (HexToAddress "0xbbbbbbbbbbbbbbbbbbbbbbbbbbbbbbbbbbbbbbbb"))
                   (accRoot (NewEmptyStateAccount Toy.lib)))
                (HexToHash "0x01")
                (x86 :: bytes_of_string "0xfeed"))
      /\ claimed (FromHex "0xfeed") = [x82; xfe; xed])
  /\ (nth_error (log (snd seal)) 4
      = Some (EvUpdateStorage storageId Toy.slotKey Toy.slotValue)
      /\ Toy.slotValue <> claimed Toy.slotValue).
Proof.
  intros claimed transform delta seal storageId.
  split; [|split]; split.
  - vm_compute. reflexivity.
  - vm_compute. reflexivity.
  - vm_compute. reflexivity.
  - vm_compute. reflexivity.
  - vm_compute. reflexivity.
  - vm_compute. discriminate.
Qed.

(** ** The hash-collision guard *)

Section Guard.
Context (L : Lib).

(** Positions that are not leaves never reach the store: the guard on a
    walk is the guard on the leaves of the walk. *)
Lemma checkNodes_leaves (nodes : list MptNode) (w : World) :
  Follower.checkNodes L nodes w
  = Follower.checkNodes L (filter nodeLeaf nodes) w.
Proof.
  revert w. induction nodes as [|n rest IH]; intros w; [reflexivity|].
  cbn [Follower.checkNodes filter].
  destruct (nodeLeaf n) eqn:E; cbn [negb]; [|apply IH].
  cbn [Follower.checkNodes]. rewrite E. cbn [negb].
  unfold bind.
  destruct (dbGet (nodeHash n) w) as [[data|e|p] w1]; try reflexivity.
  destruct data as [|b data]; [apply IH|].
  destruct (NewTreeNodeFromBlob L (b :: data)); [reflexivity | apply IH].
Qed.

Lemma checkNodes_inner (nodes : list MptNode) (w : World) :
  Forall (fun n => nodeLeaf n = false) nodes ->
  Follower.checkNodes L nodes w = (Ok tt, w).
Proof.
  intros H. rewrite checkNodes_leaves.
  replace (filter nodeLeaf nodes) with (@nil MptNode); [reflexivity|].
  induction H as [|n rest Hn _ IH]; [reflexivity|].
  cbn [filter]. now rewrite Hn.
Qed.

End Guard.

(** C3, at an input where the code departs from it.  The store holds a
    zkTrie node under the hash of the root node of the MPT that the
    migration builds.  The guard walks the MPT and probes the leaf position
    only; the hash of the root node is never looked up, the migration ends
    without a panic, and the commit replaces the zkTrie node. *)
Theorem checkHashCollision_misses_inner_node :
  let h := BytesToHash [xaa; x01] in
  let w := Toy.world Toy.collidingStore [] in
  let mpt := mkStateTrie (TrieID (EmptyRootHash Toy.lib))
               [WAccount (BytesToAddress [xbb])
                  (mkStateAccount 0 1000 h (BytesToHash [xcc]))] in
  let r := Follower.startup Toy.lib Toy.follower w in
  store w (KRaw h) = Some (VBytes Toy.zkNodeBlob)
  /\ NewTreeNodeFromBlob Toy.lib Toy.zkNodeBlob = true
  /\ MustNodeIterator Toy.lib (store w) mpt
     = [mkMptNode false h; mkMptNode true zeroHash]
  /\ Follower.checkHashCollision Toy.lib mpt w
     = (Ok tt, mkWorld (store w) [] [] [EvDbGet (KRaw zeroHash)])
  /\ fst r = Ok (mkMigrationRoot h 7)
  /\ existsb (probed h) (log (snd r)) = false
  /\ store (snd r) (KRaw h) = Some (VBytes Toy.nodeBlob).
Proof.
  intros h w mpt r.
  split; [vm_compute; reflexivity|].
  split; [vm_compute; reflexivity|].
  split; [vm_compute; reflexivity|].
  split; [vm_compute; reflexivity|].
  split; [vm_compute; reflexivity|].
  split; [vm_compute; reflexivity|].
  vm_compute; reflexivity.
Qed.

(** * Further properties of the code *)

(** ** The encoding of storage values *)

Lemma to_N_byte_of_N (n : N) : (n < 256)%N -> Byte.to_N (byte_of_N n) = n.
Proof.
  intros H. unfold byte_of_N.
  destruct (Byte.of_N n) as [b|] eqn:E.
  - now apply Byte.to_of_N.
  - apply Byte.of_N_None_iff in E. lia.
Qed.

Lemma TrimLeftZeroes_length (s : bytes) :
  List.length (TrimLeftZeroes s) <= List.length s.
Proof.
  induction s as [|b t IH]; simpl; [lia|].
  destruct (byte_eqb b x00); simpl; lia.
Qed.

(** A trimmed string does not start with a zero byte. *)
Lemma TrimLeftZeroes_head (s : bytes) (b : byte) (t : bytes) :
  TrimLeftZeroes s = b :: t -> b <> x00.
Proof.
  induction s as [|c s IH]; simpl; [discriminate|].
  destruct (byte_eqb c x00) eqn:E; [exact IH|].
  intros H. inversion H; subst. intros ->. now rewrite byte_eqb_refl in E.
Qed.

Lemma TrimLeftZeroes_all_zero (s : bytes) :
  Forall (fun b => b = x00) s -> TrimLeftZeroes s = [].
Proof.
  induction 1 as [|b t Hb _ IH]; simpl; [reflexivity|].
  subst b. exact IH.
Qed.

(** The RLP encoding of a string of fewer than 56 bytes. *)
Lemma EncodeToBytes_short (t : bytes) :
  List.length t < 56 ->
  (exists c, t = [c] /\ (Byte.to_N c <= 127)%N /\ EncodeToBytes t = [c])
  \/ ((forall c, t = [c] -> (127 < Byte.to_N c)%N)
      /\ EncodeToBytes t
         = byte_of_N (128 + N.of_nat (List.length t)) :: t).
Proof.
  intros H. destruct t as [|c [|d t]].
  - right. split; [discriminate | reflexivity].
  - unfold EncodeToBytes. destruct (N.leb (Byte.to_N c) 127) eqn:E.
    + left. exists c. apply N.leb_le in E. now repeat split.
    + right. apply N.leb_gt in E. split; [|reflexivity].
      intros c' Hc. now inversion Hc; subst.
  - right. split; [discriminate|].
    unfold EncodeToBytes.
    assert (E : N.ltb (N.of_nat (List.length (c :: d :: t))) 56 = true)
      by (apply N.ltb_lt; lia).
    now rewrite E.
Qed.

(** On strings of fewer than 56 bytes the RLP encoding is injective. *)
Lemma EncodeToBytes_short_inj (s t : bytes) :
  List.length s < 56 -> List.length t < 56 ->
  EncodeToBytes s = EncodeToBytes t -> s = t.
Proof.
  intros Hs Ht H.
  assert (Hp : forall u : bytes, List.length u < 56 ->
             (128 <= Byte.to_N
                       (byte_of_N (128 + N.of_nat (List.length u))))%N).
  { intros u Hu. rewrite to_N_byte_of_N; lia. }
  destruct (EncodeToBytes_short s Hs) as [(c & -> & Hc & Es) | (Ns & Es)];
    destruct (EncodeToBytes_short t Ht) as [(d & -> & Hd & Et) | (Nt & Et)];
    rewrite Es, Et in H.
  - exact H.
  - assert (E : c = byte_of_N (128 + N.of_nat (List.length t)))
      by congruence.
    rewrite E in Hc. specialize (Hp t Ht). lia.
  - assert (E : d = byte_of_N (128 + N.of_nat (List.length s)))
      by congruence.
    rewrite E in Hd. specialize (Hp s Hs). lia.
  - congruence.
Qed.

(** X1. The value that [encodeToRlp] returns has between 1 and 33 bytes,
    whatever the input. *)
Theorem encodeToRlp_length (b : bytes) :
  1 <= List.length (encodeToRlp b) <= 33.
Proof.
  rewrite encodeToRlp_trim.
  pose proof (TrimLeftZeroes_length (last32 b)) as H1.
  pose proof (last32_length b) as H2.
  destruct (EncodeToBytes_short (TrimLeftZeroes (last32 b)))
    as [(c & _ & _ & E) | (_ & E)]; [lia | | ]; rewrite E; simpl; lia.
Qed.

(** X2. A value of zero bytes only, of any length, also the empty one, is
    encoded as the single byte 0x80. *)
Theorem encodeToRlp_zero (b : bytes) :
  Forall (fun x => x = x00) b -> encodeToRlp b = [x80].
Proof.
  intros H. rewrite encodeToRlp_trim.
  rewrite TrimLeftZeroes_all_zero; [reflexivity|].
  unfold last32.
  rewrite <- (firstn_skipn (List.length b - HashLength) b) in H.
  now apply Forall_app in H.
Qed.

Lemma encodeToRlp_zero_witness : encodeToRlp (repeat x00 40) = [x80].
Proof.
  apply (encodeToRlp_zero (repeat x00 40)).
  apply Forall_forall. intros x Hx. now apply repeat_spec in Hx.
Defined.

(** X3. Two values have the same encoding exactly when their last 32 bytes
    are the same up to leading zero bytes. *)
Theorem encodeToRlp_same (b b' : bytes) :
  encodeToRlp b = encodeToRlp b'
  <-> TrimLeftZeroes (last32 b) = TrimLeftZeroes (last32 b').
Proof.
  rewrite !encodeToRlp_trim. split.
  - apply EncodeToBytes_short_inj.
    + pose proof (TrimLeftZeroes_length (last32 b)).
      pose proof (last32_length b). lia.
    + pose proof (TrimLeftZeroes_length (last32 b')).
      pose proof (last32_length b'). lia.
  - now intros ->.
Qed.

Lemma encodeToRlp_same_witness :
  encodeToRlp [x00; x00; xbe; xef] = encodeToRlp [xbe; xef]
  /\ encodeToRlp [xbe; xef] <> encodeToRlp [xbe; xee].
Proof.
  split.
  - apply (proj2 (encodeToRlp_same [x00; x00; xbe; xef] [xbe; xef])).
    reflexivity.
  - intros H.
    apply (proj1 (encodeToRlp_same [xbe; xef] [xbe; xee])) in H.
    discriminate.
Defined.

(** ** The hash-collision guard on leaf positions *)

Lemma dbGet_run (k : bytes) (w : World) :
  dbGet k w
  = (Ok match store w (KRaw k) with Some (VBytes b) => b | _ => [] end,
     mkWorld (store w) (merged w) (net w) (log w ++ [EvDbGet (KRaw k)])).
Proof. reflexivity. Qed.

Section GuardRuns.
Context (L : Lib).

Lemma checkNodes_runs (nodes : list MptNode) :
  forall w,
    let probes := map (fun n => EvDbGet (KRaw (nodeHash n)))
                    (filter nodeLeaf nodes) in
    store (snd (Follower.checkNodes L nodes w)) = store w
    /\ (existsb (collides L (store w)) nodes = true ->
        fst (Follower.checkNodes L nodes w) = Panic "Hash collision detected")
    /\ (existsb (collides L (store w)) nodes = false ->
        Follower.checkNodes L nodes w
        = (Ok tt, mkWorld (store w) (merged w) (net w) (log w ++ probes))).
Proof.
  induction nodes as [|n rest IH]; intros w; cbn zeta.
  - cbn. rewrite app_nil_r. repeat split; try discriminate. now destruct w.
  - cbn [Follower.checkNodes existsb filter map]. unfold collides at 1 3.
    destruct (nodeLeaf n) eqn:El; cbn [negb andb orb].
    + unfold bind. rewrite dbGet_run.
      set (w1 := mkWorld (store w) (merged w) (net w)
                   (log w ++ [EvDbGet (KRaw (nodeHash n))])).
      specialize (IH w1). cbn zeta in IH.
      change (store w1) with (store w) in IH.
      destruct (store w (KRaw (nodeHash n))) as [[data| | | | | | |]|];
        try (cbn [orb map]; unfold w1 in IH; cbn [log store merged net] in IH;
             rewrite <- app_assoc in IH; exact IH).
      destruct data as [|b data].
      * cbn [orb map]. unfold w1 in IH. cbn [log store merged net] in IH.
        rewrite <- app_assoc in IH. exact IH.
      * destruct (NewTreeNodeFromBlob L (b :: data)); cbn [orb map].
        -- repeat split; discriminate.
        -- unfold w1 in IH. cbn [log store merged net] in IH.
           rewrite <- app_assoc in IH. exact IH.
    + apply IH.
Qed.

End GuardRuns.

(** X4. [checkHashCollision] panics exactly when some leaf position of the
    walk has, under its hash, bytes that decode as a zkTrie node; otherwise
    it returns after one [db.Get] per leaf position, in the order of the
    walk.  In both cases the store is left as it was. *)
Theorem checkHashCollision_leaf_positions (L : Lib) (t : StateTrie)
  (w : World) :
  let nodes := MustNodeIterator L (store w) t in
  let r := Follower.checkHashCollision L t w in
  store (snd r) = store w
  /\ (existsb (collides L (store w)) nodes = true ->
      fst r = Panic "Hash collision detected")
  /\ (existsb (collides L (store w)) nodes = false ->
      r = (Ok tt,
           mkWorld (store w) (merged w) (net w)
             (log w ++ map (fun n => EvDbGet (KRaw (nodeHash n)))
                         (filter nodeLeaf nodes)))).
Proof.
  intros nodes r. subst r. unfold Follower.checkHashCollision.
  unfold bind at 1 2 3. unfold getStore. fold nodes.
  exact (checkNodes_runs L nodes w).
Qed.

Lemma checkHashCollision_leaf_positions_witness :
  fst (Follower.checkHashCollision Toy.lib Toy.accountTrie
         (Toy.world Toy.leafCollidingStore []))
  = Panic "Hash collision detected"
  /\ Follower.checkHashCollision Toy.lib Toy.accountTrie
       (Toy.world Toy.chainStore [])
     = (Ok tt, mkWorld Toy.chainStore [] [] [EvDbGet (KRaw zeroHash)]).
Proof.
  split.
  - apply (proj1 (proj2 (checkHashCollision_leaf_positions Toy.lib
                           Toy.accountTrie
                           (Toy.world Toy.leafCollidingStore [])))).
    vm_compute. reflexivity.
  - apply (proj2 (proj2 (checkHashCollision_leaf_positions Toy.lib
                           Toy.accountTrie (Toy.world Toy.chainStore [])))).
    vm_compute. reflexivity.
Defined.

(** ** The walks over the source tries *)

Lemma bind_ext {A B} (m : M A) (f g : A -> M B) (w : World) :
  (forall a w1, f a w1 = g a w1) -> bind m f w = bind m g w.
Proof.
  intros H. unfold bind. destruct (m w) as [[a|e|p] w1]; [apply H | | ];
    reflexivity.
Qed.

Lemma UpdateStorage_run (t : StateTrie) (k v : bytes) (w : World) :
  UpdateStorage t k v w
  = (Ok (mkStateTrie (mptId t) (WStorage k v :: mptWrites t)),
     mkWorld (store w) (merged w) (net w)
       (log w ++ [EvUpdateStorage (mptId t) k v])).
Proof. reflexivity. Qed.

Lemma UpdateAccount_run (t : StateTrie) (a : Address) (acc : StateAccount)
  (w : World) :
  UpdateAccount t a acc w
  = (Ok (mkStateTrie (mptId t) (WAccount a acc :: mptWrites t)),
     mkWorld (store w) (merged w) (net w)
       (log w ++ [EvUpdateAccount (mptId t) a acc])).
Proof. reflexivity. Qed.

Section Walks.
Context (L : Lib).

(** [readPreimage] leaves the world as it is and looks at the store only. *)
Lemma follower_readPreimage_store (m : Follower.migrator) (key : bytes)
  (w : World) :
  snd (Follower.readPreimage L m key w) = w
  /\ forall w0, store w0 = store w ->
       fst (Follower.readPreimage L m key w0)
       = fst (Follower.readPreimage L m key w).
Proof.
  unfold Follower.readPreimage.
  destruct (Follower.genesisAccount m (IteratorKeyToHash L key));
    [split; reflexivity|].
  destruct (Follower.genesisStorage m (IteratorKeyToHash L key));
    [split; reflexivity|].
  unfold bind, getStore. split.
  - destruct (MustNewSecureHash L _); [|reflexivity].
    destruct (bytes_eqb _ _); reflexivity.
  - intros w0 ->.
    destruct (MustNewSecureHash L _); [|reflexivity].
    destruct (bytes_eqb _ _); reflexivity.
Qed.

Lemma sealer_readPreimage_store (m : Sealer.stateMigrator) (key : bytes)
  (w : World) :
  snd (Sealer.readPreimage L m key w) = w
  /\ forall w0, store w0 = store w ->
       fst (Sealer.readPreimage L m key w0)
       = fst (Sealer.readPreimage L m key w).
Proof.
  unfold Sealer.readPreimage.
  destruct (Sealer.genesisAccount m (IteratorKeyToHash L key));
    [split; reflexivity|].
  destruct (Sealer.genesisStorage m (IteratorKeyToHash L key));
    [split; reflexivity|].
  unfold bind, getStore. split.
  - destruct (MustNewSecureHash L _); [|reflexivity].
    destruct (bytes_eqb _ _); reflexivity.
  - intros w0 ->.
    destruct (MustNewSecureHash L _); [|reflexivity].
    destruct (bytes_eqb _ _); reflexivity.
Qed.

Lemma follower_storage_leaves (m : Follower.migrator) (address : Address)
  (nodes : list ZkNode) :
  forall mpt w,
    Follower.migrateStorageLoop L m address nodes mpt w
    = Follower.migrateStorageLoop L m address (filter zkLeaf nodes) mpt w.
Proof.
  induction nodes as [|it rest IH]; intros mpt w; [reflexivity|].
  cbn [Follower.migrateStorageLoop filter].
  destruct (zkLeaf it) eqn:El; cbn [negb]; [|apply IH].
  cbn [Follower.migrateStorageLoop]. rewrite El. cbn [negb].
  destruct (Follower.readPreimage L m (zkLeafKey it) w) as [[slot|e|p] w1].
  - apply bind_ext. intros; apply IH.
  - destruct (bytes_eqb address Follower.devnetContract); [|reflexivity].
    apply bind_ext. intros; apply IH.
  - reflexivity.
Qed.

Lemma sealer_storage_leaves (m : Sealer.stateMigrator)
  (nodes : list ZkNode) :
  forall mpt w,
    Sealer.migrateStorageLoop L m nodes mpt w
    = Sealer.migrateStorageLoop L m (filter zkLeaf nodes) mpt w.
Proof.
  induction nodes as [|it rest IH]; intros mpt w; [reflexivity|].
  cbn [Sealer.migrateStorageLoop filter].
  destruct (zkLeaf it) eqn:El; cbn [negb]; [|apply IH].
  cbn [Sealer.migrateStorageLoop]. rewrite El. cbn [negb].
  apply bind_ext. intros. apply bind_ext. intros; apply IH.
Qed.

Lemma follower_account_leaves (m : Follower.migrator)
  (nodes : list ZkNode) :
  forall mpt w,
    Follower.migrateAccountLoop L m nodes mpt w
    = Follower.migrateAccountLoop L m (filter zkLeaf nodes) mpt w.
Proof.
  induction nodes as [|it rest IH]; intros mpt w; [reflexivity|].
  cbn [Follower.migrateAccountLoop filter].
  destruct (zkLeaf it) eqn:El; cbn [negb]; [|apply IH].
  cbn [Follower.migrateAccountLoop]. rewrite El. cbn [negb].
  repeat (apply bind_ext; intros). apply IH.
Qed.

Lemma sealer_account_leaves (m : Sealer.stateMigrator)
  (nodes : list ZkNode) :
  forall mpt w,
    Sealer.migrateAccountLoop L m nodes mpt w
    = Sealer.migrateAccountLoop L m (filter zkLeaf nodes) mpt w.
Proof.
  induction nodes as [|it rest IH]; intros mpt w; [reflexivity|].
  cbn [Sealer.migrateAccountLoop filter].
  destruct (zkLeaf it) eqn:El; cbn [negb]; [|apply IH].
  cbn [Sealer.migrateAccountLoop]. rewrite El. cbn [negb].
  repeat (apply bind_ext; intros). apply IH.
Qed.

End Walks.

(** X5. The four walks over a source zkTrie, of storage and of accounts in
    both programs, depend on the leaf positions only: the positions that
    are not leaves can be taken out of the walk without any change to the
    result, the store or the log. *)
Theorem zk_walks_leaves_only (L : Lib) (fm : Follower.migrator)
  (sm : Sealer.stateMigrator) (address : Address) (nodes : list ZkNode)
  (mpt : StateTrie) (w : World) :
  Follower.migrateStorageLoop L fm address nodes mpt w
  = Follower.migrateStorageLoop L fm address (filter zkLeaf nodes) mpt w
  /\ Follower.migrateAccountLoop L fm nodes mpt w
     = Follower.migrateAccountLoop L fm (filter zkLeaf nodes) mpt w
  /\ Sealer.migrateStorageLoop L sm nodes mpt w
     = Sealer.migrateStorageLoop L sm (filter zkLeaf nodes) mpt w
  /\ Sealer.migrateAccountLoop L sm nodes mpt w
     = Sealer.migrateAccountLoop L sm (filter zkLeaf nodes) mpt w.
Proof.
  split; [apply follower_storage_leaves|].
  split; [apply follower_account_leaves|].
  split; [apply sealer_storage_leaves | apply sealer_account_leaves].
Qed.

(** ** One write for every leaf *)

Section Writes.
Context (L : Lib).

Lemma follower_storage_writes (m : Follower.migrator) (address : Address)
  (nodes : list ZkNode) :
  bytes_eqb address Follower.devnetContract = false ->
  forall mpt w mpt' w',
    Follower.migrateStorageLoop L m address nodes mpt w = (Ok mpt', w') ->
    exists slots,
      Forall2 (fun slot it =>
                 fst (Follower.readPreimage L m (zkLeafKey it) w) = Ok slot)
        slots (filter zkLeaf nodes)
      /\ mptWrites mpt'
         = rev (map followerStorageWrite
                  (combine slots (filter zkLeaf nodes))) ++ mptWrites mpt
      /\ mptId mpt' = mptId mpt
      /\ store w' = store w.
Proof.
  intros Hdev. induction nodes as [|it rest IH]; intros mpt w mpt' w' H.
  - inversion H; subst. exists []. repeat split. constructor.
  - cbn [Follower.migrateStorageLoop filter] in *.
    destruct (zkLeaf it) eqn:El; cbn [negb] in H; [|now apply IH].
    destruct (follower_readPreimage_store L m (zkLeafKey it) w) as [Hw Hs].
    destruct (Follower.readPreimage L m (zkLeafKey it) w)
      as [[slot|e|p] w1] eqn:Er; cbn [fst snd] in *.
    + subst w1. unfold bind at 1 in H. rewrite UpdateStorage_run in H.
      apply IH in H as (slots & HF & Hwr & Hid & Hst).
      cbn [store mptWrites mptId] in *.
      exists (slot :: slots). split; [|split; [|split]].
      * constructor; [now rewrite Er|].
        eapply Forall2_impl; [|exact HF].
        intros a b Hab. cbv beta in *. rewrite <- Hab. symmetry.
        destruct (follower_readPreimage_store L m (zkLeafKey b) w) as [_ Hb].
        now apply Hb.
      * rewrite Hwr. cbn [combine map rev]. now rewrite <- app_assoc.
      * exact Hid.
      * exact Hst.
    + rewrite Hdev in H. discriminate.
    + discriminate.
Qed.

Lemma follower_storage_bound (m : Follower.migrator) (address : Address)
  (nodes : list ZkNode) :
  forall mpt w mpt' w',
    Follower.migrateStorageLoop L m address nodes mpt w = (Ok mpt', w') ->
    List.length (mptWrites mpt')
    <= List.length (mptWrites mpt) + List.length (filter zkLeaf nodes)
    /\ store w' = store w.
Proof.
  induction nodes as [|it rest IH]; intros mpt w mpt' w' H.
  - inversion H; subst. split; [lia | reflexivity].
  - cbn [Follower.migrateStorageLoop filter] in *.
    destruct (zkLeaf it) eqn:El; cbn [negb] in H; [|now apply IH].
    destruct (follower_readPreimage_store L m (zkLeafKey it) w) as [Hw _].
    destruct (Follower.readPreimage L m (zkLeafKey it) w)
      as [[slot|e|p] w1] eqn:Er; cbn [fst snd] in *.
    + subst w1. unfold bind at 1 in H. rewrite UpdateStorage_run in H.
      apply IH in H as [Hlen Hst]. cbn [store mptWrites List.length] in *.
      split; [lia | exact Hst].
    + subst w1.
      destruct (bytes_eqb address Follower.devnetContract); [|discriminate].
      unfold bind at 1 in H. unfold emit in H.
      apply IH in H as [Hlen Hst]. cbn [store List.length] in *.
      split; [lia | exact Hst].
    + discriminate.
Qed.

Lemma sealer_storage_writes (m : Sealer.stateMigrator)
  (nodes : list ZkNode) :
  forall mpt w mpt' w',
    Sealer.migrateStorageLoop L m nodes mpt w = (Ok mpt', w') ->
    exists slots,
      Forall2 (fun slot it =>
                 fst (Sealer.readPreimage L m (zkLeafKey it) w) = Ok slot)
        slots (filter zkLeaf nodes)
      /\ mptWrites mpt'
         = rev (map sealerStorageWrite
                  (combine slots (filter zkLeaf nodes))) ++ mptWrites mpt
      /\ mptId mpt' = mptId mpt
      /\ store w' = store w.
Proof.
  induction nodes as [|it rest IH]; intros mpt w mpt' w' H.
  - inversion H; subst. exists []. repeat split. constructor.
  - cbn [Sealer.migrateStorageLoop filter] in *.
    destruct (zkLeaf it) eqn:El; cbn [negb] in H; [|now apply IH].
    destruct (sealer_readPreimage_store L m (zkLeafKey it) w) as [Hw Hs].
    unfold bind at 1 in H.
    destruct (Sealer.readPreimage L m (zkLeafKey it) w)
      as [[slot|e|p] w1] eqn:Er; cbn [fst snd] in *; try discriminate.
    subst w1. unfold bind at 1 in H. rewrite UpdateStorage_run in H.
    apply IH in H as (slots & HF & Hwr & Hid & Hst).
    cbn [store mptWrites mptId] in *.
    exists (slot :: slots). split; [|split; [|split]].
    + constructor; [now rewrite Er|].
      eapply Forall2_impl; [|exact HF].
      intros a b Hab. cbv beta in *. rewrite <- Hab. symmetry.
      destruct (sealer_readPreimage_store L m (zkLeafKey b) w) as [_ Hb].
      now apply Hb.
    + rewrite Hwr. cbn [combine map rev]. now rewrite <- app_assoc.
    + exact Hid.
    + exact Hst.
Qed.

Lemma follower_account_writes (m : Follower.migrator)
  (nodes : list ZkNode) :
  forall mpt w mpt' w',
    Follower.migrateAccountLoop L m nodes mpt w = (Ok mpt', w') ->
    exists news,
      mptWrites mpt' = news ++ mptWrites mpt
      /\ List.length news = List.length (filter zkLeaf nodes)
      /\ forallb isAccountWrite news = true
      /\ mptId mpt' = mptId mpt.
Proof.
  induction nodes as [|it rest IH]; intros mpt w mpt' w' H.
  - inversion H; subst. exists []. repeat split.
  - cbn [Follower.migrateAccountLoop filter] in *.
    destruct (zkLeaf it) eqn:El; cbn [negb] in H;
      [|exact (IH _ _ _ _ H)].
    apply bind_inv in H as (pre & w1 & _ & H).
    apply bind_inv in H as (acc & w2 & _ & H).
    apply bind_inv in H as (r & w3 & _ & H).
    apply bind_inv in H as (mpt1 & w4 & Hu & H).
    apply must1_inv in Hu. rewrite UpdateAccount_run in Hu.
    inversion Hu; subst mpt1 w4; clear Hu.
    apply (IH _ _ _ _) in H as (news & Hwr & Hlen & Hacc & Hid).
    cbn [mptWrites mptId] in *.
    exists (news ++ [WAccount (BytesToAddress pre) (Follower.setRoot acc r)]).
    split; [|split; [|split]].
    + now rewrite Hwr, <- app_assoc.
    + rewrite length_app. cbn [List.length]. lia.
    + rewrite forallb_app, Hacc. reflexivity.
    + exact Hid.
Qed.

Lemma sealer_account_writes (m : Sealer.stateMigrator)
  (nodes : list ZkNode) :
  forall mpt w mpt' w',
    Sealer.migrateAccountLoop L m nodes mpt w = (Ok mpt', w') ->
    exists news,
      mptWrites mpt' = news ++ mptWrites mpt
      /\ List.length news = List.length (filter zkLeaf nodes)
      /\ forallb isAccountWrite news = true
      /\ mptId mpt' = mptId mpt.
Proof.
  induction nodes as [|it rest IH]; intros mpt w mpt' w' H.
  - inversion H; subst. exists []. repeat split.
  - cbn [Sealer.migrateAccountLoop filter] in *.
    destruct (zkLeaf it) eqn:El; cbn [negb] in H;
      [|exact (IH _ _ _ _ H)].
    apply bind_inv in H as (pre & w1 & _ & H).
    apply bind_inv in H as (acc & w2 & _ & H).
    apply bind_inv in H as (r & w3 & _ & H).
    apply bind_inv in H as (mpt1 & w4 & Hu & H).
    rewrite UpdateAccount_run in Hu.
    inversion Hu; subst mpt1 w4; clear Hu.
    apply (IH _ _ _ _) in H as (news & Hwr & Hlen & Hacc & Hid).
    cbn [mptWrites mptId] in *.
    exists (news ++ [WAccount (BytesToAddress pre) (Sealer.setRoot acc r)]).
    split; [|split; [|split]].
    + now rewrite Hwr, <- app_assoc.
    + rewrite length_app. cbn [List.length]. lia.
    + rewrite forallb_app, Hacc. reflexivity.
    + exact Hid.
Qed.

End Writes.

(** X6. When the follower's walk over a storage zkTrie ends well, the
    store is as before and the MPT has at most one more write for every
    leaf position.  For a contract other than the devnet contract
    0x4200...0070 it has exactly one for every leaf, most recent first:
    under the preimage of the leaf key, [encodeToRlp] of the leaf value;
    for the devnet contract the leaves without a preimage are left out. *)
Theorem follower_storage_one_write_per_leaf (L : Lib)
  (m : Follower.migrator) (address : Address) (nodes : list ZkNode)
  (mpt mpt' : StateTrie) (w w' : World) :
  Follower.migrateStorageLoop L m address nodes mpt w = (Ok mpt', w') ->
  store w' = store w
  /\ List.length (mptWrites mpt')
     <= List.length (mptWrites mpt) + List.length (filter zkLeaf nodes)
  /\ (bytes_eqb address Follower.devnetContract = false ->
      exists slots,
        Forall2 (fun slot it =>
                   fst (Follower.readPreimage L m (zkLeafKey it) w) = Ok slot)
          slots (filter zkLeaf nodes)
        /\ mptWrites mpt'
           = rev (map followerStorageWrite
                    (combine slots (filter zkLeaf nodes))) ++ mptWrites mpt).
Proof.
  intros H.
  destruct (follower_storage_bound L m address nodes mpt w mpt' w' H)
    as [Hlen Hst].
  split; [exact Hst|]. split; [exact Hlen|].
  intros Hdev.
  destruct (follower_storage_writes L m address nodes Hdev mpt w mpt' w' H)
    as (slots & HF & Hwr & _ & _).
  exists slots. now split.
Qed.

(** X7. When the sealing program's walk over a storage zkTrie ends well,
    the store is as before and the MPT has exactly one more write for every
    leaf position, most recent first: under the preimage of the leaf key,
    the leaf value as it is. *)
Theorem sealer_storage_one_write_per_leaf (L : Lib)
  (m : Sealer.stateMigrator) (nodes : list ZkNode)
  (mpt mpt' : StateTrie) (w w' : World) :
  Sealer.migrateStorageLoop L m nodes mpt w = (Ok mpt', w') ->
  store w' = store w
  /\ exists slots,
       Forall2 (fun slot it =>
                  fst (Sealer.readPreimage L m (zkLeafKey it) w) = Ok slot)
         slots (filter zkLeaf nodes)
       /\ mptWrites mpt'
          = rev (map sealerStorageWrite
                   (combine slots (filter zkLeaf nodes))) ++ mptWrites mpt.
Proof.
  intros H.
  destruct (sealer_storage_writes L m nodes mpt w mpt' w' H)
    as (slots & HF & Hwr & _ & Hst).
  split; [exact Hst|]. exists slots. now split.
Qed.

(** X8. When a walk over the account zkTrie ends well, in either program,
    the account MPT has exactly one more write for every leaf position,
    each of them an account, and the id it was opened with. *)
Theorem account_one_write_per_leaf (L : Lib) (fm : Follower.migrator)
  (sm : Sealer.stateMigrator) (nodes : list ZkNode)
  (mpt mpt' : StateTrie) (w w' : World) :
  Follower.migrateAccountLoop L fm nodes mpt w = (Ok mpt', w')
  \/ Sealer.migrateAccountLoop L sm nodes mpt w = (Ok mpt', w') ->
  exists news,
    mptWrites mpt' = news ++ mptWrites mpt
    /\ List.length news = List.length (filter zkLeaf nodes)
    /\ forallb isAccountWrite news = true
    /\ mptId mpt' = mptId mpt.
Proof.
  intros [H | H].
  - exact (follower_account_writes L fm nodes mpt w mpt' w' H).
  - exact (sealer_account_writes L sm nodes mpt w mpt' w' H).
Qed.

Lemma follower_storage_one_write_per_leaf_witness :
  let w := Toy.world Toy.chainStore [] in
  let r := Follower.migrateStorageLoop Toy.lib Toy.follower
             (BytesToAddress [xbb]) Toy.storageNodes Toy.emptyStorageTrie w in
  let mpt' := mkStateTrie (mptId Toy.emptyStorageTrie)
                [WStorage Toy.slotKey [x82; xbe; xef]] in
  fst r = Ok mpt'
  /\ store (snd r) = store w
  /\ List.length (mptWrites mpt')
     <= List.length (mptWrites Toy.emptyStorageTrie)
        + List.length (filter zkLeaf Toy.storageNodes)
  /\ (bytes_eqb (BytesToAddress [xbb]) Follower.devnetContract = false ->
      exists slots,
        Forall2 (fun slot it =>
                   fst (Follower.readPreimage Toy.lib Toy.follower
                          (zkLeafKey it) w) = Ok slot)
          slots (filter zkLeaf Toy.storageNodes)
        /\ mptWrites mpt'
           = rev (map followerStorageWrite
                    (combine slots (filter zkLeaf Toy.storageNodes)))
             ++ mptWrites Toy.emptyStorageTrie).
Proof.
  intros w r mpt'.
  assert (H : r = (Ok mpt', snd r)) by (apply run_eq; vm_compute; reflexivity).
  split; [now rewrite H|].
  exact (follower_storage_one_write_per_leaf Toy.lib Toy.follower
           (BytesToAddress [xbb]) Toy.storageNodes Toy.emptyStorageTrie mpt'
           w (snd r) H).
Defined.

Lemma sealer_storage_one_write_per_leaf_witness :
  let w := Toy.world Toy.chainStore [] in
  let r := Sealer.migrateStorageLoop Toy.lib Toy.sealer Toy.storageNodes
             Toy.emptyStorageTrie w in
  let mpt' := mkStateTrie (mptId Toy.emptyStorageTrie)
                [WStorage Toy.slotKey Toy.slotValue] in
  fst r = Ok mpt'
  /\ store (snd r) = store w
  /\ exists slots,
       Forall2 (fun slot it =>
                  fst (Sealer.readPreimage Toy.lib Toy.sealer
                         (zkLeafKey it) w) = Ok slot)
         slots (filter zkLeaf Toy.storageNodes)
       /\ mptWrites mpt'
          = rev (map sealerStorageWrite
                   (combine slots (filter zkLeaf Toy.storageNodes)))
            ++ mptWrites Toy.emptyStorageTrie.
Proof.
  intros w r mpt'.
  assert (H : r = (Ok mpt', snd r)) by (apply run_eq; vm_compute; reflexivity).
  split; [now rewrite H|].
  exact (sealer_storage_one_write_per_leaf Toy.lib Toy.sealer
           Toy.storageNodes Toy.emptyStorageTrie mpt' w (snd r) H).
Defined.

Lemma account_one_write_per_leaf_witness :
  let w := Toy.world Toy.chainStore [] in
  let r := Follower.migrateAccountLoop Toy.lib Toy.follower Toy.accountNodes
             Toy.emptyAccountTrie w in
  fst r = Ok Toy.accountTrie
  /\ exists news,
       mptWrites Toy.accountTrie = news ++ mptWrites Toy.emptyAccountTrie
       /\ List.length news = List.length (filter zkLeaf Toy.accountNodes)
       /\ forallb isAccountWrite news = true
       /\ mptId Toy.accountTrie = mptId Toy.emptyAccountTrie.
Proof.
  intros w r.
  assert (H : r = (Ok Toy.accountTrie, snd r))
    by (apply run_eq; vm_compute; reflexivity).
  split; [now rewrite H|].
  exact (account_one_write_per_leaf Toy.lib Toy.follower Toy.sealer
           Toy.accountNodes Toy.emptyAccountTrie Toy.accountTrie w (snd r)
           (or_introl H)).
Defined.

(** ** Applying the delta of an account *)


Lemma bind_ret {A B} (a : A) (f : A -> M B) (w : World) :
  bind (ret a) f w = f a w.
Proof. reflexivity. Qed.


Lemma In_deleteKey (k k' : string) (v : Json) (ms : list (string * Json)) :
  In (k, v) ms -> k <> k' -> In (k, v) (Follower.deleteKey k' ms).
Proof.
  intros Hin Hk. unfold Follower.deleteKey. apply filter_In.
  split; [exact Hin|]. cbn [fst].
  destruct (String.eqb k k') eqn:E; [|reflexivity].
  apply String.eqb_eq in E. contradiction.
Qed.

(** X9. A delta with a member other than "balance", "nonce" and "storage"
    is never applied: [updateAccount] does not return an account for it. *)
Theorem updateAccount_unknown_key (L : Lib) (address : Address)
  (account : option StateAccount) (nextState : list (string * Json))
  (stateRoot : Hash) (w : World) (k : string) (v : Json) :
  In (k, v) nextState ->
  k <> "balance" -> k <> "nonce" -> k <> "storage" ->
  forall acc,
    fst (Follower.updateAccount L address account nextState stateRoot w)
    <> Ok acc.
Proof.
  intros Hin Hb Hn Hs acc Hr.
  destruct (Follower.updateAccount L address account nextState stateRoot w)
    as [r w'] eqn:H.
  cbn [fst] in Hr. subst r. unfold Follower.updateAccount in H.
  apply bind_inv in H as (an1 & w1 & H1 & H).
  apply bind_inv in H as (an2 & w2 & H2 & H).
  apply bind_inv in H as (an3 & w3 & H3 & H).
  assert (I1 : In (k, v) (snd an1)).
  { destruct (Follower.jsonField "balance" nextState) as [[| | |s| |]|];
      try discriminate.
    - destruct (hex_number (trim0x s)); [|discriminate].
      inversion H1; subst. cbn [snd]. now apply In_deleteKey.
    - inversion H1; subst. exact Hin. }
  assert (I2 : In (k, v) (snd an2)).
  { destruct (Follower.jsonField "nonce" (snd an1)) as [[| |f| | |]|];
      try discriminate.
    - inversion H2; subst. cbn [snd]. now apply In_deleteKey.
    - inversion H2; subst. exact I1. }
  assert (I3 : In (k, v) (snd an3)).
  { destruct (Follower.jsonField "storage" (snd an2)) as [storage|].
    - apply bind_inv in H3 as (mpt & wa & _ & H3).
      apply bind_inv in H3 as (entries & wb & _ & H3).
      apply bind_inv in H3 as (mpt' & wc & _ & H3).
      apply bind_inv in H3 as (r & wd & _ & H3).
      inversion H3; subst. cbn [snd]. now apply In_deleteKey.
    - inversion H3; subst. exact I2. }
  destruct (snd an3); [contradiction | discriminate].
Qed.

Lemma updateAccount_unknown_key_witness :
  fst (Follower.updateAccount Toy.lib (BytesToAddress [xbb]) None
         [("nonce", JNumber 5); ("code", JString "0x60")]
         (BytesToHash [xaa; x01]) (Toy.world Toy.chainStore []))
  = Panic "account"
  /\ forall acc,
       fst (Follower.updateAccount Toy.lib (BytesToAddress [xbb]) None
              [("nonce", JNumber 5); ("code", JString "0x60")]
              (BytesToHash [xaa; x01]) (Toy.world Toy.chainStore []))
       <> Ok acc.
Proof.
  split; [vm_compute; reflexivity|].
  apply (updateAccount_unknown_key Toy.lib (BytesToAddress [xbb]) None
           [("nonce", JNumber 5); ("code", JString "0x60")]
           (BytesToHash [xaa; x01]) (Toy.world Toy.chainStore [])
           "code" (JString "0x60")).
  - right. left. reflexivity.
  - discriminate.
  - discriminate.
  - discriminate.
Defined.



(** ** The chain client *)

Lemma bind_assoc {A B C} (m : M A) (f : A -> M B) (g : B -> M C)
  (w : World) :
  bind (bind m f) g w = bind m (fun a => bind (f a) g) w.
Proof. unfold bind. destruct (m w) as [[a|e|p] w1]; reflexivity. Qed.

Lemma bind_cong {A B} (m m' : M A) (f : A -> M B) (w : World) :
  (forall w0, m w0 = m' w0) -> bind m f w = bind m' f w.
Proof. intros H. unfold bind. now rewrite H. Qed.

(** X11. [eth_blockNumber] returns a number exactly when the next exchange
    has a body that decodes to an answer with a result and no error; the
    number is the result cut to 64 bits, and that one exchange is consumed.
    In every other case it panics: it never returns an error. *)
Theorem eth_blockNumber_returns (L : Lib) (w : World) :
  (forall n w',
     Follower.eth_blockNumber L w = (Ok n, w')
     <-> exists b rest head,
           net w = Body b :: rest
           /\ unmarshalBigResponse L b = Some (mkBigResponse (Some head) None)
           /\ n = uint64 head
           /\ w' = mkWorld (store w) (merged w) rest
                     (log w ++ [EvPost "eth_blockNumber" None]))
  /\ (forall n w', Follower.eth_blockNumber L w = (Ok n, w') ->
        (n < 2 ^ 64)%N)
  /\ (forall e, fst (Follower.eth_blockNumber L w) <> Err e).
Proof.
  assert (Hchar : forall n w',
            Follower.eth_blockNumber L w = (Ok n, w') ->
            exists b rest head,
              net w = Body b :: rest
              /\ unmarshalBigResponse L b
                 = Some (mkBigResponse (Some head) None)
              /\ n = uint64 head
              /\ w' = mkWorld (store w) (merged w) rest
                        (log w ++ [EvPost "eth_blockNumber" None])).
  { intros n w' H. unfold Follower.eth_blockNumber in H.
    apply bind_inv in H as (r & w1 & H1 & H).
    apply must1_inv in H1. unfold Follower.send in H1.
    apply bind_inv in H1 as (b & w2 & Hp & H1).
    unfold Follower.post, bind, emit in Hp. cbn [net store merged log] in Hp.
    destruct (net w) as [|[| |b0] rest] eqn:En; try discriminate.
    inversion Hp; subst b0 w2; clear Hp.
    destruct (unmarshalBigResponse L b) as [[res err]|] eqn:Eu;
      [|discriminate].
    cbn [respError respResult] in H1.
    destruct err; [discriminate|]. inversion H1; subst r w1; clear H1.
    destruct res as [head|]; [|discriminate].
    inversion H; subst. exists b, rest, head.
    split; [reflexivity|]. split; [exact Eu|]. split; reflexivity. }
  split; [|split].
  - intros n w'. split; [apply Hchar|].
    intros (b & rest & head & Hn & Hu & -> & ->).
    exact (eth_blockNumber_answer L w b rest head Hn Hu).
  - intros n w' H. apply Hchar in H as (_ & _ & head & _ & _ & -> & _).
    unfold uint64. apply N.mod_upper_bound. discriminate.
  - intros e H. unfold Follower.eth_blockNumber in H.
    unfold bind at 1 in H. unfold must1 in H.
    destruct (Follower.send L "eth_blockNumber" w) as [[[n|]|e'|p] w1];
      discriminate.
Qed.

Lemma eth_blockNumber_returns_witness :
  Follower.eth_blockNumber Toy.lib (Toy.world Toy.chainStore [Body [x09]])
  = (Ok 9%N, mkWorld Toy.chainStore [] [] [EvPost "eth_blockNumber" None]).
Proof.
  apply (proj1 (eth_blockNumber_returns Toy.lib
                  (Toy.world Toy.chainStore [Body [x09]]))).
  exists [x09], [], 9%N. repeat split.
Defined.

(** ** The trace of a block *)

Section TraceRuns.
Context (L : Lib) {A : Type}
  (callback : Address -> list (string * Json) -> A -> M A).

Lemma forEachAccount_app (p q : list (string * Json)) :
  forall a w,
    Follower.forEachAccount callback (p ++ q) a w
    = bind (Follower.forEachAccount callback p a)
        (fun a' => Follower.forEachAccount callback q a') w.
Proof.
  induction p as [|[address state] rest IH]; intros a w; [reflexivity|].
  cbn [app Follower.forEachAccount].
  rewrite bind_assoc. apply bind_ext. intros st w1.
  rewrite bind_assoc. apply bind_ext. intros a' w2. apply IH.
Qed.

Lemma forEachTx_cons (tx : Json) (p : list (string * Json))
  (rest : list Json) (a : A) (w : World) :
  txPostState tx = Some p ->
  Follower.forEachTx callback (tx :: rest) a w
  = bind (Follower.forEachAccount callback p a)
      (fun a' => Follower.forEachTx callback rest a') w.
Proof.
  intros H. unfold txPostState in H.
  destruct tx as [| | | | |t]; try discriminate.
  cbn [Follower.forEachTx Follower.asObject]. rewrite bind_ret.
  destruct (Follower.jsonField "result" t) as [[| | | | |r]|];
    try discriminate.
  cbn [Follower.asObject]. rewrite bind_ret.
  destruct (Follower.jsonField "post" r) as [[| | | | |p0]|];
    try discriminate.
  cbn [Follower.asObject]. rewrite bind_ret. now inversion H.
Qed.

Lemma forEachTx_malformed (tx : Json) (rest : list Json) (a : A)
  (w : World) :
  txPostState tx = None ->
  Follower.forEachTx callback (tx :: rest) a w
  = (Panic "interface conversion", w).
Proof.
  intros H. unfold txPostState in H.
  cbn [Follower.forEachTx Follower.asObject].
  destruct tx as [| | | | |t]; try reflexivity.
  rewrite bind_ret.
  destruct (Follower.jsonField "result" t) as [[| | | | |r]|];
    cbn [Follower.asObject]; try reflexivity.
  rewrite bind_ret.
  destruct (Follower.jsonField "post" r) as [[| | | | |p0]|];
    cbn [Follower.asObject]; try reflexivity.
  discriminate.
Qed.

Lemma forEachTx_concat (txs : list Json) :
  forall posts a w,
    map txPostState txs = map Some posts ->
    Follower.forEachTx callback txs a w
    = Follower.forEachAccount callback (List.concat posts) a w.
Proof.
  induction txs as [|tx rest IH]; intros posts a w H.
  - destruct posts; [reflexivity | discriminate].
  - destruct posts as [|p posts]; [discriminate|].
    cbn [map] in H. inversion H as [[Hp Hrest]].
    rewrite (forEachTx_cons tx p rest a w Hp).
    cbn [List.concat]. rewrite forEachAccount_app.
    apply bind_ext. intros a' w1. now apply IH.
Qed.

Lemma forEachTx_first_malformed (good : list Json) :
  forall posts bad rest a w,
    map txPostState good = map Some posts ->
    txPostState bad = None ->
    Follower.forEachTx callback (good ++ bad :: rest) a w
    = bind (Follower.forEachAccount callback (List.concat posts) a)
        (fun _ => panic "interface conversion") w.
Proof.
  induction good as [|tx good IH]; intros posts bad rest a w H Hbad.
  - destruct posts; [|discriminate]. cbn [app List.concat].
    now apply forEachTx_malformed.
  - destruct posts as [|p posts]; [discriminate|].
    cbn [map] in H. inversion H as [[Hp Hrest]].
    cbn [app]. rewrite (forEachTx_cons tx p _ a w Hp).
    cbn [List.concat].
    rewrite (bind_cong _ _ _ w (forEachAccount_app p (List.concat posts) a)).
    rewrite bind_assoc. apply bind_ext. intros a' w1. now apply IH.
Qed.

End TraceRuns.

(** X12. [debug_traceBlockByNumber] calls back once for every account of
    the post-state of every transaction, the transactions in the order of
    the answer: when each transaction has the shape result/post, the run is
    the run over the post-states put end to end (within one post-state the
    order is that of the list that stands for the Go map, whose iteration
    order is not fixed).  At the first transaction of another shape it
    panics, after the callbacks for the transactions before it. *)
Theorem debug_traceBlockByNumber_callbacks (L : Lib) {A : Type}
  (callback : Address -> list (string * Json) -> A -> M A)
  (blockNumber : N) (a : A) (w : World) (b : bytes) (rest : list Exchange)
  (result : list (string * Json)) (txs : list Json) :
  net w = Body b :: rest ->
  unmarshalObject L b = Some result ->
  Follower.jsonField "result" result = Some (JArray txs) ->
  let w1 := mkWorld (store w) (merged w) rest
              (log w ++ [EvPost "debug_traceBlockByNumber"
                           (Some blockNumber)]) in
  (forall posts,
     map txPostState txs = map Some posts ->
     Follower.debug_traceBlockByNumber L callback blockNumber a w
     = Follower.forEachAccount callback (List.concat posts) a w1)
  /\ (forall good posts bad rest',
        txs = good ++ bad :: rest' ->
        map txPostState good = map Some posts ->
        txPostState bad = None ->
        Follower.debug_traceBlockByNumber L callback blockNumber a w
        = bind (Follower.forEachAccount callback (List.concat posts) a)
            (fun _ => panic "interface conversion") w1).
Proof.
  intros Hn Hu Hr w1.
  assert (H : Follower.debug_traceBlockByNumber L callback blockNumber a w
              = Follower.forEachTx callback txs a w1).
  { unfold Follower.debug_traceBlockByNumber.
    rewrite (bind_ok _ _ _ _ _
               (post_body "debug_traceBlockByNumber" (Some blockNumber)
                  w b rest Hn)).
    rewrite Hu, Hr. reflexivity. }
  split.
  - intros posts Hp. rewrite H. now apply forEachTx_concat.
  - intros good posts bad rest' -> Hp Hb. rewrite H.
    now apply forEachTx_first_malformed.
Qed.

Lemma debug_traceBlockByNumber_callbacks_witness :
  let w := Toy.world Toy.chainStore [Body [x01]] in
  let w1 := mkWorld Toy.chainStore [] []
              [EvPost "debug_traceBlockByNumber" (Some 7%N)] in
  Follower.debug_traceBlockByNumber Toy.lib Toy.recordAddress 7 [] w
  = Follower.forEachAccount Toy.recordAddress
      (List.concat [Toy.tracePost]) [] w1
  /\ Follower.forEachAccount Toy.recordAddress
       (List.concat [Toy.tracePost]) [] w1
     = (Ok [HexToAddress "0xbbbbbbbbbbbbbbbbbbbbbbbbbbbbbbbbbbbbbbbb"], w1).
Proof.
  intros w w1. split; [|reflexivity].
  apply (proj1 (debug_traceBlockByNumber_callbacks Toy.lib Toy.recordAddress
                  7 [] w [x01] []
                  [("result",
                    JArray [JObject [("result",
                      JObject [("post", JObject Toy.tracePost)])]])]
                  [JObject [("result",
                      JObject [("post", JObject Toy.tracePost)])]]
                  eq_refl eq_refl eq_refl)).
  reflexivity.
Defined.

(** ** Polling *)

Section Polling.
Context (L : Lib).

Lemma iteration_behind (root : migrationRoot) (w : World) (x : Exchange)
  (rest : list Exchange) :
  net w = x :: rest -> behind L root x ->
  Follower.iteration L root w
  = (Ok root,
     mkWorld (store w) (merged w) rest
       (log w ++ [EvPost "eth_blockNumber" None; EvSleep 2])).
Proof.
  intros Hn (b & head & -> & Hb & Hlt).
  pose proof (eth_blockNumber_answer L w b rest head Hn Hb) as H.
  unfold Follower.iteration, Follower.applyNewStateTransition.
  unfold bind at 1. unfold bind at 1. rewrite H.
  apply N.leb_gt in Hlt. rewrite Hlt.
  unfold ret, bind, emit. cbn [store merged net log].
  now rewrite <- !app_assoc.
Qed.

End Polling.

(** X13. While the answers of the node put the head below the checkpoint,
    the follower only asks and sleeps: after [n] such answers the loop
    still holds the same checkpoint, the store is untouched, and the log
    has [n] times a request and a sleep of two seconds. *)
Theorem follower_waits_for_head (L : Lib) (root : migrationRoot) (n : nat) :
  forall w,
    n <= List.length (net w) ->
    Forall (behind L root) (firstn n (net w)) ->
    Follower.loop L n root w
    = (Ok root,
       mkWorld (store w) (merged w) (skipn n (net w))
         (log w ++ List.concat
                     (repeat [EvPost "eth_blockNumber" None; EvSleep 2] n))).
Proof.
  induction n as [|n IH]; intros w Hlen HF.
  - cbn. rewrite app_nil_r. now destruct w.
  - destruct (net w) as [|x rest] eqn:En; [cbn in Hlen; lia|].
    cbn [firstn] in HF. inversion HF as [|? ? Hx Hrest]; subst.
    cbn [Follower.loop].
    rewrite (bind_ok _ _ _ _ _ (iteration_behind L root w x rest En Hx)).
    rewrite IH; cbn [net store merged log].
    + cbn [skipn repeat List.concat]. now rewrite <- app_assoc.
    + cbn [List.length] in Hlen. lia.
    + exact Hrest.
Qed.

Lemma follower_waits_for_head_witness :
  Follower.loop Toy.lib 2 Toy.checkpoint7
    (Toy.world Toy.resumeStore [Body [x05]; Body [x06]; Body [x09]])
  = (Ok Toy.checkpoint7,
     mkWorld Toy.resumeStore [] [Body [x09]]
       [EvPost "eth_blockNumber" None; EvSleep 2;
        EvPost "eth_blockNumber" None; EvSleep 2]).
Proof.
  apply (follower_waits_for_head Toy.lib Toy.checkpoint7 2
           (Toy.world Toy.resumeStore [Body [x05]; Body [x06]; Body [x09]])).
  - cbn. lia.
  - cbn [firstn Toy.world net]. constructor; [|constructor; [|constructor]].
    + exists [x05], 5%N. repeat split.
    + exists [x06], 6%N. repeat split.
Defined.

(** ** The first migration and the restart *)

Section QuietMigration.
Context (L : Lib) (m : Follower.migrator).

Lemma quiet_dbGet (k : bytes) : quiet (dbGet k).
Proof. unfold dbGet. repeat quiet_step. Qed.

Lemma quiet_follower_readPreimage (key : bytes) :
  quiet (Follower.readPreimage L m key).
Proof.
  unfold Follower.readPreimage.
  destruct (Follower.genesisAccount m _); [quiet_step|].
  destruct (Follower.genesisStorage m _); [quiet_step|].
  repeat quiet_step.
  destruct (MustNewSecureHash L _); [|quiet_step].
  destruct (bytes_eqb _ _); quiet_step.
Qed.

Lemma quiet_checkNodes (nodes : list MptNode) :
  quiet (Follower.checkNodes L nodes).
Proof.
  induction nodes as [|n rest IH]; cbn [Follower.checkNodes].
  - quiet_step.
  - destruct (negb (nodeLeaf n)); [exact IH|].
    quiet_step; [apply quiet_dbGet|].
    destruct a as [|x t]; [exact IH|].
    destruct (NewTreeNodeFromBlob L (x :: t)); [quiet_step | exact IH].
Qed.

Lemma quiet_checkHashCollision (t : StateTrie) :
  quiet (Follower.checkHashCollision L t).
Proof.
  unfold Follower.checkHashCollision. repeat quiet_step.
  apply quiet_checkNodes.
Qed.

Lemma quiet_openZkIterator (root : Hash) :
  quiet (Follower.openZkIterator L root).
Proof.
  unfold Follower.openZkIterator, OpenZkIterator. repeat quiet_step.
Qed.

Lemma quiet_follower_migrateStorageLoop (address : Address)
  (nodes : list ZkNode) :
  forall mpt, quiet (Follower.migrateStorageLoop L m address nodes mpt).
Proof.
  induction nodes as [|it rest IH]; intros mpt;
    cbn [Follower.migrateStorageLoop].
  - quiet_step.
  - destruct (negb (zkLeaf it)); [apply IH|].
    intros w r w' H.
    destruct (Follower.readPreimage L m (zkLeafKey it) w)
      as [[slot|e|p] w1] eqn:E.
    + destruct (quiet_follower_readPreimage _ _ _ _ E) as (e1 & L1 & F1).
      assert (Q : quiet (mpt' <- UpdateStorage mpt slot
                                   (encodeToRlp (zkLeafBlob it)) ;;
                         Follower.migrateStorageLoop L m address rest mpt')).
      { repeat quiet_step; [apply quiet_UpdateStorage | apply IH]. }
      destruct (Q _ _ _ H) as (e2 & L2 & F2).
      exists (e1 ++ e2). split; [now rewrite L2, L1, app_assoc|].
      now apply Forall_app.
    + destruct (quiet_follower_readPreimage _ _ _ _ E) as (e1 & L1 & F1).
      destruct (bytes_eqb address Follower.devnetContract).
      * assert (Q : quiet (emit (EvPrintln "slot migration failed. ignore") ;;;
                           Follower.migrateStorageLoop L m address rest mpt)).
        { repeat quiet_step. apply IH. }
        destruct (Q _ _ _ H) as (e2 & L2 & F2).
        exists (e1 ++ e2). split; [now rewrite L2, L1, app_assoc|].
        now apply Forall_app.
      * inversion H; subst. now exists e1.
    + inversion H; subst. exact (quiet_follower_readPreimage _ _ _ _ E).
Qed.

Lemma quiet_follower_migrateStorage (address : Address) (root : Hash) :
  quiet (Follower.migrateStorage L m address root).
Proof.
  unfold Follower.migrateStorage.
  destruct (bytes_eqb root (EmptyZkRootHash L)); repeat quiet_step.
  - apply quiet_newMPT.
  - apply quiet_openZkIterator.
  - apply quiet_follower_migrateStorageLoop.
  - apply quiet_checkHashCollision.
  - apply quiet_commit.
Qed.

Lemma quiet_follower_migrateAccountLoop (nodes : list ZkNode) :
  forall mpt, quiet (Follower.migrateAccountLoop L m nodes mpt).
Proof.
  induction nodes as [|it rest IH]; intros mpt;
    cbn [Follower.migrateAccountLoop].
  - quiet_step.
  - destruct (negb (zkLeaf it)); [apply IH|].
    repeat quiet_step.
    + apply quiet_follower_readPreimage.
    + apply quiet_follower_migrateStorage.
    + apply quiet_UpdateAccount.
    + apply IH.
Qed.

Lemma quiet_follower_migrateAccount : quiet (Follower.migrateAccount L m).
Proof.
  unfold Follower.migrateAccount. repeat quiet_step.
  destruct (ReadHeadHeader a); repeat quiet_step.
  - apply quiet_newMPT.
  - apply quiet_openZkIterator.
  - apply quiet_follower_migrateAccountLoop.
  - apply quiet_checkHashCollision.
  - apply quiet_commit.
Qed.

(** The record that [migrateAccount] returns has the number of the head
    header in 64 bits. *)
Lemma follower_migrateAccount_number (w w' : World) (r : migrationRoot) :
  Follower.migrateAccount L m w = (Ok r, w') ->
  exists header,
    ReadHeadHeader (store w) = Some header
    /\ rootNumber r = uint64 (Number header).
Proof.
  unfold Follower.migrateAccount. intros H.
  apply bind_inv in H as (s & w0 & Hs & H). inversion Hs; subst; clear Hs.
  destruct (ReadHeadHeader (store w0)) as [header|]; [|discriminate].
  exists header. split; [reflexivity|].
  apply bind_inv in H as (mpt & w1 & _ & H).
  apply bind_inv in H as (nodes & w2 & _ & H).
  apply bind_inv in H as (mpt' & w3 & _ & H).
  apply bind_inv in H as ([] & w4 & _ & H).
  apply bind_inv in H as (root & w5 & _ & H).
  now inversion H.
Qed.

Lemma dbGet_checkpoint (w : World) :
  dbGet Follower.checkpointKey w
  = (Ok match store w (KRaw Follower.checkpointKey) with
        | Some (VBytes b) => b
        | _ => []
        end,
     mkWorld (store w) (merged w) (net w)
       (log w ++ [EvDbGet (KRaw Follower.checkpointKey)])).
Proof. reflexivity. Qed.

(** [startup] on a store whose checkpoint is the marshalled [r]. *)
Lemma startup_resumes (w : World) (r : migrationRoot) :
  store w (KRaw Follower.checkpointKey) = Some (VBytes (marshalRoot L r)) ->
  marshalRoot L r <> [] ->
  unmarshalRoot L (marshalRoot L r) = (Some r, false) ->
  Follower.startup L m w
  = (Ok r, mkWorld (store w) (merged w) (net w)
             (log w ++ [EvDbGet (KRaw Follower.checkpointKey)])).
Proof.
  intros Hs Hne Hrt. unfold Follower.startup.
  rewrite (bind_ok _ _ _ _ _ (dbGet_checkpoint w)). rewrite Hs.
  destruct (marshalRoot L r) as [|x t] eqn:E; [contradiction|].
  unfold bind. rewrite Hrt. reflexivity.
Qed.

End QuietMigration.

(** X14. The first migration writes its checkpoint last.  When the
    migration-root key is absent, a run of [startup] that returns has read
    the key, migrated the accounts of the head header without a write
    through [db.Put], and then written the record, whose number is the
    number of the head header in 64 bits; a run that ends in a panic or an
    error has made no such write at all. *)
Theorem first_migration_checkpoint (L : Lib) (m : Follower.migrator)
  (w w' : World) (res : Res migrationRoot) :
  store w (KRaw Follower.checkpointKey) = None ->
  Follower.startup L m w = (res, w') ->
  exists pre,
    Forall (fun e => isPut e = false) pre
    /\ match res with
       | Ok r =>
           (exists header,
              ReadHeadHeader (store w) = Some header
              /\ rootNumber r = uint64 (Number header))
           /\ log w' = log w ++ EvDbGet (KRaw Follower.checkpointKey) :: pre
                         ++ [EvDbPut (KRaw Follower.checkpointKey)
                               (VBytes (marshalRoot L r))]
           /\ store w' (KRaw Follower.checkpointKey)
              = Some (VBytes (marshalRoot L r))
       | _ => log w' = log w ++ EvDbGet (KRaw Follower.checkpointKey) :: pre
       end.
Proof.
  intros Habs H. unfold Follower.startup in H.
  rewrite (bind_ok _ _ _ _ _ (dbGet_checkpoint w)) in H. rewrite Habs in H.
  unfold bind at 1 in H. unfold ret at 1 in H.
  unfold bind at 1 in H.
  match type of H with
  | context [Follower.migrateAccount L m ?v] => set (w0 := v) in *
  end.
  destruct (Follower.migrateAccount L m w0) as [[r|e|p] w1] eqn:E.
  - destruct (quiet_follower_migrateAccount L m _ _ _ E) as (pre & Lg & F).
    destruct (follower_migrateAccount_number L m _ _ _ E) as (header & Hh & Hn).
    unfold bind at 1 in H. rewrite putCheckpoint_run in H.
    inversion H; subst res w'; clear H. exists pre. split; [exact F|].
    split; [exists header; now split|].
    cbn [log store]. split.
    + rewrite Lg. unfold w0. cbn [log]. now rewrite <- !app_assoc.
    + apply store_put_same.
  - destruct (quiet_follower_migrateAccount L m _ _ _ E) as (pre & Lg & F).
    inversion H; subst res w'; clear H. exists pre. split; [exact F|].
    rewrite Lg. unfold w0. cbn [log]. now rewrite <- !app_assoc.
  - destruct (quiet_follower_migrateAccount L m _ _ _ E) as (pre & Lg & F).
    inversion H; subst res w'; clear H. exists pre. split; [exact F|].
    rewrite Lg. unfold w0. cbn [log]. now rewrite <- !app_assoc.
Qed.

Lemma first_migration_checkpoint_witness :
  let w := Toy.world Toy.chainStore [] in
  let r := Follower.startup Toy.lib Toy.follower w in
  fst r = Ok (mkMigrationRoot (BytesToHash [xaa; x01]) 7)
  /\ exists pre,
    Forall (fun e => isPut e = false) pre
    /\ match fst r with
       | Ok root =>
           (exists header,
              ReadHeadHeader (store w) = Some header
              /\ rootNumber root = uint64 (Number header))
           /\ log (snd r)
              = log w ++ EvDbGet (KRaw Follower.checkpointKey) :: pre
                  ++ [EvDbPut (KRaw Follower.checkpointKey)
                        (VBytes (marshalRoot Toy.lib root))]
           /\ store (snd r) (KRaw Follower.checkpointKey)
              = Some (VBytes (marshalRoot Toy.lib root))
       | _ => log (snd r)
              = log w ++ EvDbGet (KRaw Follower.checkpointKey) :: pre
       end.
Proof.
  intros w r. split; [vm_compute; reflexivity|].
  apply (first_migration_checkpoint Toy.lib Toy.follower w (snd r) (fst r)).
  - reflexivity.
  - unfold r. now destruct (Follower.startup Toy.lib Toy.follower w).
Defined.

(** X15. A second start finds what the first one left.  If [startup]
    returned the record [r], and the marshalled [r] is not empty and decodes
    to [r] again, then [startup] on the world it left returns [r] once more:
    the key is read, nothing is migrated and nothing is written; at most
    the message on the format is printed again. *)
Theorem startup_twice (L : Lib) (m : Follower.migrator) (w w' : World)
  (r : migrationRoot) :
  marshalRoot L r <> [] ->
  unmarshalRoot L (marshalRoot L r) = (Some r, false) ->
  Follower.startup L m w = (Ok r, w') ->
  exists msgs,
    Follower.startup L m w'
    = (Ok r, mkWorld (store w') (merged w') (net w')
               (log w' ++ EvDbGet (KRaw Follower.checkpointKey) :: msgs))
    /\ (msgs = [] \/ msgs = [EvPrintln "invalid migration-root format"]).
Proof.
  intros Hne Hrt H.
  assert (Hcase :
    store w' (KRaw Follower.checkpointKey) = Some (VBytes (marshalRoot L r))
    \/ (store w' = store w
        /\ exists b flag,
             match store w (KRaw Follower.checkpointKey) with
             | Some (VBytes b) => b
             | _ => []
             end = b
             /\ b <> [] /\ unmarshalRoot L b = (Some r, flag))).
  { unfold Follower.startup in H.
    rewrite (bind_ok _ _ _ _ _ (dbGet_checkpoint w)) in H.
    set (b := match store w (KRaw Follower.checkpointKey) with
              | Some (VBytes b) => b
              | _ => []
              end) in *.
    assert (Hmig : forall w0 : World,
              (r0 <- Follower.migrateAccount L m ;;
               Follower.putCheckpoint L r0 ;;; ret r0) w0 = (Ok r, w') ->
              store w' (KRaw Follower.checkpointKey)
              = Some (VBytes (marshalRoot L r))).
    { intros w0 Hm. apply bind_inv in Hm as (r0 & w1 & _ & Hm).
      unfold bind at 1 in Hm. rewrite putCheckpoint_run in Hm.
      inversion Hm; subst. apply store_put_same. }
    destruct b as [|x t] eqn:Eb.
    - left. unfold bind at 1 in H. unfold ret at 1 in H. exact (Hmig _ H).
    - unfold bind at 1 in H. cbv beta iota zeta in H.
      destruct (unmarshalRoot L (x :: t)) as [[r0|] flag] eqn:Eu;
        cbn [fst snd] in H.
      + right.
        destruct flag.
        * unfold bind at 1 in H. unfold emit at 1 in H.
          unfold ret at 1 2 in H. inversion H; subst. cbn [store].
          split; [reflexivity|]. exists (x :: t), true.
          split; [reflexivity|]. split; [discriminate | exact Eu].
        * unfold ret at 1 2 in H. inversion H; subst. cbn [store].
          split; [reflexivity|]. exists (x :: t), false.
          split; [reflexivity|]. split; [discriminate | exact Eu].
      + left.
        destruct flag.
        * unfold bind at 1 in H. unfold emit at 1 in H.
          unfold ret at 1 in H. exact (Hmig _ H).
        * unfold ret at 1 in H. exact (Hmig _ H). }
  destruct Hcase as [Hs | (Hs & b & flag & Hb & Hnb & Hu)].
  - exists []. split; [|now left].
    exact (startup_resumes L m w' r Hs Hne Hrt).
  - unfold Follower.startup.
    rewrite (bind_ok _ _ _ _ _ (dbGet_checkpoint w')). rewrite Hs, Hb.
    destruct b as [|x t]; [contradiction|].
    destruct flag.
    + exists [EvPrintln "invalid migration-root format"].
      split; [|now right].
      unfold bind at 1. rewrite Hu. cbn [fst snd].
      unfold bind at 1. unfold emit. unfold ret. cbn [store merged net log].
      now rewrite <- app_assoc.
    + exists []. split; [|now left].
      unfold bind. rewrite Hu. reflexivity.
Qed.

Lemma startup_twice_witness :
  let w := Toy.world Toy.chainStore [] in
  let root := mkMigrationRoot (BytesToHash [xaa; x01]) 7 in
  let w' := snd (Follower.startup Toy.lib Toy.follower w) in
  exists msgs,
    Follower.startup Toy.lib Toy.follower w'
    = (Ok root, mkWorld (store w') (merged w') (net w')
                  (log w' ++ EvDbGet (KRaw Follower.checkpointKey) :: msgs))
    /\ (msgs = [] \/ msgs = [EvPrintln "invalid migration-root format"]).
Proof.
  intros w root w'.
  apply (startup_twice Toy.lib Toy.follower w w' root).
  - vm_compute. discriminate.
  - vm_compute. reflexivity.
  - apply (run_eq (Follower.startup Toy.lib Toy.follower w) (Ok root)).
    vm_compute. reflexivity.
Defined.

(** X16. A restart after a turn that advanced resumes from the record of
    that turn: when the marshalled record is not empty and decodes to the
    record again, [start] on the world that the turn left reads the key and
    goes on with the loop from that record; no account is migrated. *)
Theorem restart_after_turn (L : Lib) (m : Follower.migrator)
  (root next : migrationRoot) (w w1 : World) (turns : nat) :
  marshalRoot L next <> [] ->
  unmarshalRoot L (marshalRoot L next) = (Some next, false) ->
  Follower.applyNewStateTransition L root w = (Ok (Some next), w1) ->
  exists w2,
    Follower.iteration L root w = (Ok next, w2)
    /\ Follower.start L m turns w2
       = Follower.loop L turns next
           (mkWorld (store w2) (merged w2) (net w2)
              (log w2 ++ [EvDbGet (KRaw Follower.checkpointKey)])).
Proof.
  intros Hne Hrt H.
  set (w2 := mkWorld (store_put (KRaw Follower.checkpointKey)
                        (VBytes (marshalRoot L next)) (store w1))
               (merged w1) (net w1)
               (log w1 ++ [EvDbPut (KRaw Follower.checkpointKey)
                             (VBytes (marshalRoot L next))])).
  exists w2. split.
  - unfold Follower.iteration. rewrite (bind_ok _ _ _ _ _ H).
    cbv beta iota. unfold bind at 1. rewrite putCheckpoint_run. reflexivity.
  - assert (Hs : store w2 (KRaw Follower.checkpointKey)
                 = Some (VBytes (marshalRoot L next)))
      by apply store_put_same.
    unfold Follower.start.
    now rewrite (bind_ok _ _ _ _ _ (startup_resumes L m w2 next Hs Hne Hrt)).
Qed.

Lemma restart_after_turn_witness :
  let w := Toy.world Toy.resumeStore [Body [x09]; Body [x01]] in
  let next := mkMigrationRoot (BytesToHash [xaa; x01]) 8 in
  exists w2,
    Follower.iteration Toy.lib Toy.checkpoint7 w = (Ok next, w2)
    /\ Follower.start Toy.lib Toy.follower 0 w2
       = Follower.loop Toy.lib 0 next
           (mkWorld (store w2) (merged w2) (net w2)
              (log w2 ++ [EvDbGet (KRaw Follower.checkpointKey)])).
Proof.
  intros w next.
  apply (restart_after_turn Toy.lib Toy.follower Toy.checkpoint7 next w
           (snd (Follower.applyNewStateTransition Toy.lib Toy.checkpoint7 w))
           0).
  - vm_compute. discriminate.
  - vm_compute. reflexivity.
  - apply (run_eq (Follower.applyNewStateTransition Toy.lib Toy.checkpoint7 w)
             (Ok (Some next))).
    vm_compute. reflexivity.
Defined.

(** ** The outcomes of the sealing step *)

Section SealOutcomes.
Context (L : Lib).

(** The three outcomes of a run on a head without the sentinel: an error
    returned before the first write, a stop at the chain configuration with
    the block written, and the result with the configuration rewritten. *)
Lemma seal_fresh_outcome (stateRoot : Hash) (w w' : World)
  (r : Res Sealer.MigrationResult) (num : N) (header : Header) :
  ReadHeaderNumber (store w) (ReadHeadHeaderHash (store w)) = Some num ->
  ReadHeader (store w) (ReadHeadHeaderHash (store w)) num = Some header ->
  bytes_eqb (Extra header) Sealer.BedrockTransitionBlockExtraData = false ->
  Sealer.migrateHeadAndGenesis L stateRoot w = (r, w') ->
  (exists e, r = Err e /\ store w' = store w)
  \/ exists newRoot s0,
       let b := Sealer.NewBlock L (Sealer.bedrockHeaderOf L header newRoot) in
       let s9 := transitionStore L b s0 in
       let g := Sealer.ReadCanonicalHash s9 0 in
       match Sealer.ReadChainConfig s9 g with
       | None => r = Panic "chain config not found" /\ store w' = s9
       | Some cfg =>
           match Kroma cfg with
           | None => r = Panic "nil pointer dereference" /\ store w' = s9
           | Some kroma =>
               r = Ok (Sealer.mkMigrationResult (Sealer.NumberU64 b) (Time b)
                         (HeaderHash L b))
               /\ store w'
                  = store_put (KChainConfig g)
                      (VConfig (Sealer.rewriteConfig cfg kroma (Number b))) s9
           end
       end.
Proof.
  intros Hn Hh Hx. unfold Sealer.migrateHeadAndGenesis.
  unfold bind at 1. unfold getStore at 1. rewrite Hn, Hh.
  change (Nat.ltb 32 (List.length Sealer.BedrockTransitionBlockExtraData))
    with false.
  cbv iota. rewrite Hx.
  unfold bind at 1.
  destruct (stateNew L (store w) stateRoot).
  2:{ intros H. inversion H; subst. left. now eexists. }
  unfold ret at 1. unfold bind at 1.
  destruct (stateCommit L (store w) stateRoot) as [[newRoot set]|].
  2:{ intros H. inversion H; subst. left. now eexists. }
  simpl liftOption. unfold ret at 1. simpl fst. simpl snd.
  unfold bind at 1. unfold DbUpdate.
  destruct (dbUpdate L newRoot set).
  2:{ intros H. inversion H; subst. left. now eexists. }
  unfold bind at 1. unfold emit at 1.
  remember (Sealer.NewBlock L (Sealer.bedrockHeaderOf L header newRoot))
    as b eqn:Hb.
  unfold bind at 1. unfold DbCommit at 1. cbn [store merged net log].
  destruct (dbCommit L (store w) (merged w ++ [(newRoot, set)]) newRoot)
    as [s0|].
  2:{ intros H. inversion H; subst r w'. left. now eexists. }
  put_step. unfold Sealer.WriteBlock.
  unfold bind at 1. unfold bind at 1. rewrite dbPut_run.
  cbn [store merged net log]. put_step.
  rewrite dbPut_run. cbn [store merged net log]. do 6 put_step.
  unfold bind at 1. unfold getStore at 1. cbn [store merged net log].
  intros H. right. exists newRoot, s0. cbv zeta. rewrite <- Hb.
  fold (transitionStore L b s0) in H |- *.
  destruct (Sealer.ReadChainConfig (transitionStore L b s0)
              (Sealer.ReadCanonicalHash (transitionStore L b s0) 0))
    as [cfg|].
  2:{ inversion H; subst r w'. now split. }
  destruct (Kroma cfg) as [kroma|].
  2:{ inversion H; subst r w'. now split. }
  rewrite bind_dbPut in H. cbn [store merged net log] in H.
  unfold ret in H. inversion H; subst r w'. now split.
Qed.

(** What the reads of the head find once the block is written. *)
Lemma transition_head (b : Header) (s : Store) :
  let s' := transitionStore L b s in
  ReadHeadHeaderHash s' = HeaderHash L b
  /\ ReadHeaderNumber s' (HeaderHash L b) = Some (Sealer.NumberU64 b)
  /\ ReadHeader s' (HeaderHash L b) (Sealer.NumberU64 b) = Some b.
Proof.
  unfold transitionStore, ReadHeadHeaderHash, ReadHeaderNumber, ReadHeader,
    store_put.
  cbn [key_eqb]. rewrite !N.eqb_refl, !bytes_eqb_refl. cbn [andb].
  repeat split.
Qed.

Lemma transition_markers (b : Header) (s : Store) :
  let s' := transitionStore L b s in
  let n := Sealer.NumberU64 b in
  let h := HeaderHash L b in
  s' KHeadBlockHash = Some (VHash h)
  /\ s' KHeadFastBlockHash = Some (VHash h)
  /\ s' KHeadHeaderHash = Some (VHash h)
  /\ s' KFinalizedBlockHash = Some (VHash h)
  /\ s' (KCanonicalHash n) = Some (VHash h)
  /\ s' (KBody n h) = Some VEmptyBody
  /\ s' (KReceipts n h) = Some VEmptyReceipts.
Proof.
  unfold transitionStore, store_put.
  cbn [key_eqb]. rewrite !N.eqb_refl, !bytes_eqb_refl. cbn [andb].
  do 6 (split; [reflexivity|]). reflexivity.
Qed.

Lemma not_sentinel (header : Header) :
  Extra header <> Sealer.BedrockTransitionBlockExtraData ->
  bytes_eqb (Extra header) Sealer.BedrockTransitionBlockExtraData = false.
Proof.
  intros Hx.
  destruct (bytes_eqb (Extra header) Sealer.BedrockTransitionBlockExtraData)
    eqn:E; [|reflexivity].
  apply bytes_eqb_eq in E. contradiction.
Qed.

End SealOutcomes.

(** X17. An error returned by the sealing step comes before its first
    write: whenever [migrateHeadAndGenesis] returns an error, the store is
    the one it started from. *)
Theorem seal_error_leaves_store (L : Lib) (stateRoot : Hash) (w w' : World)
  (e : string) :
  Sealer.migrateHeadAndGenesis L stateRoot w = (Err e, w') ->
  store w' = store w.
Proof.
  intros H.
  destruct (ReadHeaderNumber (store w) (ReadHeadHeaderHash (store w)))
    as [num|] eqn:Hn.
  2:{ rewrite (seal_no_number L stateRoot w Hn) in H. now inversion H. }
  destruct (ReadHeader (store w) (ReadHeadHeaderHash (store w)) num)
    as [header|] eqn:Hh.
  2:{ rewrite (seal_no_header L stateRoot w num Hn Hh) in H. discriminate. }
  destruct (bytes_eqb (Extra header) Sealer.BedrockTransitionBlockExtraData)
    eqn:Hx.
  - apply bytes_eqb_eq in Hx.
    rewrite (seal_sentinel L stateRoot w num header Hn Hh Hx) in H.
    discriminate.
  - destruct (seal_fresh_outcome L stateRoot w w' (Err e) num header
                Hn Hh Hx H) as [(e' & _ & Hs) | (newRoot & s0 & Hout)];
      [exact Hs|].
    cbv zeta in Hout.
    destruct (Sealer.ReadChainConfig _ _) as [cfg|];
      [destruct (Kroma cfg)|]; destruct Hout; discriminate.
Qed.

Lemma seal_error_leaves_store_witness :
  let w := Toy.world Toy.emptyStore [] in
  Sealer.migrateHeadAndGenesis Toy.lib zeroHash w
  = (Err "cannot find header number", w)
  /\ store (snd (Sealer.migrateHeadAndGenesis Toy.lib zeroHash w)) = store w.
Proof.
  intros w.
  assert (H : Sealer.migrateHeadAndGenesis Toy.lib zeroHash w
              = (Err "cannot find header number", w)) by reflexivity.
  split; [exact H|].
  rewrite H.
  exact (seal_error_leaves_store Toy.lib zeroHash w w
           "cannot find header number" H).
Defined.

(** X18. The sealing step is not atomic.  A run that found a head without
    the sentinel and ended in a panic had already written the transition
    block and moved the head to it: a further run finds the sentinel, writes
    nothing and returns the result of that block, although the chain
    configuration under the genesis hash is missing or has no Kroma
    section, so that it was never rewritten. *)
Theorem seal_interrupted (L : Lib) (stateRoot stateRoot' : Hash)
  (w w' : World) (msg : string) (num : N) (header : Header) :
  ReadHeaderNumber (store w) (ReadHeadHeaderHash (store w)) = Some num ->
  ReadHeader (store w) (ReadHeadHeaderHash (store w)) num = Some header ->
  Extra header <> Sealer.BedrockTransitionBlockExtraData ->
  Sealer.migrateHeadAndGenesis L stateRoot w = (Panic msg, w') ->
  exists T,
    ParentHash T = HeaderHash L header
    /\ Number T = (Number header + 1)%N
    /\ ReadHeadHeaderHash (store w') = HeaderHash L T
    /\ Sealer.migrateHeadAndGenesis L stateRoot' w'
       = (Ok (Sealer.mkMigrationResult (Sealer.NumberU64 T) (Time T)
                (HeaderHash L T)), w')
    /\ (forall cfg,
          Sealer.ReadChainConfig (store w')
            (Sealer.ReadCanonicalHash (store w') 0) = Some cfg ->
          Kroma cfg = None).
Proof.
  intros Hn Hh Hx H.
  destruct (seal_fresh_outcome L stateRoot w w' (Panic msg) num header
              Hn Hh (not_sentinel header Hx) H)
    as [(e' & He & _) | (newRoot & s0 & Hout)]; [discriminate|].
  cbv zeta in Hout.
  exists (Sealer.NewBlock L (Sealer.bedrockHeaderOf L header newRoot)).
  assert (Hb : Extra (Sealer.NewBlock L
                        (Sealer.bedrockHeaderOf L header newRoot))
               = Sealer.BedrockTransitionBlockExtraData) by reflexivity.
  split; [reflexivity|]. split; [reflexivity|].
  revert Hout Hb.
  generalize (Sealer.NewBlock L (Sealer.bedrockHeaderOf L header newRoot)).
  intros b Hout Hb.
  assert (Hs : store w' = transitionStore L b s0
               /\ forall cfg,
                    Sealer.ReadChainConfig (transitionStore L b s0)
                      (Sealer.ReadCanonicalHash (transitionStore L b s0) 0)
                    = Some cfg -> Kroma cfg = None).
  { destruct (Sealer.ReadChainConfig (transitionStore L b s0)
                (Sealer.ReadCanonicalHash (transitionStore L b s0) 0))
      as [cfg|].
    - destruct (Kroma cfg) as [kroma|] eqn:Ek.
      + destruct Hout. discriminate.
      + destruct Hout as [_ Hs]. split; [exact Hs|].
        intros cfg' Hc. now inversion Hc; subst.
    - destruct Hout as [_ Hs]. split; [exact Hs|]. discriminate. }
  destruct Hs as [Hs Hcfg].
  destruct (transition_head L b s0) as (H1 & H2 & H3).
  rewrite <- Hs in H1, H2, H3, Hcfg.
  split; [exact H1|]. split; [|exact Hcfg].
  rewrite <- H1 in H2, H3.
  rewrite (seal_sentinel L stateRoot' w' _ b H2 H3 Hb).
  now rewrite H1.
Qed.

Lemma seal_interrupted_witness :
  let w := Toy.world Toy.noConfigStore [] in
  let w' := snd (Sealer.migrateHeadAndGenesis Toy.lib zeroHash w) in
  fst (Sealer.migrateHeadAndGenesis Toy.lib zeroHash w)
  = Panic "chain config not found"
  /\ exists T,
       ParentHash T = HeaderHash Toy.lib Toy.headHeader
       /\ Number T = (Number Toy.headHeader + 1)%N
       /\ ReadHeadHeaderHash (store w') = HeaderHash Toy.lib T
       /\ Sealer.migrateHeadAndGenesis Toy.lib Toy.zkAccountRoot w'
          = (Ok (Sealer.mkMigrationResult (Sealer.NumberU64 T) (Time T)
                   (HeaderHash Toy.lib T)), w')
       /\ (forall cfg,
             Sealer.ReadChainConfig (store w')
               (Sealer.ReadCanonicalHash (store w') 0) = Some cfg ->
             Kroma cfg = None).
Proof.
  intros w w'. split; [vm_compute; reflexivity|].
  apply (seal_interrupted Toy.lib zeroHash Toy.zkAccountRoot w w'
           "chain config not found" 7%N Toy.headHeader).
  - vm_compute. reflexivity.
  - vm_compute. reflexivity.
  - discriminate.
  - apply (run_eq (Sealer.migrateHeadAndGenesis Toy.lib zeroHash w)).
    vm_compute. reflexivity.
Defined.

(** X19. What a sealing run leaves for the readers of the chain.  After a
    run that sealed a new block on the head [header], the four head markers
    and the canonical hash at the height of the result name the transition
    block, its body and receipts are empty, and the configuration read back
    under the genesis hash has the fork blocks at the number of [header]
    plus one (not reduced to 64 bits, as the height of the result is), a
    terminal total difficulty of zero that is marked as passed, Regolith at
    time zero, and as its Optimism section the Kroma section, which it
    keeps. *)
Theorem seal_postcondition (L : Lib) (stateRoot : Hash) (w w' : World)
  (res : Sealer.MigrationResult) (num : N) (header : Header) :
  ReadHeaderNumber (store w) (ReadHeadHeaderHash (store w)) = Some num ->
  ReadHeader (store w) (ReadHeadHeaderHash (store w)) num = Some header ->
  Extra header <> Sealer.BedrockTransitionBlockExtraData ->
  Sealer.migrateHeadAndGenesis L stateRoot w = (Ok res, w') ->
  let n := Sealer.TransitionHeight res in
  let h := Sealer.TransitionBlockHash res in
  n = uint64 (Number header + 1)
  /\ Sealer.TransitionTimestamp res = 0%N
  /\ store w' KHeadBlockHash = Some (VHash h)
  /\ store w' KHeadFastBlockHash = Some (VHash h)
  /\ store w' KHeadHeaderHash = Some (VHash h)
  /\ store w' KFinalizedBlockHash = Some (VHash h)
  /\ store w' (KCanonicalHash n) = Some (VHash h)
  /\ store w' (KBody n h) = Some VEmptyBody
  /\ store w' (KReceipts n h) = Some VEmptyReceipts
  /\ exists cfg,
       Sealer.ReadChainConfig (store w') (Sealer.ReadCanonicalHash (store w') 0)
       = Some cfg
       /\ LondonBlock cfg = Some (Number header + 1)%N
       /\ ArrowGlacierBlock cfg = Some (Number header + 1)%N
       /\ GrayGlacierBlock cfg = Some (Number header + 1)%N
       /\ MergeNetsplitBlock cfg = Some (Number header + 1)%N
       /\ BedrockBlock cfg = Some (Number header + 1)%N
       /\ TerminalTotalDifficulty cfg = Some 0%N
       /\ TerminalTotalDifficultyPassed cfg = true
       /\ RegolithTime cfg = Some 0%N
       /\ Optimism cfg = Kroma cfg
       /\ Kroma cfg <> None.
Proof.
  intros Hn Hh Hx H n h.
  destruct (seal_fresh_outcome L stateRoot w w' (Ok res) num header
              Hn Hh (not_sentinel header Hx) H)
    as [(e' & He & _) | (newRoot & s0 & Hout)]; [discriminate|].
  cbv zeta in Hout.
  set (b := Sealer.NewBlock L (Sealer.bedrockHeaderOf L header newRoot)) in *.
  set (s9 := transitionStore L b s0) in *.
  set (g := Sealer.ReadCanonicalHash s9 0) in *.
  destruct (Sealer.ReadChainConfig s9 g) as [cfg|] eqn:Ec.
  2:{ destruct Hout. discriminate. }
  destruct (Kroma cfg) as [kroma|] eqn:Ek.
  2:{ destruct Hout. discriminate. }
  destruct Hout as [Hres Hs].
  assert (Hr : res = Sealer.mkMigrationResult (Sealer.NumberU64 b) (Time b)
                       (HeaderHash L b)) by congruence.
  subst n h. rewrite Hr, Hs.
  cbn [Sealer.TransitionHeight Sealer.TransitionBlockHash
       Sealer.TransitionTimestamp].
  split; [reflexivity|]. split; [reflexivity|].
  set (cfg' := Sealer.rewriteConfig cfg kroma (Number b)).
  assert (Hk : forall k, (forall x, k <> KChainConfig x) ->
                 store_put (KChainConfig g) (VConfig cfg') s9 k = s9 k).
  { intros k Hk. unfold store_put at 1.
    destruct k; cbn [key_eqb]; try reflexivity. now elim (Hk h). }
  assert (Hg : Sealer.ReadCanonicalHash
                 (store_put (KChainConfig g) (VConfig cfg') s9) 0 = g).
  { unfold Sealer.ReadCanonicalHash. now rewrite Hk by (intro; discriminate). }
  rewrite Hg. rewrite !Hk by (intro; discriminate).
  destruct (transition_markers L b s0)
    as (M1 & M2 & M3 & M4 & M5 & M6 & M7).
  fold s9 in M1, M2, M3, M4, M5, M6, M7.
  rewrite M1, M2, M3, M4, M5, M6, M7.
  do 7 (split; [reflexivity|]).
  exists cfg'. split.
  - unfold Sealer.ReadChainConfig. now rewrite store_put_same.
  - unfold cfg'. cbn. rewrite Ek. destruct kroma. cbn.
    do 9 (split; [reflexivity|]). discriminate.
Qed.

Lemma seal_postcondition_witness :
  let w := Toy.world Toy.chainStore [] in
  let r := Sealer.migrateHeadAndGenesis Toy.lib zeroHash w in
  let h := HeaderHash Toy.lib
             (Sealer.NewBlock Toy.lib
                (Sealer.bedrockHeaderOf Toy.lib Toy.headHeader zeroHash)) in
  store (snd r) KHeadHeaderHash = Some (VHash h)
  /\ store (snd r) (KCanonicalHash 8) = Some (VHash h)
  /\ exists cfg,
       Sealer.ReadChainConfig (store (snd r))
         (Sealer.ReadCanonicalHash (store (snd r)) 0) = Some cfg
       /\ BedrockBlock cfg = Some 8%N
       /\ Optimism cfg = Kroma cfg.
Proof.
  intros w r h.
  pose proof (seal_postcondition Toy.lib zeroHash w (snd r)
                (Sealer.mkMigrationResult 8 0 h) 7%N Toy.headHeader) as P.
  cbv zeta in P.
  cbn [Sealer.TransitionHeight Sealer.TransitionBlockHash] in P.
  destruct P as (_ & _ & _ & _ & P1 & _ & P2 & _ & _ & cfg & C1 & C).
  - vm_compute. reflexivity.
  - vm_compute. reflexivity.
  - discriminate.
  - apply (run_eq r). vm_compute. reflexivity.
  - split; [exact P1|]. split; [exact P2|].
    exists cfg. split; [exact C1|].
    split; [apply C | apply C].
Defined.

(** ** Progress reports *)

Lemma emitLogs_invariant (t : Z) (runtimes : list Z) :
  (t < 2 ^ 63 - 30 * Status.Second)%Z ->
  Forall (fun r => (r <= t)%Z) runtimes ->
  forall s,
    (0 <= Status.lastLogTime s)%Z ->
    (0 <= Status.count s)%Z ->
    (Status.count s + Z.of_nat (List.length runtimes) < 2 ^ 63)%Z ->
    let r := Status.emitLogs runtimes s in
    Status.count (fst r)
    = (Status.count s + Z.of_nat (List.length runtimes))%Z
    /\ Status.lastLogTime (fst r)
       = (Status.lastLogTime s + 30 * Status.Second * Z.of_nat (snd r))%Z
    /\ (snd r <> O ->
        (Status.lastLogTime (fst r) - 30 * Status.Second < t)%Z).
Proof.
  intros Ht HF. induction HF as [|x rest Hx HF IH]; intros s HL Hc Hn.
  - cbn. split; [lia|]. split; [lia|]. congruence.
  - cbn [List.length] in Hn |- *. cbn [Status.emitLogs].
    unfold Status.emitLog. rewrite orb_false_r.
    assert (Hcount : Status.int64 (Status.count s + 1)
                     = (Status.count s + 1)%Z).
    { unfold Status.int64. rewrite Z.mod_small; lia. }
    rewrite Hcount.
    unfold Status.Second in *.
    destruct (Status.lastLogTime s <? x)%Z eqn:E.
    + apply Z.ltb_lt in E.
      assert (Hlast : Status.int64 (Status.lastLogTime s + 30 * 1000000000)
                      = (Status.lastLogTime s + 30 * 1000000000)%Z).
      { unfold Status.int64. rewrite Z.mod_small; lia. }
      rewrite Hlast.
      specialize (IH (Status.mkStatus
                        (Status.lastLogTime s + 30 * 1000000000)
                        (Status.count s + 1))).
      cbn [Status.lastLogTime Status.count] in IH.
      destruct IH as (I1 & I2 & I3); [lia | lia | lia |].
      destruct (Status.emitLogs rest _) as [s2 n]. cbn [fst snd] in *.
      split; [lia|]. split; [lia|]. intros _.
      destruct n as [|n]; [|specialize (I3 ltac:(discriminate))]; lia.
    + specialize (IH (Status.mkStatus (Status.lastLogTime s)
                        (Status.count s + 1))).
      cbn [Status.lastLogTime Status.count] in IH.
      destruct IH as (I1 & I2 & I3); [lia | lia | lia |].
      destruct (Status.emitLogs rest _) as [s2 n]. cbn [fst snd] in *.
      split; [lia|]. split; [lia|]. exact I3.
Qed.

(** X20. The progress reports are rate-limited.  Take a fresh status and a
    loop that calls [emitLog(false, ...)], with every running time at most
    [t], for [t] below the largest duration less thirty seconds, and fewer
    calls than the largest [int].  Then the counter is the number of calls,
    the threshold is thirty seconds times one more than the number of lines
    printed, and the lines printed times thirty seconds stay below [t]: no
    more than one line for thirty seconds of running time, and none in the
    first thirty. *)
Theorem status_report_rate (t : Z) (runtimes : list Z) :
  (t < 2 ^ 63 - 30 * Status.Second)%Z ->
  (Z.of_nat (List.length runtimes) < 2 ^ 63)%Z ->
  Forall (fun r => (r <= t)%Z) runtimes ->
  let r := Status.emitLogs runtimes Status.newStatus in
  Status.count (fst r) = Z.of_nat (List.length runtimes)
  /\ Status.lastLogTime (fst r)
     = (30 * Status.Second * (1 + Z.of_nat (snd r)))%Z
  /\ (snd r = O \/ (30 * Status.Second * Z.of_nat (snd r) < t)%Z).
Proof.
  intros Ht Hn HF r.
  destruct (emitLogs_invariant t runtimes Ht HF Status.newStatus)
    as (I1 & I2 & I3).
  - cbn. lia.
  - cbn. lia.
  - cbn [Status.count Status.newStatus]. lia.
  - fold r in I1, I2, I3.
    cbn [Status.count Status.lastLogTime Status.newStatus] in I1, I2, I3.
    split; [lia|]. split; [lia|].
    destruct (snd r) as [|n] eqn:E; [now left|right].
    specialize (I3 ltac:(discriminate)). lia.
Qed.

(** Calls after 10, 95, 96, 97 and 98 seconds: the call at 10 seconds is
    silent, the next three print, the thresholds being 30, 60 and 90
    seconds, and the last is silent again. *)
Lemma status_report_rate_witness :
  let runtimes :=
    map (fun s => (s * Status.Second)%Z) [10; 95; 96; 97; 98]%Z in
  let r := Status.emitLogs runtimes Status.newStatus in
  r = (Status.mkStatus (120 * Status.Second) 5, 3)
  /\ Status.count (fst r) = Z.of_nat (List.length runtimes)
  /\ Status.lastLogTime (fst r)
     = (30 * Status.Second * (1 + Z.of_nat (snd r)))%Z
  /\ (snd r = O
      \/ (30 * Status.Second * Z.of_nat (snd r) < 98 * Status.Second)%Z).
Proof.
  intros runtimes r. split; [vm_compute; reflexivity|].
  apply (status_report_rate (98 * Status.Second) runtimes).
  - vm_compute. reflexivity.
  - vm_compute. reflexivity.
  - unfold runtimes, Status.Second. cbn [map].
    repeat (constructor; [lia|]). constructor.
Defined.

(** ** The first turn after the first migration *)

Section FirstTurn.
Context (L : Lib).

Lemma post_log (method : string) (n : option N) (w w' : World)
  (r : Res bytes) :
  Follower.post method n w = (r, w') -> log w' = log w ++ [EvPost method n].
Proof.
  unfold Follower.post, bind, emit. cbn [net store merged log].
  destruct (net w) as [|[| |b] rest]; intros H; inversion H; reflexivity.
Qed.

(** Every run of [debug_traceBlockByNumber] begins with its request. *)
Lemma trace_starts {A} (cb : Address -> list (string * Json) -> A -> M A)
  (n : N) (x : A) (w w' : World) (r : Res A) :
  (forall a st y, quiet (cb a st y)) ->
  Follower.debug_traceBlockByNumber L cb n x w = (r, w') ->
  exists evs,
    log w' = log w ++ EvPost "debug_traceBlockByNumber" (Some n) :: evs.
Proof.
  intros Hcb H. unfold Follower.debug_traceBlockByNumber in H.
  unfold bind at 1 in H.
  destruct (Follower.post "debug_traceBlockByNumber" (Some n) w)
    as [[b|e|p] w1] eqn:Ep; apply post_log in Ep.
  - assert (Q : quiet match unmarshalObject L b with
                      | None => panic "json.Unmarshal"
                      | Some result =>
                          txs <- Follower.asArray
                                   (Follower.jsonField "result" result) ;;
                          Follower.forEachTx cb txs x
                      end).
    { destruct (unmarshalObject L b); repeat quiet_step.
      - apply quiet_asArray.
      - now apply quiet_forEachTx. }
    destruct (Q _ _ _ H) as (evs & Lg & _). exists evs.
    rewrite Lg, Ep. now rewrite <- app_assoc.
  - inversion H; subst. exists []. exact Ep.
  - inversion H; subst. exists []. exact Ep.
Qed.

(** A turn whose head check passes asks for the trace of the block that
    the checkpoint names. *)
Lemma turn_requests (root : migrationRoot) (w w' : World) (b : bytes)
  (head : N) (rest : list Exchange) (res : Res migrationRoot) :
  net w = Body b :: rest ->
  unmarshalBigResponse L b = Some (mkBigResponse (Some head) None) ->
  (rootNumber root <= uint64 head)%N ->
  NewStateTrie L (store w) (StateTrieID (rootHash root)) = true ->
  Follower.iteration L root w = (res, w') ->
  exists evs,
    log w' = log w ++ [EvPost "eth_blockNumber" None;
                       EvNewMPT (StateTrieID (rootHash root));
                       EvPost "debug_traceBlockByNumber"
                         (Some (rootNumber root))] ++ evs.
Proof.
  intros Hn Hb Hle Hopen H.
  pose proof (eth_blockNumber_answer L w b rest head Hn Hb) as Hbn.
  set (w1 := mkWorld (store w) (merged w) rest
               (log w ++ [EvPost "eth_blockNumber" None])) in *.
  set (w2 := mkWorld (store w) (merged w) rest
               (log w1 ++ [EvNewMPT (StateTrieID (rootHash root))])).
  assert (Hm : Follower.newMPT L (StateTrieID (rootHash root)) w1
               = (Ok (mkStateTrie (StateTrieID (rootHash root)) []), w2)).
  { unfold Follower.newMPT, must1, NewMPT, bind, emit, getStore.
    unfold w2, w1. cbn [store merged net log]. now rewrite Hopen. }
  assert (Hlog2 : log w2 = log w ++ [EvPost "eth_blockNumber" None;
                                     EvNewMPT (StateTrieID (rootHash root))]).
  { unfold w2, w1. cbn [log]. now rewrite <- app_assoc. }
  unfold Follower.iteration, Follower.applyNewStateTransition in H.
  unfold bind at 1 in H. unfold bind at 1 in H. rewrite Hbn in H.
  apply N.leb_le in Hle. rewrite Hle in H.
  unfold bind at 1 in H. rewrite Hm in H.
  unfold bind at 1 in H.
  match type of H with
  | context [Follower.debug_traceBlockByNumber L ?cb ?n ?x w2] =>
      destruct (Follower.debug_traceBlockByNumber L cb n x w2)
        as [[mpt'|e|p] w3] eqn:Et;
      destruct (trace_starts cb n x w2 w3 _ (quiet_callback L root) Et)
        as (e3 & Lg3)
  end.
  - unfold bind at 1 in H.
    destruct (Follower.commit L mpt' w3) as [[h|e|p] w4] eqn:Ec;
      destruct (quiet_commit L mpt' _ _ _ Ec) as (e4 & Lg4 & _).
    + unfold ret at 1 in H. unfold bind at 1 in H.
      rewrite putCheckpoint_run in H. inversion H; subst res w'.
      cbn [log]. rewrite Lg4, Lg3, Hlog2.
      eexists. rewrite <- !app_assoc. cbn [app]. reflexivity.
    + inversion H; subst res w'. rewrite Lg4, Lg3, Hlog2.
      eexists. rewrite <- !app_assoc. cbn [app]. reflexivity.
    + inversion H; subst res w'. rewrite Lg4, Lg3, Hlog2.
      eexists. rewrite <- !app_assoc. cbn [app]. reflexivity.
  - inversion H; subst res w'. rewrite Lg3, Hlog2.
    eexists. rewrite <- !app_assoc. cbn [app]. reflexivity.
  - inversion H; subst res w'. rewrite Lg3, Hlog2.
    eexists. rewrite <- !app_assoc. cbn [app]. reflexivity.
Qed.

End FirstTurn.

(** X21. The first block that the follower applies is the head block of
    the first migration.  When the migration-root key is absent, [startup]
    migrates the state under the head header and returns a record with the
    number of that header; in the turn that follows, once the node reports
    a head at or above that number and the MPT opens, the trace requested
    is the one of the block with the head header's own number (in 64
    bits), not of its successor. *)
Theorem first_turn_traces_head (L : Lib) (m : Follower.migrator)
  (w w0 : World) (r : migrationRoot) (b : bytes) (head : N)
  (rest : list Exchange) :
  store w (KRaw Follower.checkpointKey) = None ->
  Follower.startup L m w = (Ok r, w0) ->
  net w0 = Body b :: rest ->
  unmarshalBigResponse L b = Some (mkBigResponse (Some head) None) ->
  (rootNumber r <= uint64 head)%N ->
  NewStateTrie L (store w0) (StateTrieID (rootHash r)) = true ->
  exists header evs,
    ReadHeadHeader (store w) = Some header
    /\ log (snd (Follower.iteration L r w0))
       = log w0 ++ [EvPost "eth_blockNumber" None;
                    EvNewMPT (StateTrieID (rootHash r));
                    EvPost "debug_traceBlockByNumber"
                      (Some (uint64 (Number header)))] ++ evs.
Proof.
  intros Habs Hs Hn Hb Hle Hopen.
  assert (Hhead : exists header,
            ReadHeadHeader (store w) = Some header
            /\ rootNumber r = uint64 (Number header)).
  { unfold Follower.startup in Hs.
    rewrite (bind_ok _ _ _ _ _ (dbGet_checkpoint w)) in Hs.
    rewrite Habs in Hs. unfold bind at 1 in Hs. unfold ret at 1 in Hs.
    apply bind_inv in Hs as (r0 & w1 & Hm & Hs).
    unfold bind at 1 in Hs. rewrite putCheckpoint_run in Hs.
    inversion Hs; subst r0.
    exact (follower_migrateAccount_number L m _ _ _ Hm). }
  destruct Hhead as (header & Hh & Hnum).
  destruct (Follower.iteration L r w0) as [res w'] eqn:Hit.
  destruct (turn_requests L r w0 w' b head rest res Hn Hb Hle Hopen Hit)
    as (evs & Lg).
  exists header, evs. split; [exact Hh|].
  cbn [snd]. now rewrite Lg, Hnum.
Qed.

Lemma first_turn_traces_head_witness :
  let w := Toy.world Toy.chainStore [Body [x09]; Body [x01]] in
  let w0 := snd (Follower.startup Toy.lib Toy.follower w) in
  Number Toy.headHeader = 7%N
  /\ exists header evs,
       ReadHeadHeader (store w) = Some header
       /\ log (snd (Follower.iteration Toy.lib
                      (mkMigrationRoot (BytesToHash [xaa; x01]) 7) w0))
          = log w0 ++ [EvPost "eth_blockNumber" None;
                       EvNewMPT (StateTrieID (BytesToHash [xaa; x01]));
                       EvPost "debug_traceBlockByNumber"
                         (Some (uint64 (Number header)))] ++ evs.
Proof.
  intros w w0. split; [reflexivity|].
  apply (first_turn_traces_head Toy.lib Toy.follower w w0
           (mkMigrationRoot (BytesToHash [xaa; x01]) 7) [x09] 9%N
           [Body [x01]]).
  - reflexivity.
  - apply (run_eq (Follower.startup Toy.lib Toy.follower w)).
    vm_compute. reflexivity.
  - vm_compute. reflexivity.
  - reflexivity.
  - vm_compute. discriminate.
  - vm_compute. reflexivity.
Defined.
